(** * obsidian-claude-code: the execution core and the session store

    A shallow embedding of
    - [src/services/MessageParser.ts]   (stream parser and tool-call table),
    - [src/services/ClaudeCliService.ts] (process supervisor and input queue),
    - [src/services/SessionManager.ts]  (session store and its validator),
    followed by the properties proved about them.

    Values decoded from JSON are kept untyped, as they are at run time: the
    TypeScript interfaces are erased casts ([JSON.parse(..) as
    RawStreamMessage]), so property reads, truthiness tests and [===] are
    modelled on arbitrary JSON values.  Exceptions are explicit
    ([completion]); state is threaded explicitly. *)

From Stdlib Require Import ZArith Ascii String List Bool Lia.
From Stdlib Require Strings.Byte.
From stdpp Require Import base option list strings gmap pretty.

Open Scope string_scope.
Open Scope list_scope.
Open Scope Z_scope.
Set Warnings "-register-all".

(** ** JavaScript values and the primitives the services use *)
Module JS.

(** A decoded JSON value.  Strings are sequences of code units below 256;
    numbers are the integral ones (time stamps, exit codes, counters).
    Object fields are kept in textual order. *)
Inductive json : Type :=
  | JNull
  | JBool (b : bool)
  | JNum (n : Z)
  | JStr (s : string)
  | JArr (items : list json)
  | JObj (fields : list (string * json)).

(** A JavaScript value read from a property or variable: [None] is
    [undefined]. *)
Definition value : Type := option json.

Definition undefined : value := None.

(** The result of evaluating code that may throw. *)
Inductive completion (A : Type) : Type :=
  | Normal (a : A)
  | Throw (e : string).
Arguments Normal {A} a.
Arguments Throw {A} e.

Definition TypeError : string := "TypeError".
Definition SyntaxError : string := "SyntaxError".

(** ToBoolean. *)
Definition truthy (v : value) : bool :=
  match v with
  | None => false
  | Some JNull => false
  | Some (JBool b) => b
  | Some (JNum n) => negb (n =? 0)
  | Some (JStr s) => negb (String.eqb s "")
  | Some (JArr _) => true
  | Some (JObj _) => true
  end.

(** [typeof v]. *)
Definition typeof (v : value) : string :=
  match v with
  | None => "undefined"
  | Some JNull => "object"
  | Some (JBool _) => "boolean"
  | Some (JNum _) => "number"
  | Some (JStr _) => "string"
  | Some (JArr _) => "object"
  | Some (JObj _) => "object"
  end.

(** [Array.isArray(v)]. *)
Definition isArray (v : value) : bool :=
  match v with
  | Some (JArr _) => true
  | _ => false
  end.

(** [v === 'lit'] for a string literal. *)
Definition strict_eq_str (v : value) (lit : string) : bool :=
  match v with
  | Some (JStr s) => String.eqb s lit
  | _ => false
  end.

(** The last binding of [k] in a field list: a repeated key of a JSON
    text keeps its last value. *)
Fixpoint lookup_field (k : string) (fields : list (string * json)) : value :=
  match fields with
  | [] => None
  | (k', v) :: rest =>
      match lookup_field k rest with
      | Some w => Some w
      | None => if String.eqb k' k then Some v else None
      end
  end.

(** [o.k] on a value that is not [null] or [undefined], for the property
    names the services read ([type], [id], [messages], ...): none of them
    is defined by a built-in prototype, so only an object's own fields
    answer. *)
Definition own (o : json) (k : string) : value :=
  match o with
  | JObj fields => lookup_field k fields
  | _ => None
  end.

(** [o.k]: reading a property of [null] or [undefined] throws. *)
Definition prop (o : value) (k : string) : completion value :=
  match o with
  | None => Throw TypeError
  | Some JNull => Throw TypeError
  | Some v => Normal (own v k)
  end.

(** [o?.k]. *)
Definition prop_opt (o : value) (k : string) : value :=
  match o with
  | None => None
  | Some JNull => None
  | Some v => own v k
  end.

(** The elements [for (const x of v)] visits: the items of an array, the
    characters of a string; any other value is not iterable. *)
Definition iterate (v : value) : completion (list json) :=
  match v with
  | Some (JArr items) => Normal items
  | Some (JStr s) =>
      Normal (map (fun c => JStr (String c "")) (list_ascii_of_string s))
  | _ => Throw TypeError
  end.

(** White space and line terminators among the code units below 256:
    TAB, LF, VT, FF, CR, SP and NBSP. *)
Definition isWhiteSpace (c : ascii) : bool :=
  let n := nat_of_ascii c in
  ((9 <=? n)%nat && (n <=? 13)%nat) || (n =? 32)%nat || (n =? 160)%nat.

(** [s.trimStart()], [s.trimEnd()], [s.trim()]. *)
Fixpoint trimStart (s : string) : string :=
  match s with
  | "" => ""
  | String c s' => if isWhiteSpace c then trimStart s' else s
  end.

Fixpoint trimEnd (s : string) : string :=
  match s with
  | "" => ""
  | String c s' =>
      let t := trimEnd s' in
      if isWhiteSpace c && String.eqb t "" then "" else String c t
  end.

Definition trim (s : string) : string := trimEnd (trimStart s).

Definition LF : ascii := "010"%char.

(** [s.split('\n')]: never empty; the last piece is what follows the last
    line feed. *)
Fixpoint split_lines (s : string) : list string :=
  match s with
  | "" => [""]
  | String c s' =>
      let pieces := split_lines s' in
      if Ascii.eqb c LF then "" :: pieces
      else match pieces with
           | [] => [String c ""]
           | p :: ps => String c p :: ps
           end
  end.

(** [s.endsWith(suffix)]. *)
Definition endsWith (s suffix : string) : bool :=
  let n := String.length s in
  let m := String.length suffix in
  (m <=? n)%nat && String.eqb (substring (n - m) m s) suffix.

(** SameValueZero, the key comparison of [Map].  Arrays and objects are
    compared by identity; every decoded value is a fresh allocation, so
    two of them are never the same key. *)
Definition sameValueZero (a b : json) : bool :=
  match a, b with
  | JNull, JNull => true
  | JBool x, JBool y => Bool.eqb x y
  | JNum x, JNum y => (x =? y)
  | JStr x, JStr y => String.eqb x y
  | _, _ => false
  end.

(** A [Map] keyed by decoded values, in insertion order: [get] answers
    with the entry whose key is the same value, [set] replaces it or
    appends a new entry, [delete] leaves no entry under the key. *)
Definition Map (V : Type) : Type := list (json * V).

Definition Map_empty {V} : Map V := [].

Fixpoint Map_get {V} (k : json) (m : Map V) : option V :=
  match m with
  | [] => None
  | (k', v) :: rest => if sameValueZero k' k then Some v else Map_get k rest
  end.

Definition Map_has {V} (k : json) (m : Map V) : bool :=
  match Map_get k m with Some _ => true | None => false end.

Fixpoint Map_set {V} (k : json) (v : V) (m : Map V) : Map V :=
  match m with
  | [] => [(k, v)]
  | (k', v') :: rest =>
      if sameValueZero k' k then (k', v) :: rest
      else (k', v') :: Map_set k v rest
  end.

Fixpoint Map_delete {V} (k : json) (m : Map V) : Map V :=
  match m with
  | [] => []
  | (k', v') :: rest =>
      if sameValueZero k' k then Map_delete k rest
      else (k', v') :: Map_delete k rest
  end.

(** Code that reads and updates a state [S] and may throw; what it did to
    the state before throwing stays done. *)
Definition M (S A : Type) : Type := S -> completion A * S.

Definition ret {S A} (a : A) : M S A := fun s => (Normal a, s).

Definition bind {S A B} (m : M S A) (k : A -> M S B) : M S B :=
  fun s =>
    match m s with
    | (Normal a, s') => k a s'
    | (Throw e, s') => (Throw e, s')
    end.

Definition lift {S A} (c : completion A) : M S A := fun s => (c, s).

Definition modify {S} (f : S -> S) : M S unit := fun s => (Normal tt, f s).

Definition gets {S A} (f : S -> A) : M S A := fun s => (Normal (f s), s).

(** [try { body } catch { handler }]. *)
Definition try_catch {S A} (body : M S A) (handler : string -> M S A) : M S A :=
  fun s =>
    match body s with
    | (Normal a, s') => (Normal a, s')
    | (Throw e, s') => handler e s'
    end.

(** A [for ... of] loop whose body may throw, over an accumulator. *)
Fixpoint for_of {S A B} (body : B -> A -> M S B) (acc : B) (xs : list A) : M S B :=
  match xs with
  | [] => ret acc
  | x :: rest => bind (body acc x) (fun acc' => for_of body acc' rest)
  end.

End JS.

Notation "'do' x <- e ; k" := (JS.bind e (fun x => k))
  (at level 10, x name, e at level 100, k at level 200).

(** ** A decoder for JSON texts

    [JSON.parse] belongs to the language, not to the repository: the
    services take it as a parameter.  [JsonText.parse] is a decoder for the
    texts of the model (objects, arrays, strings with the two-character
    escapes, integers, [true], [false], [null]); it instantiates that
    parameter wherever a property is evaluated on a concrete line. *)
Module JsonText.
Import JS.

Definition is_ws (c : ascii) : bool :=
  let n := nat_of_ascii c in
  (n =? 32)%nat || (n =? 9)%nat || (n =? 10)%nat || (n =? 13)%nat.

Fixpoint skip_ws (s : string) : string :=
  match s with
  | String c rest => if is_ws c then skip_ws rest else s
  | "" => ""
  end.

Definition digit (c : ascii) : option Z :=
  let n := nat_of_ascii c in
  if (48 <=? n)%nat && (n <=? 57)%nat then Some (Z.of_nat (n - 48)) else None.

(** The characters of a string literal after its opening quote, up to
    the closing one. *)
Fixpoint string_body (s : string) : option (string * string) :=
  match s with
  | "" => None
  | String c rest =>
      if Ascii.eqb c "034" then Some ("", rest)
      else if Ascii.eqb c "\" then
        match rest with
        | String e rest' =>
            let unescaped :=
              if Ascii.eqb e "034" then Some "034"%char
              else if Ascii.eqb e "\" then Some "\"%char
              else if Ascii.eqb e "/" then Some "/"%char
              else if Ascii.eqb e "b" then Some "008"%char
              else if Ascii.eqb e "f" then Some "012"%char
              else if Ascii.eqb e "n" then Some "010"%char
              else if Ascii.eqb e "r" then Some "013"%char
              else if Ascii.eqb e "t" then Some "009"%char
              else None in
            match unescaped, string_body rest' with
            | Some u, Some (body, after) => Some (String u body, after)
            | _, _ => None
            end
        | "" => None
        end
      else if (nat_of_ascii c <? 32)%nat then None
      else
        match string_body rest with
        | Some (body, after) => Some (String c body, after)
        | None => None
        end
  end.

(** The digits at the head of [s], as a number, and what follows. *)
Fixpoint digits (acc : Z) (s : string) : Z * string :=
  match s with
  | String c rest =>
      match digit c with
      | Some d => digits (10 * acc + d) rest
      | None => (acc, s)
      end
  | "" => (acc, "")
  end.

(** An integer literal: no leading zero, no fraction, no exponent. *)
Definition number (s : string) : option (Z * string) :=
  let '(neg, s) :=
    match s with
    | String "-" rest => (true, rest)
    | _ => (false, s)
    end in
  match s with
  | String c rest =>
      match digit c with
      | None => None
      | Some d =>
          let '(n, after) := if (d =? 0) then (0, rest) else digits d rest in
          match after with
          | String c' _ =>
              if Ascii.eqb c' "." || Ascii.eqb c' "e" || Ascii.eqb c' "E"
                 || match digit c' with Some _ => true | None => false end
              then None
              else Some (if neg then - n else n, after)
          | "" => Some (if neg then - n else n, after)
          end
      end
  | "" => None
  end.

Definition literal (word : string) (s : string) : option string :=
  if String.eqb (substring 0 (String.length word) s) word
  then Some (substring (String.length word) (String.length s - String.length word) s)
  else None.

(** One value, then the elements of an array after its first, then the
    members of an object after its first. *)
Fixpoint value_ (fuel : nat) (s : string) : option (json * string) :=
  match fuel with
  | O => None
  | S fuel =>
      match skip_ws s with
      | String "{" rest =>
          match skip_ws rest with
          | String "}" after => Some (JObj [], after)
          | rest' => members fuel rest'
          end
      | String "[" rest =>
          match skip_ws rest with
          | String "]" after => Some (JArr [], after)
          | rest' => elements fuel rest'
          end
      | String "034" rest =>
          match string_body rest with
          | Some (str, after) => Some (JStr str, after)
          | None => None
          end
      | String "t" _ as s' => option_map (pair (JBool true)) (literal "true" s')
      | String "f" _ as s' => option_map (pair (JBool false)) (literal "false" s')
      | String "n" _ as s' => option_map (pair JNull) (literal "null" s')
      | s' => option_map (fun '(n, after) => (JNum n, after)) (number s')
      end
  end
with elements (fuel : nat) (s : string) : option (json * string) :=
  match fuel with
  | O => None
  | S fuel =>
      match value_ fuel s with
      | Some (v, after) =>
          match skip_ws after with
          | String "]" after' => Some (JArr [v], after')
          | String "," after' =>
              match elements fuel after' with
              | Some (JArr vs, after'') => Some (JArr (v :: vs), after'')
              | _ => None
              end
          | _ => None
          end
      | None => None
      end
  end
with members (fuel : nat) (s : string) : option (json * string) :=
  match fuel with
  | O => None
  | S fuel =>
      match skip_ws s with
      | String "034" rest =>
          match string_body rest with
          | Some (key, after) =>
              match skip_ws after with
              | String ":" after' =>
                  match value_ fuel after' with
                  | Some (v, after'') =>
                      match skip_ws after'' with
                      | String "}" rest' => Some (JObj [(key, v)], rest')
                      | String "," rest' =>
                          match members fuel rest' with
                          | Some (JObj fs, rest'') => Some (JObj ((key, v) :: fs), rest'')
                          | _ => None
                          end
                      | _ => None
                      end
                  | None => None
                  end
              | _ => None
              end
          | None => None
          end
      | _ => None
      end
  end.

(** Decoding a whole text: one value and nothing but white space after. *)
Definition parse (s : string) : option json :=
  match value_ (2 * String.length s + 2) s with
  | Some (v, after) => if String.eqb (skip_ws after) "" then Some v else None
  | None => None
  end.

(** A JSON text written with apostrophes for its quotation marks. *)
Fixpoint quoted (s : string) : string :=
  match s with
  | "" => ""
  | String c rest => String (if Ascii.eqb c "'" then "034"%char else c) (quoted rest)
  end.

(** The same, as one line of output. *)
Definition line (s : string) : string := quoted s +:+ String LF "".

End JsonText.

(** ** [types/claude.ts]: the normalized stream message *)
Module Msg.
Import JS.

(** [ClaudeStreamMessage]; a field that is absent or [undefined] is
    [None]. *)
Record ClaudeStreamMessage : Type := mk {
  type : value;
  id : value;
  role : value;
  content : value;
  name : value;
  input : value;
  output : value;
  tool_use_id : value;
  is_error : value;
  subtype : value;
  session_id : value
}.

(** [{ type: ty, session_id: sid }]. *)
Definition bare (ty sid : value) : ClaudeStreamMessage :=
  mk ty None None None None None None None None None sid.

Definition with_content (m : ClaudeStreamMessage) (c : value) : ClaudeStreamMessage :=
  mk (type m) (id m) (role m) c (name m) (input m) (output m)
     (tool_use_id m) (is_error m) (subtype m) (session_id m).

Definition with_role (m : ClaudeStreamMessage) (r : value) : ClaudeStreamMessage :=
  mk (type m) (id m) r (content m) (name m) (input m) (output m)
     (tool_use_id m) (is_error m) (subtype m) (session_id m).

Definition with_subtype (m : ClaudeStreamMessage) (st : value) : ClaudeStreamMessage :=
  mk (type m) (id m) (role m) (content m) (name m) (input m) (output m)
     (tool_use_id m) (is_error m) st (session_id m).

Definition with_name_input (m : ClaudeStreamMessage) (n i : value) : ClaudeStreamMessage :=
  mk (type m) (id m) (role m) (content m) n i (output m)
     (tool_use_id m) (is_error m) (subtype m) (session_id m).

End Msg.

(** ** [services/MessageParser.ts] *)
Module MessageParser.
Import JS.

(** An entry of [activeToolCalls]: [{ name, input }]. *)
Record TrackedCall : Type := { name : json; input : json }.

(** The parser's only field. *)
Definition activeToolCalls : Type := Map TrackedCall.

Definition get (o : json) (k : string) : M activeToolCalls value :=
  lift (prop (Some o) k).

(** [v || {}]. *)
Definition or_empty_object (v : value) : json :=
  match v with
  | Some j => if truthy v then j else JObj []
  | None => JObj []
  end.

(** [if (block.id && block.name) this.activeToolCalls.set(block.id, ...)]. *)
Definition track (block : json) : M activeToolCalls unit :=
  match own block "id", own block "name" with
  | Some i, Some n =>
      if truthy (Some i) && truthy (Some n) then
        modify (Map_set i {| name := n; input := or_empty_object (own block "input") |})
      else ret tt
  | _, _ => ret tt
  end.

(** The body of the loop over an [assistant] record's content blocks. *)
Definition assistantBlock (raw_session_id : value) (baseMsg : Msg.ClaudeStreamMessage)
    (messages : list Msg.ClaudeStreamMessage) (block : json)
    : M activeToolCalls (list Msg.ClaudeStreamMessage) :=
  do ty <- get block "type";
  if strict_eq_str ty "thinking" && truthy (own block "thinking") then
    ret (messages ++
      [Msg.with_content (Msg.bare (Some (JStr "thinking")) raw_session_id)
         (own block "thinking")])
  else if strict_eq_str ty "text" && truthy (own block "text") then
    ret (messages ++
      [Msg.with_role (Msg.with_content baseMsg (own block "text"))
         (Some (JStr "assistant"))])
  else if strict_eq_str ty "tool_use" then
    do _ <- track block;
    ret (messages ++
      [Msg.mk (Some (JStr "tool_use")) (own block "id") None None
         (own block "name") (own block "input") None None None None
         raw_session_id])
  else ret messages.

(** The body of the loop over a [user] record's content blocks. *)
Definition userBlock (raw : json)
    (messages : list Msg.ClaudeStreamMessage) (block : json)
    : M activeToolCalls (list Msg.ClaudeStreamMessage) :=
  do ty <- get block "type";
  match own block "tool_use_id" with
  | Some tid =>
      if strict_eq_str ty "tool_result" && truthy (Some tid) then
        do toolCall <- gets (Map_get tid);
        do _ <- modify (Map_delete tid);
        ret (messages ++
          [Msg.mk (Some (JStr "tool_result")) (Some tid) None None
             (option_map name toolCall) (option_map input toolCall)
             (own block "content") None (own raw "is_error") None
             (own raw "session_id")])
      else ret messages
  | None => ret messages
  end.

(** [normalizeMessage(raw)]. *)
Definition normalizeMessage (raw : json) : M activeToolCalls (list Msg.ClaudeStreamMessage) :=
  do raw_type <- get raw "type";
  do raw_session_id <- get raw "session_id";
  let baseMsg := Msg.bare raw_type raw_session_id in
  let content := prop_opt (own raw "message") "content" in
  if strict_eq_str raw_type "assistant" && truthy content then
    do blocks <- lift (iterate content);
    do messages <- for_of (assistantBlock raw_session_id baseMsg) [] blocks;
    match messages with
    | [] => ret [baseMsg]
    | _ => ret messages
    end
  else
    do messages <-
      (if strict_eq_str raw_type "user" && truthy content then
         do blocks <- lift (iterate content);
         for_of (userBlock raw) [] blocks
       else ret []);
    match messages with
    | _ :: _ => ret messages
    | [] =>
        let baseMsg :=
          if strict_eq_str raw_type "result" && truthy (own raw "result")
          then Msg.with_content baseMsg (own raw "result") else baseMsg in
        let baseMsg :=
          if strict_eq_str raw_type "system" && strict_eq_str (own raw "subtype") "init"
          then Msg.with_subtype baseMsg (Some (JStr "init")) else baseMsg in
        let baseMsg :=
          if strict_eq_str raw_type "tool_use" then
            Msg.with_name_input baseMsg
              (if truthy (own raw "name") then own raw "name"
               else own raw "tool_name")
              (own raw "input")
          else baseMsg in
        ret (messages ++ [baseMsg])
    end.

Section Decoder.

(** [JSON.parse]: [None] when the text is not JSON and the call throws. *)
Variable JSON_parse : string -> option json.

(** [parseLine(line)]; the result [None] is [null]. *)
Definition parseLine (line : string)
    : M activeToolCalls (option (list Msg.ClaudeStreamMessage)) :=
  let trimmed := trim line in
  if negb (truthy (Some (JStr trimmed))) then ret None
  else
    try_catch
      (do raw <- lift (match JSON_parse trimmed with
                       | Some v => Normal v
                       | None => Throw SyntaxError
                       end);
       do _ <- get raw "type";
       do _ <- get raw "subtype";
       do messages <- normalizeMessage raw;
       ret (Some messages))
      (fun _ => ret None).

End Decoder.

(** [reset()]. *)
Definition reset : M activeToolCalls unit := modify (fun _ => Map_empty).

End MessageParser.

(** ** [types/claude.ts]: the result of one run *)
Module ExecutionResult.
Import JS.

(** [ClaudeExecutionResult]. *)
Record ClaudeExecutionResult : Type := mk {
  success : bool;
  sessionId : value;
  messages : list Msg.ClaudeStreamMessage;
  finalContent : option string;
  error : option string
}.

End ExecutionResult.

(** ** [services/ClaudeCliService.ts] *)
Module ClaudeCliService.
Import JS.

(** The handle [spawn] returns. *)
Record ChildProcess : Type := { pid : nat }.

(** What the service hands to its listeners: [emit('message', m)] and
    [emit('partial', text)], in order. *)
Inductive Emitted : Type :=
  | EmitMessage (m : Msg.ClaudeStreamMessage)
  | EmitPartial (text : string).

(** How the promise of [execute] ended. *)
Inductive Settlement : Type :=
  | Resolved (result : ExecutionResult.ClaudeExecutionResult)
  | Rejected (err : string).

(** The fields of the service, and the signals it has sent. *)
Record Service : Type := mkService {
  activeProcess : option ChildProcess;
  parser : MessageParser.activeToolCalls;
  queuedInput : option string;
  killed : list ChildProcess
}.

(** The variables one call of [execute] closes over, the state of its
    timer and of its promise, and what it has emitted. *)
Record Run : Type := mkRun {
  messages : list Msg.ClaudeStreamMessage;
  sessionId : value;
  finalContent : string;
  buffer : string;
  stderrData : string;
  timeout : bool;
  settled : option Settlement;
  emitted : list Emitted
}.

Definition set_activeProcess (p : option ChildProcess) (s : Service) : Service :=
  mkService p (parser s) (queuedInput s) (killed s).

Definition set_parser (t : MessageParser.activeToolCalls) (s : Service) : Service :=
  mkService (activeProcess s) t (queuedInput s) (killed s).

Definition set_queuedInput (q : option string) (s : Service) : Service :=
  mkService (activeProcess s) (parser s) q (killed s).

(** [p.kill('SIGTERM')]. *)
Definition kill (p : ChildProcess) (s : Service) : Service :=
  mkService (activeProcess s) (parser s) (queuedInput s) (killed s ++ [p]).

Definition set_buffer (b : string) (r : Run) : Run :=
  mkRun (messages r) (sessionId r) (finalContent r) b (stderrData r)
        (timeout r) (settled r) (emitted r).

Definition set_stderrData (e : string) (r : Run) : Run :=
  mkRun (messages r) (sessionId r) (finalContent r) (buffer r) e
        (timeout r) (settled r) (emitted r).

Definition set_sessionId (i : value) (r : Run) : Run :=
  mkRun (messages r) i (finalContent r) (buffer r) (stderrData r)
        (timeout r) (settled r) (emitted r).

Definition set_finalContent (c : string) (r : Run) : Run :=
  mkRun (messages r) (sessionId r) c (buffer r) (stderrData r)
        (timeout r) (settled r) (emitted r).

Definition push_message (m : Msg.ClaudeStreamMessage) (r : Run) : Run :=
  mkRun (messages r ++ [m]) (sessionId r) (finalContent r) (buffer r)
        (stderrData r) (timeout r) (settled r) (emitted r).

Definition emit (e : Emitted) (r : Run) : Run :=
  mkRun (messages r) (sessionId r) (finalContent r) (buffer r)
        (stderrData r) (timeout r) (settled r) (emitted r ++ [e]).

Definition clearTimeout (r : Run) : Run :=
  mkRun (messages r) (sessionId r) (finalContent r) (buffer r)
        (stderrData r) false (settled r) (emitted r).

(** [resolve(..)] and [reject(..)]: a promise settles once. *)
Definition settle (o : Settlement) (r : Run) : Run :=
  match settled r with
  | Some _ => r
  | None =>
      mkRun (messages r) (sessionId r) (finalContent r) (buffer r)
            (stderrData r) (timeout r) (Some o) (emitted r)
  end.

(** [typeof parsed.content === 'string' ? parsed.content : '']. *)
Definition content_text (parsed : Msg.ClaudeStreamMessage) : string :=
  match Msg.content parsed with
  | Some (JStr s) => s
  | _ => ""
  end.

(** [if (parsed.type === ty && parsed.content) { finalContent = ..;
    emit('partial', ..) }]. *)
Definition take_content (ty : string) (parsed : Msg.ClaudeStreamMessage) (r : Run) : Run :=
  if strict_eq_str (Msg.type parsed) ty && truthy (Msg.content parsed) then
    emit (EmitPartial (content_text parsed))
      (set_finalContent (content_text parsed) r)
  else r.

(** The body of the loop over the messages parsed from one streamed line. *)
Definition onParsed (r : Run) (parsed : Msg.ClaudeStreamMessage) : Run :=
  let r := push_message parsed r in
  let r := if truthy (Msg.session_id parsed)
           then set_sessionId (Msg.session_id parsed) r else r in
  let r := emit (EmitMessage parsed) r in
  let r := take_content "assistant" parsed r in
  take_content "result" parsed r.

(** The body of the loop over the messages parsed from the last buffer. *)
Definition onParsedLast (r : Run) (parsed : Msg.ClaudeStreamMessage) : Run :=
  let r := push_message parsed r in
  take_content "result" parsed r.

Section Decoder.

Variable JSON_parse : string -> option json.

(** [try { const parsedMessages = this.parser.parseLine(text); if
    (parsedMessages) for (..) body } catch (e) { .. }]. *)
Definition parseWith (body : Run -> Msg.ClaudeStreamMessage -> Run)
    (text : string) (st : Service * Run) : Service * Run :=
  let '(s, r) := st in
  match MessageParser.parseLine JSON_parse text (parser s) with
  | (Normal (Some parsedMessages), t) =>
      (set_parser t s, fold_left body parsedMessages r)
  | (Normal None, t) => (set_parser t s, r)
  | (Throw _, t) => (set_parser t s, r)
  end.

(** The body of the loop over the complete lines of a chunk. *)
Definition onLine (st : Service * Run) (line : string) : Service * Run :=
  if negb (truthy (Some (JStr (trim line)))) then st
  else parseWith onParsed line st.

(** The ['data'] handler of stdout, on the text [data.toString()] of the
    chunk. *)
Definition onStdout (data : string) (st : Service * Run) : Service * Run :=
  let '(s, r) := st in
  let lines := split_lines (buffer r +:+ data) in
  let r := set_buffer (List.last lines "") r in
  fold_left onLine (removelast lines) (s, r).

(** The ['data'] handler of stderr. *)
Definition onStderr (data : string) (st : Service * Run) : Service * Run :=
  let '(s, r) := st in
  (s, set_stderrData (stderrData r +:+ data) r).

(** [`Process exited with code ${code}`]. *)
Definition exit_message (code : option Z) : string :=
  "Process exited with code " +:+
  match code with
  | Some n => pretty n
  | None => "null"
  end.

(** [if (buffer.trim()) { .. }] of the ['close'] handler. *)
Definition flush (st : Service * Run) : Service * Run :=
  if truthy (Some (JStr (trim (buffer (snd st)))))
  then parseWith onParsedLast (buffer (snd st)) st
  else st.

(** The object the ['close'] handler resolves with. *)
Definition result_of (code : option Z) (r : Run) : ExecutionResult.ClaudeExecutionResult :=
  if match code with Some 0 => true | _ => false end
     || truthy (Some (JStr (finalContent r)))
  then ExecutionResult.mk true (sessionId r) (messages r) (Some (finalContent r)) None
  else ExecutionResult.mk false None (messages r) None
         (Some (if truthy (Some (JStr (stderrData r))) then stderrData r
                else exit_message code)).

(** The ['close'] handler. *)
Definition onClose (code : option Z) (st : Service * Run) : Service * Run :=
  let '(s, r) := st in
  let '(s, r) := flush (set_activeProcess None s, clearTimeout r) in
  (s, settle (Resolved (result_of code r)) r).

(** The ['error'] handler. *)
Definition onError (err : string) (st : Service * Run) : Service * Run :=
  let '(s, r) := st in
  (set_activeProcess None s, settle (Rejected err) (clearTimeout r)).

(** The timer callback; a cleared timer does not fire. *)
Definition onTimeout (st : Service * Run) : Service * Run :=
  let '(s, r) := st in
  if timeout r then
    (match activeProcess s with
     | Some p => kill p s
     | None => s
     end, clearTimeout r)
  else st.

End Decoder.

(** [abort()]. *)
Definition abort (s : Service) : Service :=
  match activeProcess s with
  | Some p => set_activeProcess None (kill p s)
  | None => s
  end.

(** [isRunning()]. *)
Definition isRunning (s : Service) : bool :=
  match activeProcess s with
  | Some _ => true
  | None => false
  end.

(** [queueInput(input)]. *)
Definition queueInput (input : string) (s : Service) : bool * Service :=
  if isRunning s then (true, set_queuedInput (Some input) s)
  else (false, s).

(** [getAndClearQueuedInput()]. *)
Definition getAndClearQueuedInput (s : Service) : option string * Service :=
  (queuedInput s, set_queuedInput None s).

(** [hasQueuedInput()]. *)
Definition hasQueuedInput (s : Service) : bool :=
  match queuedInput s with
  | Some _ => true
  | None => false
  end.

(** [new ClaudeCliService(plugin)]. *)
Definition new : Service := mkService None Map_empty None [].

(** The part of [execute] that runs before any callback: the variables
    are initialised, the child is spawned and the timer armed. *)
Definition execute (child : ChildProcess) (s : Service) : Service * Run :=
  (set_activeProcess (Some child) s,
   mkRun [] None "" "" "" true None []).

(** What can happen while the promise of [execute] is pending. *)
Inductive Event : Type :=
  | StdoutData (data : string)
  | StderrData (data : string)
  | Close (code : option Z)
  | ProcessError (err : string)
  | TimerFired
  | AbortCalled.

Section Decoder.

Variable JSON_parse : string -> option json.

Definition step (st : Service * Run) (e : Event) : Service * Run :=
  match e with
  | StdoutData data => onStdout JSON_parse data st
  | StderrData data => onStderr data st
  | Close code => onClose JSON_parse code st
  | ProcessError err => onError err st
  | TimerFired => onTimeout st
  | AbortCalled => (abort (fst st), snd st)
  end.

Definition steps (st : Service * Run) (es : list Event) : Service * Run :=
  fold_left step es st.

End Decoder.

End ClaudeCliService.

(** ** The world around the session store *)
Module Obsidian.
Import JS.

(** [TAbstractFile]: a file or a folder of the vault. *)
Inductive TAbstractFile : Type :=
  | TFile (path : string)
  | TFolder (path : string).

(** The calls the store makes on [vault] and [vault.adapter], over some
    state [V] of the vault; each may throw. *)
Record Vault (V : Type) : Type := {
  adapter_exists : string -> M V bool;
  adapter_list_files : string -> M V (list string);
  adapter_read : string -> M V string;
  getAbstractFileByPath : string -> M V (option TAbstractFile);
  delete : TAbstractFile -> M V unit
}.
Arguments adapter_exists {V} _ _ _.
Arguments adapter_list_files {V} _ _ _.
Arguments adapter_read {V} _ _ _.
Arguments getAbstractFileByPath {V} _ _ _.
Arguments delete {V} _ _ _.

(** The clock and the random source, as the readings still to come. *)
Record World : Type := {
  clock : nat -> Z;
  entropy : nat -> string
}.

(** [Date.now()]: the next reading of the clock. *)
Definition Date_now (w : World) : Z * World :=
  (clock w 0%nat, {| clock := fun n => clock w (S n); entropy := entropy w |}).

(** [Math.random().toString(36).slice(2, 11)]: the next random suffix. *)
Definition random_suffix (w : World) : string * World :=
  (entropy w 0%nat, {| clock := clock w; entropy := fun n => entropy w (S n) |}).

End Obsidian.

(** ** [services/SessionManager.ts] *)
Module SessionManager.
Import JS Obsidian.

(** The checks on one element of [session.messages]; [false] is
    [return false]. *)
Definition message_ok (msg : json) : bool :=
  if negb (truthy (Some msg)) || negb (String.eqb (typeof (Some msg)) "object") then false
  else if negb (String.eqb (typeof (own msg "id")) "string") then false
  else if negb (strict_eq_str (own msg "role") "user")
          && negb (strict_eq_str (own msg "role") "assistant") then false
  else true.

(** [isValidSession(obj)]. *)
Definition isValidSession (obj : json) : bool :=
  if negb (truthy (Some obj)) || negb (String.eqb (typeof (Some obj)) "object") then false
  else if negb (String.eqb (typeof (own obj "id")) "string")
          || negb (truthy (own obj "id")) then false
  else if negb (isArray (own obj "messages")) then false
  else if negb (String.eqb (typeof (own obj "createdAt")) "number") then false
  else if negb (String.eqb (typeof (own obj "updatedAt")) "number") then false
  else
    match own obj "messages" with
    | Some (JArr msgs) => forallb message_ok msgs
    | _ => false
    end.

(** The fields of the manager. *)
Record Manager : Type := mkManager {
  sessions : gmap string json;
  activeSessionId : option string
}.

(** [new SessionManager(plugin)]. *)
Definition new : Manager := mkManager ∅ None.

(** The settings the store reads. *)
Record Settings : Type := {
  sessionStoragePath : string;
  autoSaveSessions : bool
}.

(** [this.sessions.set(parsed.id, parsed)], for a validated [parsed]. *)
Definition store (parsed : json) (m : Manager) : Manager :=
  match own parsed "id" with
  | Some (JStr id) => mkManager (<[id := parsed]> (sessions m)) (activeSessionId m)
  | _ => m
  end.

Section Store.

Variable JSON_parse : string -> option json.
Context {V : Type} (vault : Vault V).
Variable settings : Settings.

(** The body of the loop of [loadSessions] over [listing.files]. *)
Definition loadFile (m : Manager) (filePath : string) : M V Manager :=
  if endsWith filePath ".json" then
    try_catch
      (do content <- adapter_read vault filePath;
       do parsed <- lift (match JSON_parse content with
                          | Some v => Normal v
                          | None => Throw SyntaxError
                          end);
       if negb (isValidSession parsed) then ret m
       else ret (store parsed m))
      (fun _ => ret m)
  else ret m.

(** [loadSessions()]. *)
Definition loadSessions (m : Manager) : M V Manager :=
  try_catch
    (do exists_ <- adapter_exists vault (sessionStoragePath settings);
     if negb exists_ then ret m
     else
       do files <- adapter_list_files vault (sessionStoragePath settings);
       for_of loadFile m files)
    (fun _ => ret m).

(** [deleteSession(id)]. *)
Definition deleteSession (id : string) (m : Manager) : M V Manager :=
  let filePath := sessionStoragePath settings +:+ "/" +:+ id +:+ ".json" in
  let m := mkManager (base.delete id (sessions m)) (activeSessionId m) in
  try_catch
    (do file <- getAbstractFileByPath vault filePath;
     match file with
     | Some (TFile p) => do _ <- Obsidian.delete vault (TFile p); ret m
     | _ => ret m
     end)
    (fun _ => ret m).

End Store.

(** [generateId()]. *)
Definition generateId (w : World) : string * World :=
  let '(t, w) := Date_now w in
  let '(r, w) := random_suffix w in
  ("session-" +:+ pretty t +:+ "-" +:+ r, w).

Section Create.

(** [new Date().toLocaleDateString()], from the reading of the clock the
    [Date] is built on. *)
Variable toLocaleDateString : Z -> string.

(** [createSession(name)]; the fields of the object literal are
    evaluated in the order they are written. *)
Definition createSession (name : option string) (w : World) (m : Manager)
    : json * World * Manager :=
  let '(id, w) := generateId w in
  let '(name, w) :=
    match name with
    | Some n =>
        if truthy (Some (JStr n)) then (n, w)
        else let '(t, w) := Date_now w in ("Chat " +:+ toLocaleDateString t, w)
    | None => let '(t, w) := Date_now w in ("Chat " +:+ toLocaleDateString t, w)
    end in
  let '(createdAt, w) := Date_now w in
  let '(updatedAt, w) := Date_now w in
  let session :=
    JObj [("id", JStr id); ("name", JStr name); ("messages", JArr []);
          ("context", JArr []); ("createdAt", JNum createdAt);
          ("updatedAt", JNum updatedAt)] in
  (session, w, mkManager (<[id := session]> (sessions m)) (Some id)).

End Create.

(** [getSession(id)]. *)
Definition getSession (id : string) (m : Manager) : option json :=
  sessions m !! id.

(** [getActiveSession()]; [None] is [null]. *)
Definition getActiveSession (m : Manager) : option json :=
  match activeSessionId m with
  | None => None
  | Some id =>
      if negb (truthy (Some (JStr id))) then None
      else match sessions m !! id with
           | Some s => if truthy (Some s) then Some s else None
           | None => None
           end
  end.

(** [setActiveSession(id)]. *)
Definition setActiveSession (id : string) (m : Manager) : Manager :=
  mkManager (sessions m) (Some id).

End SessionManager.

(** ** Vocabulary of the properties *)
Module Spec.
Import JS.

(** The events a caller gets out of one [parseLine] call: [null] carries
    none ([if (parsedMessages) for (..)]). *)
Definition events (r : completion (option (list Msg.ClaudeStreamMessage)))
    : list Msg.ClaudeStreamMessage :=
  match r with
  | Normal (Some ms) => ms
  | _ => []
  end.

(** The first, and the last, non-empty session id a sequence of events
    carries. *)
Fixpoint first_session_id (ms : list Msg.ClaudeStreamMessage) : value :=
  match ms with
  | [] => None
  | m :: rest =>
      if truthy (Msg.session_id m) then Msg.session_id m
      else first_session_id rest
  end.

Definition last_session_id (ms : list Msg.ClaudeStreamMessage) : value :=
  first_session_id (rev ms).

(** The validity of a persisted session in the words of the
    specification: a string id, a message list, numeric created-at and
    updated-at time stamps, and every message with a string id and a role
    of the closed set user, assistant, system. *)
Definition role_in_closed_set (role : value) : bool :=
  strict_eq_str role "user" || strict_eq_str role "assistant"
  || strict_eq_str role "system".

Definition message_as_specified (msg : json) : bool :=
  String.eqb (typeof (own msg "id")) "string"
  && role_in_closed_set (own msg "role").

Definition session_as_specified (obj : json) : bool :=
  String.eqb (typeof (own obj "id")) "string"
  && String.eqb (typeof (own obj "createdAt")) "number"
  && String.eqb (typeof (own obj "updatedAt")) "number"
  && match own obj "messages" with
     | Some (JArr msgs) => forallb message_as_specified msgs
     | _ => false
     end.

(** No message of the record has the role system. *)
Definition no_system_message (obj : json) : bool :=
  match own obj "messages" with
  | Some (JArr msgs) =>
      forallb (fun msg => negb (strict_eq_str (own msg "role") "system")) msgs
  | _ => true
  end.

(** A vault held in memory, to evaluate the store on concrete
    directories: its files with their contents, all in one folder; when
    [locked], deleting throws. *)
Record MemoryVault : Type := {
  files : list (string * string);
  locked : bool
}.

Fixpoint content_of (path : string) (fs : list (string * string)) : option string :=
  match fs with
  | [] => None
  | (p, c) :: rest => if String.eqb p path then Some c else content_of path rest
  end.

Definition memory_vault : Obsidian.Vault MemoryVault := {|
  Obsidian.adapter_exists := fun _ v => (Normal true, v);
  Obsidian.adapter_list_files := fun _ v => (Normal (map fst (files v)), v);
  Obsidian.adapter_read := fun path v =>
    match content_of path (files v) with
    | Some c => (Normal c, v)
    | None => (Throw "ENOENT", v)
    end;
  Obsidian.getAbstractFileByPath := fun path v =>
    match content_of path (files v) with
    | Some _ => (Normal (Some (Obsidian.TFile path)), v)
    | None => (Normal None, v)
    end;
  Obsidian.delete := fun file v =>
    if locked v then (Throw "EBUSY", v)
    else
      match file with
      | Obsidian.TFile path =>
          (Normal tt,
           {| files := filter (fun f => negb (String.eqb (fst f) path)) (files v);
              locked := false |})
      | Obsidian.TFolder _ => (Normal tt, v)
      end
|}.

(** A clock that advances by one millisecond at every reading, and a
    constant random suffix. *)
Definition ticking (t0 : Z) : Obsidian.World := {|
  Obsidian.clock := fun n => t0 + Z.of_nat n;
  Obsidian.entropy := fun _ => "k3j9x0q2z"
|}.

(** Session records as texts, and a folder to hold them. *)
Definition record_valid : string := JsonText.quoted
  "{'id':'session-1','name':'Chat','messages':[{'id':'m1','role':'user','content':'hi','timestamp':1}],'context':[],'createdAt':1767225600000,'updatedAt':1767225600001}".

Definition record_without_updatedAt : string := JsonText.quoted
  "{'id':'session-2','name':'Chat','messages':[],'context':[],'createdAt':1767225600000}".

Definition record_empty_id : string := JsonText.quoted
  "{'id':'','name':'Chat','messages':[],'context':[],'createdAt':1767225600000,'updatedAt':1767225600001}".

Definition record_system_message : string := JsonText.quoted
  "{'id':'session-3','name':'Chat','messages':[{'id':'m1','role':'system','content':'x','timestamp':1}],'context':[],'createdAt':1767225600000,'updatedAt':1767225600001}".

Definition default_settings : SessionManager.Settings := {|
  SessionManager.sessionStoragePath := ".claude-sessions";
  SessionManager.autoSaveSessions := true
|}.

Definition folder (records : list (string * string)) : MemoryVault :=
  {| files := records; locked := false |}.

(** A run's variables that the loops over parsed messages leave alone. *)
Definition same_frame (r r' : ClaudeCliService.Run) : Prop :=
  ClaudeCliService.buffer r' = ClaudeCliService.buffer r /\
  ClaudeCliService.stderrData r' = ClaudeCliService.stderrData r /\
  ClaudeCliService.timeout r' = ClaudeCliService.timeout r /\
  ClaudeCliService.settled r' = ClaudeCliService.settled r.

(** A line of white space only. *)
Definition blank (line : string) : bool :=
  forallb isWhiteSpace (list_ascii_of_string line).

(** A content block can be read: it is not [null]. *)
Definition readable (block : json) : bool :=
  match block with
  | JNull => false
  | _ => true
  end.

(** The content blocks of a record, when [message.content] is a list of
    readable blocks. *)
Definition content_blocks (raw : json) : option (list json) :=
  match prop_opt (own raw "message") "content" with
  | Some (JArr blocks) => if forallb readable blocks then Some blocks else None
  | _ => None
  end.

(** The block is one the [user] branch of the parser answers: a
    [tool_result] with a call id. *)
Definition is_tool_result (block : json) : bool :=
  strict_eq_str (own block "type") "tool_result" && truthy (own block "tool_use_id").

(** The event the parser emits for a [tool_use] block. *)
Definition tool_call_event (session_id : value) (block : json) : Msg.ClaudeStreamMessage :=
  Msg.mk (Some (JStr "tool_use")) (own block "id") None None
    (own block "name") (own block "input") None None None None session_id.

(** The event the parser emits for a [tool_result] block of the record
    [raw], given what the table remembers of the call. *)
Definition tool_result_event (raw block : json)
    (toolCall : option MessageParser.TrackedCall) : Msg.ClaudeStreamMessage :=
  Msg.mk (Some (JStr "tool_result")) (own block "tool_use_id") None None
    (option_map MessageParser.name toolCall)
    (option_map MessageParser.input toolCall)
    (own block "content") None (own raw "is_error") None (own raw "session_id").

(** Lines of the stream, and the blocks they decode to. *)
Definition line_tool_use : string := JsonText.quoted
  "{'type':'assistant','session_id':'s1','message':{'content':[{'type':'text','text':'Reading'},{'type':'tool_use','id':'t1','name':'Read','input':{'file_path':'a.md'}}]}}".

Definition line_tool_result : string := JsonText.quoted
  "{'type':'user','session_id':'s1','message':{'content':[{'type':'tool_result','tool_use_id':'t1','content':'contents'}]}}".

Definition line_user_echo : string := JsonText.quoted
  "{'type':'user','session_id':'s1','message':{'content':[{'type':'text','text':'hello'}]}}".

Definition block_text : json :=
  JObj [("type", JStr "text"); ("text", JStr "Reading")].

Definition block_tool_use : json :=
  JObj [("type", JStr "tool_use"); ("id", JStr "t1"); ("name", JStr "Read");
        ("input", JObj [("file_path", JStr "a.md")])].

Definition block_tool_result : json :=
  JObj [("type", JStr "tool_result"); ("tool_use_id", JStr "t1");
        ("content", JStr "contents")].

Definition block_echo : json :=
  JObj [("type", JStr "text"); ("text", JStr "hello")].

Definition record_of (type : string) (blocks : list json) : json :=
  JObj [("type", JStr type); ("session_id", JStr "s1");
        ("message", JObj [("content", JArr blocks)])].

(** The events of a run before its process closes or fails to start. *)
Definition streams (e : ClaudeCliService.Event) : bool :=
  match e with
  | ClaudeCliService.Close _ => false
  | ClaudeCliService.ProcessError _ => false
  | _ => true
  end.

(** The session id of a run is the last non-empty one of its messages. *)
Definition session_id_is_last (r : ClaudeCliService.Run) : Prop :=
  ClaudeCliService.sessionId r = last_session_id (ClaudeCliService.messages r).

(** Two records of one run that carry different session ids, and a
    result record that is not followed by a line feed. *)
Definition line_first_session : string := JsonText.line
  "{'type':'assistant','session_id':'s1','message':{'content':[{'type':'text','text':'hi'}]}}".

Definition line_second_session : string := JsonText.line
  "{'type':'result','session_id':'s2','result':'done'}".

Definition unterminated_result : string := JsonText.quoted
  "{'type':'result','session_id':'s1','result':'done'}".

Definition a_child : ClaudeCliService.ChildProcess := {| ClaudeCliService.pid := 4242 |}.

End Spec.

(** ** The chunks of stdout *)
Module Utf8.

(** [data.toString()]: the bytes of a [Buffer] decoded as UTF-8.  The
    characters of this development are the code points up to [U+00FF], which
    UTF-8 writes as one byte below [0x80], or as [0xC2] or [0xC3] followed by
    one continuation byte.  [None] is a text that holds any other character;
    that includes [U+FFFD], which the decoder puts for a sequence that is
    malformed or cut short by the end of the buffer. *)
Fixpoint toString (data : list Byte.byte) : option string :=
  match data with
  | [] => Some ""
  | b :: rest =>
      let n := Byte.to_N b in
      if (n <? 128)%N then option_map (String (ascii_of_byte b)) (toString rest)
      else if (n =? 194)%N || (n =? 195)%N then
        match rest with
        | c :: rest' =>
            let k := Byte.to_N c in
            if (128 <=? k)%N && (k <? 192)%N
            then option_map (String (ascii_of_N ((n - 194) * 64 + k))) (toString rest')
            else None
        | [] => None
        end
      else None
  end.

End Utf8.

Module Chunks.
Import JS ClaudeCliService.

Section Decoder.

Variable JSON_parse : string -> option json.


End Decoder.



Definition e_acute_head : list Byte.byte := [Byte.x63; Byte.x61; Byte.x66; Byte.xc3].

Definition e_acute_tail : list Byte.byte := [Byte.xa9].

End Chunks.

(** ** What the listeners of a run observe *)
Module Trace.
Import JS ClaudeCliService.

(** The messages handed to the ['message'] listeners, in order. *)
Fixpoint emitted_messages (es : list Emitted) : list Msg.ClaudeStreamMessage :=
  match es with
  | [] => []
  | EmitMessage m :: rest => m :: emitted_messages rest
  | EmitPartial _ :: rest => emitted_messages rest
  end.

(** The texts handed to the ['partial'] listeners, in order. *)
Fixpoint emitted_partials (es : list Emitted) : list string :=
  match es with
  | [] => []
  | EmitMessage _ :: rest => emitted_partials rest
  | EmitPartial text :: rest => text :: emitted_partials rest
  end.

(** The text of the latest ['partial'] notification, empty before the
    first. *)
Definition last_partial (es : list Emitted) : string :=
  List.last (emitted_partials es) "".

(** The text holds a line feed. *)
Definition has_line_feed (s : string) : bool :=
  existsb (Ascii.eqb LF) (list_ascii_of_string s).

(** What the process wrote to stderr, chunk after chunk. *)
Fixpoint stderr_text (es : list Event) : string :=
  match es with
  | [] => ""
  | StderrData data :: rest => data +:+ stderr_text rest
  | _ :: rest => stderr_text rest
  end.

(** Every accumulated message went to the ['message'] listeners. *)
Definition messages_emitted (r : Run) : Prop :=
  emitted_messages (emitted r) = messages r.

(** The final text is the text of the latest ['partial'] notification. *)
Definition final_is_last_partial (r : Run) : Prop :=
  finalContent r = last_partial (emitted r).

End Trace.

(** ** The shapes of parsed records *)
Module Parsed.
Import JS.

(** The record takes the [assistant] branch, or the [user] branch, of
    [normalizeMessage]: it has that type and a truthy [message.content]. *)
Definition has_content (type : string) (raw : json) : bool :=
  strict_eq_str (own raw "type") type
  && truthy (prop_opt (own raw "message") "content").

(** The one event of a record that takes neither branch. *)
Definition generic_event (raw : json) : Msg.ClaudeStreamMessage :=
  let base := Msg.bare (own raw "type") (own raw "session_id") in
  let base :=
    if strict_eq_str (own raw "type") "result" && truthy (own raw "result")
    then Msg.with_content base (own raw "result") else base in
  let base :=
    if strict_eq_str (own raw "type") "system"
       && strict_eq_str (own raw "subtype") "init"
    then Msg.with_subtype base (Some (JStr "init")) else base in
  if strict_eq_str (own raw "type") "tool_use" then
    Msg.with_name_input base
      (if truthy (own raw "name") then own raw "name" else own raw "tool_name")
      (own raw "input")
  else base.

End Parsed.

(** ** [types/claude.ts] and the plugin settings: what [buildArgs] reads *)
Module CliOptions.

(** [ClaudeCliOptions]; an optional field that is absent is [None]. *)
Record ClaudeCliOptions : Type := mk {
  prompt : string;
  allowedTools : option (list string);
  addDirs : option (list string);
  sessionId : option string;
  maxTurns : option Z;
  systemPrompt : option string;
  appendSystemPrompt : option string
}.

End CliOptions.

Module PluginSettings.

(** The two settings [buildArgs] falls back on. *)
Record ClaudeCodePluginSettings : Type := {
  defaultAllowedTools : list string;
  maxTurns : Z
}.

End PluginSettings.

(** ** [services/ClaudeCliService.ts]: the argument list *)
Module CliArgs.
Import JS.

(** [dirs.forEach((dir) => args.push('--add-dir', dir))]. *)
Definition push_dirs (args dirs : list string) : list string :=
  fold_left (fun args dir => args ++ ["--add-dir"; dir]) dirs args.

(** [buildArgs(options)]. *)
Definition buildArgs (settings : PluginSettings.ClaudeCodePluginSettings)
    (options : CliOptions.ClaudeCliOptions) : list string :=
  let args := ["-p"; CliOptions.prompt options; "--output-format"; "stream-json";
               "--verbose"] in
  let tools :=
    match CliOptions.allowedTools options with
    | Some tools => tools
    | None => PluginSettings.defaultAllowedTools settings
    end in
  let args :=
    if (0 <? length tools)%nat
    then args ++ ["--allowedTools"; String.concat "," tools] else args in
  let args :=
    match CliOptions.addDirs options with
    | Some dirs => if (0 <? length dirs)%nat then push_dirs args dirs else args
    | None => args
    end in
  let args :=
    match CliOptions.sessionId options with
    | Some id => if truthy (Some (JStr id)) then args ++ ["--resume"; id] else args
    | None => args
    end in
  let maxTurns :=
    match CliOptions.maxTurns options with
    | Some n => if truthy (Some (JNum n)) then n else PluginSettings.maxTurns settings
    | None => PluginSettings.maxTurns settings
    end in
  let args := args ++ ["--max-turns"; pretty maxTurns] in
  match CliOptions.appendSystemPrompt options with
  | Some text =>
      if truthy (Some (JStr text)) then args ++ ["--append-system-prompt"; text]
      else match CliOptions.systemPrompt options with
           | Some text' =>
               if truthy (Some (JStr text')) then args ++ ["--system-prompt"; text']
               else args
           | None => args
           end
  | None =>
      match CliOptions.systemPrompt options with
      | Some text' =>
          if truthy (Some (JStr text')) then args ++ ["--system-prompt"; text']
          else args
      | None => args
      end
  end.

End CliArgs.

(** ** [services/SessionManager.ts]: appending and saving *)
Module SessionOps.
Import JS Obsidian SessionManager.

(** [o.k = v] on the fields of an object: the property is replaced where
    it is, or added last. *)
Definition has_field (k : string) (fields : list (string * json)) : bool :=
  existsb (fun f => String.eqb (fst f) k) fields.

Definition assign (k : string) (v : json) (fields : list (string * json))
    : list (string * json) :=
  if has_field k fields
  then map (fun f => if String.eqb (fst f) k then (fst f, v) else f) fields
  else fields ++ [(k, v)].

(** [`${v}`] in a template literal. *)
Fixpoint to_string (v : json) : string :=
  match v with
  | JNull => "null"
  | JBool true => "true"
  | JBool false => "false"
  | JNum n => pretty n
  | JStr s => s
  | JArr items =>
      String.concat ","
        (map (fun item => match item with
                          | JNull => ""
                          | _ => to_string item
                          end) items)
  | JObj _ => "[object Object]"
  end.

Definition template (v : value) : string :=
  match v with
  | None => "undefined"
  | Some j => to_string j
  end.

(** What a call of [saveSession] decides before its first [await]: the
    path of the record and its text. *)
Record SaveRequest : Type := { filePath : string; content : string }.

(** The writing calls of the vault. *)
Record VaultWriter (V : Type) : Type := {
  adapter_write : string -> string -> M V unit;
  create : string -> string -> M V unit
}.
Arguments adapter_write {V} _ _ _ _.
Arguments create {V} _ _ _ _.

Section Save.

(** [JSON.stringify(session, null, 2)]. *)
Variable JSON_stringify : json -> string.
Context {V : Type} (vault : Vault V) (writer : VaultWriter V).
Variable settings : Settings.

Definition save_request (session : json) : SaveRequest :=
  {| filePath := sessionStoragePath settings +:+ "/" +:+ template (own session "id")
                 +:+ ".json";
     content := JSON_stringify session |}.

(** [saveSession(session)], run to its end. *)
Definition saveSession (session : json) : M V unit :=
  let request := save_request session in
  try_catch
    (do exists_ <- adapter_exists vault (filePath request);
     if exists_ then adapter_write writer (filePath request) (content request)
     else create writer (filePath request) (content request))
    (fun _ => ret tt).

(** [addMessage(sessionId, message)]: the manager and the clock after the
    call, and the save it started without awaiting it, if any.  The call
    throws when the session found has no message list. *)
Definition addMessage (sessionId : string) (message : json) (w : World) (m : Manager)
    : completion (Manager * World * option SaveRequest) :=
  match sessions m !! sessionId with
  | None => Normal (m, w, None)
  | Some session =>
      if negb (truthy (Some session)) then Normal (m, w, None)
      else
        match session, own session "messages" with
        | JObj fields, Some (JArr msgs) =>
            let fields := assign "messages" (JArr (msgs ++ [message])) fields in
            let '(now, w) := Date_now w in
            let session := JObj (assign "updatedAt" (JNum now) fields) in
            Normal (mkManager (<[sessionId := session]> (sessions m)) (activeSessionId m),
                    w,
                    if autoSaveSessions settings then Some (save_request session)
                    else None)
        | _, _ => Throw TypeError
        end
  end.

End Save.

End SessionOps.

(** ** Printing JSON texts, and a vault that can be written

    [JSON.stringify] is a parameter of the store, as [JSON.parse] is.
    [JsonPrint.stringify] prints the values of the model the way
    [JSON.stringify(v, null, 2)] does; with [memory_writer] it
    instantiates the parameters where a property is evaluated on a
    concrete folder. *)
Module JsonPrint.
Import JS.

Definition hex_digit (n : nat) : ascii :=
  ascii_of_nat (if (n <? 10)%nat then 48 + n else 87 + n).

(** One character of a string literal. *)
Definition escape (c : ascii) : string :=
  let n := nat_of_ascii c in
  if Ascii.eqb c "034" then String "\" (String "034" "")
  else if Ascii.eqb c "\" then "\\"
  else if (n =? 8)%nat then "\b"
  else if (n =? 12)%nat then "\f"
  else if (n =? 10)%nat then "\n"
  else if (n =? 13)%nat then "\r"
  else if (n =? 9)%nat then "\t"
  else if (n <? 32)%nat
       then "\u00" +:+ String (hex_digit (n / 16)) (String (hex_digit (n mod 16)) "")
  else String c "".

Fixpoint escaped (s : string) : string :=
  match s with
  | "" => ""
  | String c rest => escape c +:+ escaped rest
  end.

Definition quote (s : string) : string :=
  String "034" (escaped s +:+ String "034" "").

Definition newline : string := String LF "".

(** The value [v] printed at the indentation [indent], two spaces a
    level. *)
Fixpoint print (indent : string) (v : json) : string :=
  match v with
  | JNull => "null"
  | JBool true => "true"
  | JBool false => "false"
  | JNum n => pretty n
  | JStr s => quote s
  | JArr [] => "[]"
  | JArr items =>
      let inner := indent +:+ "  " in
      let fix go (items : list json) : string :=
        match items with
        | [] => ""
        | [item] => inner +:+ print inner item
        | item :: rest => inner +:+ print inner item +:+ "," +:+ newline +:+ go rest
        end in
      "[" +:+ newline +:+ go items +:+ newline +:+ indent +:+ "]"
  | JObj [] => "{}"
  | JObj fields =>
      let inner := indent +:+ "  " in
      let fix go (fields : list (string * json)) : string :=
        match fields with
        | [] => ""
        | [(k, x)] => inner +:+ quote k +:+ ": " +:+ print inner x
        | (k, x) :: rest =>
            inner +:+ quote k +:+ ": " +:+ print inner x +:+ "," +:+ newline +:+ go rest
        end in
      "{" +:+ newline +:+ go fields +:+ newline +:+ indent +:+ "}"
  end.

Definition stringify (v : json) : string := print "" v.

(** Writing into the in-memory vault: [adapter.write] replaces the
    content of a file or adds the file, [vault.create] refuses a path that
    exists; both throw on a locked vault. *)
Fixpoint replace_content (path content : string) (fs : list (string * string))
    : list (string * string) :=
  match fs with
  | [] => [(path, content)]
  | (p, c) :: rest =>
      if String.eqb p path then (p, content) :: rest
      else (p, c) :: replace_content path content rest
  end.

Definition memory_writer : SessionOps.VaultWriter Spec.MemoryVault := {|
  SessionOps.adapter_write := fun path content v =>
    if Spec.locked v then (Throw "EBUSY", v)
    else (Normal tt, {| Spec.files := replace_content path content (Spec.files v);
                        Spec.locked := false |});
  SessionOps.create := fun path content v =>
    if Spec.locked v then (Throw "EBUSY", v)
    else match Spec.content_of path (Spec.files v) with
         | Some _ => (Throw "EEXIST", v)
         | None => (Normal tt, {| Spec.files := Spec.files v ++ [(path, content)];
                                  Spec.locked := false |})
         end
|}.

End JsonPrint.

(** ** What the store keeps *)
Module Kept.
Import JS SessionManager.

(** Every session of the store passed the validator and is filed under
    its own id. *)
Definition well_kept (m : Manager) : Prop :=
  forall k session,
    sessions m !! k = Some session ->
    isValidSession session = true /\ own session "id" = Some (JStr k).

End Kept.

(** ** [services/ClaudeCliService.ts]: the listeners *)
Module Listeners.

(** A callback is known by its identity: [indexOf] compares references. *)
Abbreviation EventCallback := nat.

(** The field [listeners]: the callbacks of each event, in the order
    they were registered. *)
Abbreviation Registry := (gmap string (list EventCallback)).

(** [on(event, callback)]. *)
Definition on (event : string) (callback : EventCallback) (ls : Registry) : Registry :=
  match ls !! event with
  | Some callbacks => <[event := callbacks ++ [callback]]> ls
  | None => <[event := [callback]]> ls
  end.

(** [callbacks.splice(callbacks.indexOf(callback), 1)] when the index is
    not [-1]. *)
Fixpoint splice_first (callback : EventCallback) (callbacks : list EventCallback)
    : list EventCallback :=
  match callbacks with
  | [] => []
  | c :: rest => if Nat.eqb c callback then rest else c :: splice_first callback rest
  end.

(** [off(event, callback)]; [None] is a call without a callback. *)
Definition off (event : string) (callback : option EventCallback) (ls : Registry)
    : Registry :=
  match callback with
  | None => base.delete event ls
  | Some cb =>
      match ls !! event with
      | Some callbacks => <[event := splice_first cb callbacks]> ls
      | None => ls
      end
  end.

(** [emit(event, data)]: the calls made, in order. *)
Definition emit {D : Type} (event : string) (data : D) (ls : Registry)
    : list (EventCallback * D) :=
  match ls !! event with
  | Some callbacks => map (fun cb => (cb, data)) callbacks
  | None => []
  end.

(** [removeAllListeners()]. *)
Definition removeAllListeners (ls : Registry) : Registry := ∅.

(** How often a callback is among the calls. *)
Definition calls {D : Type} (callback : EventCallback) (made : list (EventCallback * D))
    : nat :=
  length (List.filter (fun call => Nat.eqb (fst call) callback) made).

(** The calls made to the other callbacks. *)
Definition calls_to_others {D : Type} (callback : EventCallback)
    (made : list (EventCallback * D)) : list (EventCallback * D) :=
  List.filter (fun call => negb (Nat.eqb (fst call) callback)) made.

End Listeners.

(** ** Sample lines, records and folders *)
Module Samples.
Import JS.

Definition line_system_init : string := JsonText.quoted
  "{'type':'system','subtype':'init','session_id':'s1'}".

Definition record_system_init : json :=
  JObj [("type", JStr "system"); ("subtype", JStr "init"); ("session_id", JStr "s1")].

Definition line_result : string := JsonText.quoted
  "{'type':'result','session_id':'s2','result':'done'}".

Definition record_result : json :=
  JObj [("type", JStr "result"); ("session_id", JStr "s2"); ("result", JStr "done")].

Definition earlier_call : MessageParser.activeToolCalls :=
  [(JStr "t0", {| MessageParser.name := JStr "Glob"; MessageParser.input := JObj [] |})].

Definition message_user : json :=
  JObj [("id", JStr "m1"); ("role", JStr "user"); ("content", JStr "hi");
        ("timestamp", JNum 1)].

Definition message_system : json :=
  JObj [("id", JStr "m1"); ("role", JStr "system"); ("content", JStr "x");
        ("timestamp", JNum 1)].

Definition session_of (id : string) (messages : list json) : json :=
  JObj [("id", JStr id); ("name", JStr "Chat"); ("messages", JArr messages);
        ("context", JArr []); ("createdAt", JNum 1767225600000);
        ("updatedAt", JNum 1767225600001)].

Definition a_session : json := session_of "session-1" [message_user].

Definition a_session_path : string := ".claude-sessions/session-1.json".

End Samples.

(** * Properties *)

Import JS.

(** ** The [Map] operations *)
Section MapFacts.

Context {V : Type}.
Implicit Types (k : json) (m : Map V).

Lemma sameValueZero_eq a b : sameValueZero a b = true -> a = b.
Proof.
  destruct a, b; simpl; try discriminate; intros H; try reflexivity.
  - apply Bool.eqb_prop in H. congruence.
  - apply Z.eqb_eq in H. congruence.
  - apply String.eqb_eq in H. congruence.
Qed.

Lemma sameValueZero_str s : sameValueZero (JStr s) (JStr s) = true.
Proof. simpl. apply String.eqb_refl. Qed.

Lemma Map_get_set_same k v m :
  sameValueZero k k = true -> Map_get k (Map_set k v m) = Some v.
Proof.
  intros Hk. induction m as [|[k' v'] m IH]; simpl.
  - now rewrite Hk.
  - destruct (sameValueZero k' k) eqn:E; simpl; now rewrite E.
Qed.

Lemma Map_get_set_other k k' v m :
  k' <> k -> Map_get k (Map_set k' v m) = Map_get k m.
Proof.
  intros Hne. induction m as [|[k0 v0] m IH]; simpl.
  - destruct (sameValueZero k' k) eqn:E; [|reflexivity].
    apply sameValueZero_eq in E. contradiction.
  - destruct (sameValueZero k0 k') eqn:E; simpl.
    + destruct (sameValueZero k0 k) eqn:E'; [|reflexivity].
      apply sameValueZero_eq in E, E'. congruence.
    + now rewrite IH.
Qed.

Lemma Map_get_delete_same k m : Map_get k (Map_delete k m) = None.
Proof.
  induction m as [|[k' v'] m IH]; simpl; [reflexivity|].
  destruct (sameValueZero k' k) eqn:E; simpl; [assumption|].
  now rewrite E.
Qed.

Lemma Map_get_delete_other k k' m :
  k' <> k -> Map_get k (Map_delete k' m) = Map_get k m.
Proof.
  intros Hne. induction m as [|[k0 v0] m IH]; simpl; [reflexivity|].
  destruct (sameValueZero k0 k') eqn:E; simpl.
  - destruct (sameValueZero k0 k) eqn:E'; [|assumption].
    apply sameValueZero_eq in E, E'. congruence.
  - now rewrite IH.
Qed.

End MapFacts.

(** ** The input queue *)
Section InputQueue.

Import ClaudeCliService.

Lemma queueInput_running input s :
  isRunning s = true -> queueInput input s = (true, set_queuedInput (Some input) s).
Proof. intros H. unfold queueInput. now rewrite H. Qed.

Lemma isRunning_set_queuedInput q s :
  isRunning (set_queuedInput q s) = isRunning s.
Proof. reflexivity. Qed.

(** C7.  The queue is the single field [queuedInput]: [queueInput] answers
    [true] exactly when a run is in progress and then stores the text,
    leaving the service untouched otherwise; a second offer replaces the
    first; [getAndClearQueuedInput] hands back the text offered last, and
    the call right after it hands back nothing. *)
Theorem C7_input_queue (s : Service) (first second : string) :
  fst (queueInput first s) = isRunning s /\
  (isRunning s = false -> snd (queueInput first s) = s) /\
  (isRunning s = true ->
     let s1 := snd (queueInput first s) in
     let s2 := snd (queueInput second s1) in
     let taken := getAndClearQueuedInput s2 in
     queuedInput s1 = Some first /\
     fst (getAndClearQueuedInput s1) = Some first /\
     fst (queueInput second s1) = true /\
     queuedInput s2 = Some second /\
     fst taken = Some second /\
     fst (getAndClearQueuedInput (snd taken)) = None /\
     hasQueuedInput (snd taken) = false).
Proof.
  unfold queueInput. destruct (isRunning s) eqn:Hrun; simpl.
  - split; [reflexivity|]. split; [discriminate|]. intros _.
    rewrite isRunning_set_queuedInput, Hrun. simpl. repeat split.
  - split; [reflexivity|]. split; [reflexivity|discriminate].
Qed.

(** C7 on a service whose run is in progress: two offers, then two takes. *)
Lemma C7_input_queue_witness :
  let s := fst (execute {| pid := 7 |} new) in
  let s2 := snd (queueInput "second" (snd (queueInput "first" s))) in
  fst (queueInput "first" s) = true /\
  fst (getAndClearQueuedInput s2) = Some "second" /\
  fst (getAndClearQueuedInput (snd (getAndClearQueuedInput s2))) = None.
Proof.
  pose proof (C7_input_queue (fst (execute {| pid := 7 |} new)) "first" "second")
    as [Hacc [_ Hrun]].
  specialize (Hrun eq_refl). simpl in Hrun.
  destruct Hrun as (_ & _ & _ & _ & Htake & Hnone & _).
  repeat split; assumption.
Defined.

End InputQueue.

(** ** The process supervisor *)
Section Supervisor.

Import ClaudeCliService.

Variable JSON_parse : string -> option json.

Lemma same_frame_refl r : Spec.same_frame r r.
Proof. repeat split. Qed.

Lemma same_frame_trans r1 r2 r3 :
  Spec.same_frame r1 r2 -> Spec.same_frame r2 r3 -> Spec.same_frame r1 r3.
Proof. unfold Spec.same_frame. intuition congruence. Qed.

Lemma take_content_frame ty parsed r : Spec.same_frame r (take_content ty parsed r).
Proof. unfold take_content. case (_ && _); repeat split. Qed.

Lemma take_content_messages ty parsed r :
  messages (take_content ty parsed r) = messages r.
Proof. unfold take_content. case (_ && _); reflexivity. Qed.

Lemma take_content_sessionId ty parsed r :
  sessionId (take_content ty parsed r) = sessionId r.
Proof. unfold take_content. case (_ && _); reflexivity. Qed.

Lemma onParsed_frame r parsed : Spec.same_frame r (onParsed r parsed).
Proof.
  unfold onParsed.
  eapply same_frame_trans; [|apply take_content_frame].
  eapply same_frame_trans; [|apply take_content_frame].
  case (truthy _); repeat split.
Qed.

Lemma onParsedLast_frame r parsed : Spec.same_frame r (onParsedLast r parsed).
Proof.
  unfold onParsedLast.
  eapply same_frame_trans; [|apply take_content_frame]. repeat split.
Qed.

Lemma fold_frame (body : Run -> Msg.ClaudeStreamMessage -> Run) ms :
  (forall r m, Spec.same_frame r (body r m)) ->
  forall r, Spec.same_frame r (fold_left body ms r).
Proof.
  intros Hbody. induction ms as [|m ms IH]; intros r; simpl.
  - apply same_frame_refl.
  - eapply same_frame_trans; [apply Hbody|apply IH].
Qed.

Lemma onParsed_messages r parsed :
  messages (onParsed r parsed) = messages r ++ [parsed].
Proof.
  unfold onParsed. rewrite !take_content_messages.
  case (truthy _); reflexivity.
Qed.

Lemma onParsedLast_messages r parsed :
  messages (onParsedLast r parsed) = messages r ++ [parsed].
Proof. unfold onParsedLast. now rewrite take_content_messages. Qed.

Lemma fold_messages (body : Run -> Msg.ClaudeStreamMessage -> Run) ms :
  (forall r m, messages (body r m) = messages r ++ [m]) ->
  forall r, messages (fold_left body ms r) = messages r ++ ms.
Proof.
  intros Hbody. induction ms as [|m ms IH]; intros r; simpl.
  - now rewrite app_nil_r.
  - rewrite IH, Hbody, <- app_assoc. reflexivity.
Qed.

(** [parseWith] runs its loop over the events of the parse. *)
Lemma parseWith_unfold body text s r :
  parseWith JSON_parse body text (s, r) =
  (set_parser (snd (MessageParser.parseLine JSON_parse text (parser s))) s,
   fold_left body
     (Spec.events (fst (MessageParser.parseLine JSON_parse text (parser s)))) r).
Proof.
  unfold parseWith.
  destruct (MessageParser.parseLine JSON_parse text (parser s)) as [[[ms|]|e] t];
    reflexivity.
Qed.

Lemma flush_frame st : Spec.same_frame (snd st) (snd (flush JSON_parse st)).
Proof.
  unfold flush. destruct st as [s r]. cbn [snd].
  case (truthy _); [|apply same_frame_refl].
  rewrite parseWith_unfold. cbn [snd].
  apply fold_frame, onParsedLast_frame.
Qed.

(** What [resolve] is called with. *)
Lemma onClose_settled code s r :
  settled r = None ->
  settled (snd (onClose JSON_parse code (s, r))) =
  Some (Resolved (result_of code
    (snd (flush JSON_parse (set_activeProcess None s, clearTimeout r))))).
Proof.
  intros Hpending. unfold onClose.
  pose proof (flush_frame (set_activeProcess None s, clearTimeout r)) as Hf.
  destruct (flush JSON_parse (set_activeProcess None s, clearTimeout r)) as [s' r'].
  simpl in *. destruct Hf as (_ & _ & _ & Hs).
  unfold settle. rewrite Hs. simpl. now rewrite Hpending.
Qed.

Lemma onClose_finalContent code s r :
  finalContent (snd (onClose JSON_parse code (s, r))) =
  finalContent (snd (flush JSON_parse (set_activeProcess None s, clearTimeout r))).
Proof.
  unfold onClose.
  destruct (flush JSON_parse (set_activeProcess None s, clearTimeout r)) as [s' r'].
  simpl. unfold settle. destruct (settled r'); reflexivity.
Qed.

Lemma truthy_str s : truthy (Some (JStr s)) = true <-> s <> "".
Proof.
  simpl. rewrite negb_true_iff. split.
  - intros H ->. discriminate.
  - intros H. apply String.eqb_neq. exact H.
Qed.

Lemma result_of_success code r :
  ExecutionResult.success (result_of code r) = true <->
  code = Some 0 \/ finalContent r <> "".
Proof.
  unfold result_of. rewrite <- truthy_str.
  destruct code as [[|p|p]|]; simpl;
    destruct (negb (String.eqb (finalContent r) "")); simpl;
    intuition (try discriminate; auto).
Qed.

End Supervisor.

(** ** The session store *)
Section SessionStore.

Import SessionManager Obsidian.

Variable JSON_parse : string -> option json.
Context {V : Type} (vault : Vault V).
Variable settings : Settings.

(** C10.  [deleteSession] never throws and returns the manager without
    the entry of [id], whatever the vault does on the look-up and the
    removal of the file (also when they throw): [getSession id] is absent,
    the entries of the other sessions and the active-session pointer are
    those of before. *)
Theorem C10_deleteSession (id : string) (m : Manager) (v : V) :
  exists m',
    fst (deleteSession vault settings id m v) = Normal m' /\
    getSession id m' = None /\
    (forall other, other <> id -> getSession other m' = getSession other m) /\
    activeSessionId m' = activeSessionId m.
Proof.
  exists (mkManager (base.delete id (sessions m)) (activeSessionId m)).
  split.
  - unfold deleteSession, try_catch, bind, ret.
    destruct (getAbstractFileByPath vault _ v) as [[[[p|p]|]|e] v1]; try reflexivity.
    destruct (Obsidian.delete vault (TFile p) v1) as [[[]|e] v2]; reflexivity.
  - unfold getSession. cbn [sessions activeSessionId]. split; [|split].
    + apply lookup_delete_eq.
    + intros other Hne. apply lookup_delete_ne. congruence.
    + reflexivity.
Qed.

End SessionStore.

(** C10 on a locked vault: removing the file throws, the entry is gone
    all the same and the file is still there. *)
Lemma C10_deleteSession_witness :
  let m := SessionManager.mkManager
             {[ "a" := JObj [("id", JStr "a")]; "b" := JObj [("id", JStr "b")] ]} (Some "a") in
  let v := {| Spec.files := [(".claude-sessions/a.json", "{}")]; Spec.locked := true |} in
  let settings := {| SessionManager.sessionStoragePath := ".claude-sessions";
                     SessionManager.autoSaveSessions := true |} in
  exists m',
    SessionManager.deleteSession Spec.memory_vault settings "a" m v = (Normal m', v) /\
    SessionManager.getSession "a" m' = None /\
    SessionManager.getSession "b" m' = Some (JObj [("id", JStr "b")]).
Proof.
  cbv zeta.
  match goal with
  | |- context [SessionManager.deleteSession ?vault ?st ?id ?m ?v] =>
      destruct (C10_deleteSession vault st id m v) as (m' & Hres & Hgone & Hother & _)
  end.
  exists m'. split; [|split].
  - revert Hres. vm_compute. intros [= <-]. reflexivity.
  - exact Hgone.
  - rewrite Hother by discriminate. reflexivity.
Defined.

(** ** Creating a session *)
Section CreateSession.

Import SessionManager Obsidian.

Variable toLocaleDateString : Z -> string.

Lemma generateId_truthy w : truthy (Some (JStr (fst (generateId w)))) = true.
Proof. reflexivity. Qed.

Lemma generateId_clock w n : clock (snd (generateId w)) n = clock w (S n).
Proof. reflexivity. Qed.

(** C9, as the code has it.  [createSession] returns a session with an
    empty message list whose created-at and updated-at are two consecutive
    readings of the clock (equal when the clock does not advance between
    them), stores it under its id and makes it the active one, so that
    [getActiveSession] returns it right after. *)
Theorem C9_createSession (name : option string) (w : World) (m : Manager) :
  let session := fst (fst (createSession toLocaleDateString name w m)) in
  let m' := snd (createSession toLocaleDateString name w m) in
  own session "messages" = Some (JArr []) /\
  (exists k,
     own session "createdAt" = Some (JNum (clock w k)) /\
     own session "updatedAt" = Some (JNum (clock w (S k))) /\
     (clock w k = clock w (S k) ->
      own session "createdAt" = own session "updatedAt")) /\
  (exists id,
     own session "id" = Some (JStr id) /\
     activeSessionId m' = Some id /\
     getSession id m' = Some session) /\
  getActiveSession m' = Some session.
Proof.
  assert (Hcase :
    (exists n, name = Some n /\ truthy (Some (JStr n)) = true) \/
    (forall n, name = Some n -> truthy (Some (JStr n)) = false)).
  { destruct name as [n|]; [|right; discriminate].
    destruct (truthy (Some (JStr n))) eqn:E; [left; eauto|right].
    now intros ? [= <-]. }
  unfold createSession.
  destruct (generateId w) as [id w1] eqn:Hid.
  pose proof (generateId_truthy w) as Htruthy.
  pose proof (generateId_clock w) as Hclock.
  rewrite Hid in Htruthy, Hclock. cbn [fst snd] in Htruthy, Hclock.
  destruct Hcase as [(n & -> & Hn)|Hfalsy].
  - rewrite Hn. cbn -[truthy lookup insert]. split; [reflexivity|]. split; [|split].
    + exists 1%nat. rewrite !Hclock. repeat split. now intros ->.
    + exists id. unfold getSession. cbn [sessions].
      rewrite lookup_insert_eq. repeat split.
    + unfold getActiveSession. cbn [activeSessionId sessions].
      rewrite Htruthy, lookup_insert_eq. reflexivity.
  - assert (Hname :
      match name with
      | Some n =>
          if truthy (Some (JStr n)) then (n, w1)
          else let '(t, w0) := Date_now w1 in ("Chat " +:+ toLocaleDateString t, w0)
      | None => let '(t, w0) := Date_now w1 in ("Chat " +:+ toLocaleDateString t, w0)
      end = ("Chat " +:+ toLocaleDateString (clock w1 0%nat), snd (Date_now w1))).
    { destruct name as [n|]; [rewrite (Hfalsy n eq_refl)|]; reflexivity. }
    rewrite Hname. cbn -[truthy lookup insert]. split; [reflexivity|]. split; [|split].
    + exists 2%nat. rewrite !Hclock. repeat split. now intros ->.
    + exists id. unfold getSession. cbn [sessions].
      rewrite lookup_insert_eq. repeat split.
    + unfold getActiveSession. cbn [activeSessionId sessions].
      rewrite Htruthy, lookup_insert_eq. reflexivity.
Qed.

End CreateSession.

(** C9 as stated fails: the two time stamps are two readings of the
    clock, and a clock that ticks between them makes them differ. *)
Lemma C9_counterexample :
  ~ (forall (name : option string) (w : Obsidian.World) (m : SessionManager.Manager),
       let session := fst (fst (SessionManager.createSession (fun _ => "1/1/2026") name w m)) in
       own session "createdAt" = own session "updatedAt").
Proof.
  intros Hclaim.
  specialize (Hclaim (Some "notes") (Spec.ticking 1767225600000) SessionManager.new).
  vm_compute in Hclaim. discriminate Hclaim.
Qed.

(** C9 on a clock that ticks at every reading. *)
Lemma C9_createSession_witness :
  let created :=
    SessionManager.createSession (fun _ => "1/1/2026") (Some "notes")
      (Spec.ticking 1767225600000) SessionManager.new in
  own (fst (fst created)) "messages" = Some (JArr []) /\
  SessionManager.getActiveSession (snd created) = Some (fst (fst created)).
Proof.
  cbv zeta.
  destruct (C9_createSession (fun _ => "1/1/2026") (Some "notes")
              (Spec.ticking 1767225600000) SessionManager.new)
    as (Hmsgs & _ & _ & Hactive).
  split; [exact Hmsgs|exact Hactive].
Defined.

(** ** Validating and loading persisted sessions *)
Section Validation.

Import SessionManager Obsidian.

Lemma message_ok_as_specified msg :
  strict_eq_str (own msg "role") "system" = false ->
  message_ok msg = Spec.message_as_specified msg.
Proof.
  intros Hsys. unfold message_ok, Spec.message_as_specified, Spec.role_in_closed_set.
  rewrite Hsys, orb_false_r.
  destruct msg as [|b|n|s|items|fields];
    try (cbn; rewrite ?orb_true_r; reflexivity).
  cbn [truthy typeof negb orb String.eqb Ascii.eqb Bool.eqb].
  destruct (String.eqb (typeof (own (JObj fields) "id")) "string"); [|reflexivity].
  cbn [negb andb].
  destruct (strict_eq_str (own (JObj fields) "role") "user"); [reflexivity|].
  destruct (strict_eq_str (own (JObj fields) "role") "assistant"); reflexivity.
Qed.

Lemma forallb_message_ok msgs :
  forallb (fun msg => negb (strict_eq_str (own msg "role") "system")) msgs = true ->
  forallb message_ok msgs = forallb Spec.message_as_specified msgs.
Proof.
  induction msgs as [|msg msgs IH]; [reflexivity|].
  cbn [forallb]. intros [Hmsg Hrest]%andb_true_iff.
  apply negb_true_iff in Hmsg.
  now rewrite IH, message_ok_as_specified.
Qed.

Lemma typeof_string_inv v :
  String.eqb (typeof v) "string" = true -> exists s, v = Some (JStr s).
Proof. destruct v as [[| | |s| |]|]; try discriminate. eauto. Qed.

(** On the records without a system message, the validator accepts
    exactly the records the specification describes whose id is not
    empty. *)
Lemma isValidSession_as_specified obj :
  Spec.no_system_message obj = true ->
  isValidSession obj = true <->
  Spec.session_as_specified obj = true /\ own obj "id" <> Some (JStr "").
Proof.
  intros Hsys. unfold isValidSession, Spec.session_as_specified.
  unfold Spec.no_system_message in Hsys.
  destruct obj as [|b|n|s|items|fields];
    try (cbn; rewrite ?orb_true_r; split; [discriminate|intros [H _]; discriminate H]).
  cbn [truthy typeof negb orb String.eqb Ascii.eqb Bool.eqb].
  destruct (String.eqb (typeof (own (JObj fields) "id")) "string") eqn:Hid;
    cbn [negb orb andb]; [|split; [discriminate|intros [H _]; discriminate H]].
  destruct (typeof_string_inv _ Hid) as [id Heq]. rewrite Heq in *.
  destruct (truthy (Some (JStr id))) eqn:Hne; cbn [negb].
  2:{ split; [discriminate|]. intros [_ H]. exfalso. apply H.
      simpl in Hne. apply negb_false_iff, String.eqb_eq in Hne. now subst. }
  assert (Hid' : Some (JStr id) <> Some (JStr "")).
  { intros [= ->]. discriminate Hne. }
  destruct (own (JObj fields) "messages") as [[| | | |msgs|]|];
    cbn [isArray negb];
    try (split; [discriminate|intros [H _]; revert H; rewrite !andb_false_r; discriminate]).
  rewrite (forallb_message_ok _ Hsys).
  destruct (String.eqb (typeof (own (JObj fields) "createdAt")) "number");
    cbn [negb andb]; [|split; [discriminate|intros [H _]; discriminate H]].
  destruct (String.eqb (typeof (own (JObj fields) "updatedAt")) "number");
    cbn [negb andb]; [|split; [discriminate|intros [H _]; discriminate H]].
  tauto.
Qed.

Lemma isValidSession_id obj :
  isValidSession obj = true -> exists id, own obj "id" = Some (JStr id) /\ id <> "".
Proof.
  unfold isValidSession.
  destruct (negb (truthy (Some obj)) || _); [discriminate|].
  destruct (String.eqb (typeof (own obj "id")) "string") eqn:Hid; [|discriminate].
  destruct (typeof_string_inv _ Hid) as [id Heq]. rewrite Heq.
  cbn [negb orb]. destruct (truthy (Some (JStr id))) eqn:Hne; [|discriminate].
  intros _. exists id. split; [reflexivity|]. now apply truthy_str.
Qed.

Lemma isValidSession_updatedAt obj :
  own obj "updatedAt" = None -> isValidSession obj = false.
Proof.
  intros Hmissing. unfold isValidSession. rewrite Hmissing.
  destruct (negb (truthy (Some obj)) || _); [reflexivity|].
  destruct (negb (String.eqb (typeof (own obj "id")) "string") || _); [reflexivity|].
  destruct (negb (isArray _)); [reflexivity|].
  destruct (negb (String.eqb (typeof (own obj "createdAt")) "number")); reflexivity.
Qed.

End Validation.

Section Loading.

Import SessionManager Obsidian.

Variable JSON_parse : string -> option json.
Context {V : Type} (vault : Vault V).
Variable settings : Settings.

Local Abbreviation loadFile := (loadFile JSON_parse vault).
Local Abbreviation loadSessions := (loadSessions JSON_parse vault settings).

Lemma loadFile_total m path v : exists m' v', loadFile m path v = (Normal m', v').
Proof.
  unfold SessionManager.loadFile, try_catch, bind, lift, ret.
  destruct (endsWith path ".json"); [|eauto].
  destruct (adapter_read vault path v) as [[content|e] v1]; [|eauto].
  destruct (JSON_parse content) as [parsed|]; [|eauto].
  destruct (negb (isValidSession parsed)); eauto.
Qed.

Lemma for_of_loadFile_total paths :
  forall m v, exists m' v', for_of loadFile m paths v = (Normal m', v').
Proof.
  induction paths as [|path paths IH]; intros m v; cbn [for_of].
  - unfold ret. eauto.
  - unfold bind. destruct (loadFile_total m path v) as (m1 & v1 & ->). apply IH.
Qed.

Lemma loadSessions_total m v : exists m' v', loadSessions m v = (Normal m', v').
Proof.
  unfold SessionManager.loadSessions, try_catch, bind, ret.
  destruct (adapter_exists vault _ v) as [[[|]|e] v1]; cbn [negb]; [|eauto|eauto].
  destruct (adapter_list_files vault _ v1) as [[paths|e] v2]; [|eauto].
  destruct (for_of_loadFile_total paths m v2) as (m' & v' & ->). eauto.
Qed.

(** A [.json] file that can be read and decoded is stored when the
    validator accepts it and leaves the manager as it was otherwise. *)
Lemma loadFile_decoded m path v content v1 parsed :
  endsWith path ".json" = true ->
  adapter_read vault path v = (Normal content, v1) ->
  JSON_parse content = Some parsed ->
  loadFile m path v =
  (Normal (if isValidSession parsed then store parsed m else m), v1).
Proof.
  intros Hjson Hread Hparse.
  unfold SessionManager.loadFile, try_catch, bind, lift, ret.
  rewrite Hjson, Hread, Hparse.
  destruct (isValidSession parsed); reflexivity.
Qed.

Lemma store_valid parsed m :
  isValidSession parsed = true ->
  exists id, own parsed "id" = Some (JStr id) /\
    store parsed m = mkManager (<[id := parsed]> (sessions m)) (activeSessionId m).
Proof.
  intros (id & Hid & _)%isValidSession_id.
  exists id. split; [exact Hid|]. unfold store. now rewrite Hid.
Qed.

(** A folder with a valid record and a record without [updatedAt], in
    either order, loads the valid one alone. *)
Lemma loadSessions_one_valid v paths pgood pbad cgood cbad good bad :
  adapter_exists vault (sessionStoragePath settings) v = (Normal true, v) ->
  adapter_list_files vault (sessionStoragePath settings) v = (Normal paths, v) ->
  paths = [pgood; pbad] \/ paths = [pbad; pgood] ->
  endsWith pgood ".json" = true -> endsWith pbad ".json" = true ->
  adapter_read vault pgood v = (Normal cgood, v) ->
  adapter_read vault pbad v = (Normal cbad, v) ->
  JSON_parse cgood = Some good -> JSON_parse cbad = Some bad ->
  isValidSession good = true ->
  own bad "updatedAt" = None ->
  exists id,
    own good "id" = Some (JStr id) /\
    loadSessions SessionManager.new v = (Normal (mkManager {[ id := good ]} None), v).
Proof.
  intros Hex Hls Hpaths Hjg Hjb Hrg Hrb Hpg Hpb Hvalid Hmissing.
  destruct (store_valid good SessionManager.new Hvalid) as (id & Hid & Hstore).
  exists id. split; [exact Hid|].
  pose proof (isValidSession_updatedAt bad Hmissing) as Hbad.
  assert (Hg : forall m, loadFile m pgood v =
                 (Normal (store good m), v)).
  { intros m. rewrite (loadFile_decoded m pgood v cgood v good); auto.
    now rewrite Hvalid. }
  assert (Hb : forall m, loadFile m pbad v = (Normal m, v)).
  { intros m. rewrite (loadFile_decoded m pbad v cbad v bad); auto.
    now rewrite Hbad. }
  unfold SessionManager.loadSessions, try_catch, bind, ret.
  rewrite Hex. cbn [negb]. rewrite Hls.
  destruct Hpaths as [-> | ->]; cbn [for_of]; unfold bind, ret.
  - rewrite Hg, Hb, Hstore. reflexivity.
  - rewrite Hb, Hg, Hstore. reflexivity.
Qed.

(** C8, as the code has it.  Leaving aside the records that hold a
    message of role system: the validator accepts a record exactly when it
    has a string id that is not empty, a message list, numeric created-at
    and updated-at, and every message has a string id and a role of the
    closed set.  A readable, decodable [.json] file is stored when the
    validator accepts it and skipped otherwise; loading never throws; and a
    folder with one valid record and one record without [updatedAt] loads
    exactly one session. *)
Theorem C8_load_validated :
  (forall obj,
     Spec.no_system_message obj = true ->
     isValidSession obj = true <->
     Spec.session_as_specified obj = true /\ own obj "id" <> Some (JStr "")) /\
  (forall m path v content v1 parsed,
     endsWith path ".json" = true ->
     adapter_read vault path v = (Normal content, v1) ->
     JSON_parse content = Some parsed ->
     loadFile m path v =
     (Normal (if isValidSession parsed then store parsed m else m), v1)) /\
  (forall m v, exists m' v', loadSessions m v = (Normal m', v')) /\
  (forall v paths pgood pbad cgood cbad good bad,
     adapter_exists vault (sessionStoragePath settings) v = (Normal true, v) ->
     adapter_list_files vault (sessionStoragePath settings) v = (Normal paths, v) ->
     paths = [pgood; pbad] \/ paths = [pbad; pgood] ->
     endsWith pgood ".json" = true -> endsWith pbad ".json" = true ->
     adapter_read vault pgood v = (Normal cgood, v) ->
     adapter_read vault pbad v = (Normal cbad, v) ->
     JSON_parse cgood = Some good -> JSON_parse cbad = Some bad ->
     isValidSession good = true ->
     own bad "updatedAt" = None ->
     exists m',
       loadSessions SessionManager.new v = (Normal m', v) /\
       size (sessions m') = 1%nat /\
       exists id, own good "id" = Some (JStr id) /\ getSession id m' = Some good).
Proof.
  split; [exact isValidSession_as_specified|].
  split; [exact loadFile_decoded|].
  split; [exact loadSessions_total|].
  intros v paths pgood pbad cgood cbad good bad
    Hex Hls Hpaths Hjg Hjb Hrg Hrb Hpg Hpb Hvalid Hmissing.
  destruct (loadSessions_one_valid v paths pgood pbad cgood cbad good bad)
    as (id & Hid & Hload); auto.
  eexists. split; [exact Hload|]. cbn [sessions]. split.
  - apply map_size_singleton.
  - exists id. split; [exact Hid|]. unfold getSession. cbn [sessions].
    apply lookup_singleton_eq.
Qed.

End Loading.

(** C8 as stated fails: a record whose id is the empty string has all the
    specified fields, yet the validator refuses it and a folder holding it
    loads no session. *)
Lemma C8_counterexample :
  exists obj,
    JsonText.parse Spec.record_empty_id = Some obj /\
    Spec.session_as_specified obj = true /\
    SessionManager.isValidSession obj = false /\
    fst (SessionManager.loadSessions JsonText.parse Spec.memory_vault
           Spec.default_settings SessionManager.new
           (Spec.folder [(".claude-sessions/empty.json", Spec.record_empty_id)]))
    = Normal SessionManager.new.
Proof. eexists. repeat split; vm_compute; reflexivity. Qed.

(** The validator also refuses a record with a message of role system,
    the third role of [ChatMessage]. *)
Example system_message_refused :
  exists obj,
    JsonText.parse Spec.record_system_message = Some obj /\
    Spec.session_as_specified obj = true /\
    SessionManager.isValidSession obj = false.
Proof. eexists. repeat split; vm_compute; reflexivity. Qed.

(** C8 on a folder with a valid record and a record without
    [updatedAt]: one session is loaded. *)
Lemma C8_load_validated_witness :
  exists m',
    SessionManager.loadSessions JsonText.parse Spec.memory_vault Spec.default_settings
      SessionManager.new
      (Spec.folder [(".claude-sessions/session-2.json", Spec.record_without_updatedAt);
                    (".claude-sessions/session-1.json", Spec.record_valid)])
    = (Normal m',
       Spec.folder [(".claude-sessions/session-2.json", Spec.record_without_updatedAt);
                    (".claude-sessions/session-1.json", Spec.record_valid)]) /\
    size (SessionManager.sessions m') = 1%nat.
Proof.
  destruct (C8_load_validated JsonText.parse Spec.memory_vault Spec.default_settings)
    as (_ & _ & _ & Hscenario).
  destruct (JsonText.parse Spec.record_valid) as [good|] eqn:Hgood;
    [|vm_compute in Hgood; discriminate Hgood].
  destruct (JsonText.parse Spec.record_without_updatedAt) as [bad|] eqn:Hbad;
    [|vm_compute in Hbad; discriminate Hbad].
  destruct (Hscenario
    (Spec.folder [(".claude-sessions/session-2.json", Spec.record_without_updatedAt);
                  (".claude-sessions/session-1.json", Spec.record_valid)])
    [".claude-sessions/session-2.json"; ".claude-sessions/session-1.json"]
    ".claude-sessions/session-1.json" ".claude-sessions/session-2.json"
    Spec.record_valid Spec.record_without_updatedAt good bad)
    as (m' & Hload & Hsize & _); try reflexivity; try assumption.
  - right. reflexivity.
  - vm_compute in Hgood. injection Hgood as <-. vm_compute. reflexivity.
  - vm_compute in Hbad. injection Hbad as <-. vm_compute. reflexivity.
  - exists m'. split; [exact Hload|exact Hsize].
Defined.

(** ** Trimming *)
Section Trim.

Lemma trimEnd_idemp s : trimEnd (trimEnd s) = trimEnd s.
Proof.
  induction s as [|c s IH]; [reflexivity|].
  cbn [trimEnd].
  destruct (isWhiteSpace c && String.eqb (trimEnd s) "") eqn:E; [reflexivity|].
  cbn [trimEnd]. rewrite IH, E. reflexivity.
Qed.

(** [trimEnd] keeps a first character that is not white space. *)
Lemma trimStart_trimEnd_head c s :
  isWhiteSpace c = false -> trimStart (trimEnd (String c s)) = trimEnd (String c s).
Proof. intros Hc. cbn [trimEnd]. rewrite Hc. cbn [andb trimStart]. now rewrite Hc. Qed.

Lemma trimStart_fixed s :
  trimStart (trimEnd (trimStart s)) = trimEnd (trimStart s).
Proof.
  induction s as [|c s IH]; [reflexivity|].
  cbn [trimStart]. destruct (isWhiteSpace c) eqn:Hc; [exact IH|].
  now apply trimStart_trimEnd_head.
Qed.

Lemma trim_idemp s : trim (trim s) = trim s.
Proof. unfold trim. now rewrite trimStart_fixed, trimEnd_idemp. Qed.

Lemma trim_blank s : Spec.blank s = true -> trim s = "".
Proof.
  unfold Spec.blank, trim. induction s as [|c s IH]; [reflexivity|].
  cbn [list_ascii_of_string forallb trimStart].
  intros [Hc Hs]%andb_true_iff. rewrite Hc. auto.
Qed.

End Trim.

(** ** The stream parser *)
Section Parser.

Import MessageParser.

Variable JSON_parse : string -> option json.

Local Abbreviation parseLine := (parseLine JSON_parse).

Lemma parseLine_blank line tools :
  trim line = "" -> parseLine line tools = (Normal None, tools).
Proof. intros H. unfold MessageParser.parseLine. rewrite H. reflexivity. Qed.

Lemma parseLine_returns line tools :
  exists result tools', parseLine line tools = (Normal result, tools').
Proof.
  unfold MessageParser.parseLine.
  destruct (negb (truthy (Some (JStr (trim line))))); [unfold ret; eauto|].
  unfold try_catch, ret.
  match goal with |- context [match ?body tools with _ => _ end] =>
    destruct (body tools) as [[result|e] tools'] end; eauto.
Qed.

Lemma parseLine_malformed line tools :
  JSON_parse (trim line) = None -> parseLine line tools = (Normal None, tools).
Proof.
  intros H. unfold MessageParser.parseLine, try_catch, bind, lift, ret.
  rewrite H. destruct (negb _); reflexivity.
Qed.

(** C6.  [parseLine] returns for every line and every state of the
    parser, it never throws; it returns [null], no event, for a line of
    white space only and for a line that does not decode, leaving the
    parser as it was; and it treats a line as it treats the line without
    its leading and trailing white space. *)
Theorem C6_parseLine_total (line : string) (tools : activeToolCalls) :
  (exists result tools', parseLine line tools = (Normal result, tools')) /\
  (Spec.blank line = true ->
     parseLine line tools = (Normal None, tools) /\
     Spec.events (fst (parseLine line tools)) = []) /\
  parseLine line tools = parseLine (trim line) tools /\
  (JSON_parse (trim line) = None ->
     parseLine line tools = (Normal None, tools) /\
     Spec.events (fst (parseLine line tools)) = []).
Proof.
  split; [apply parseLine_returns|]. split; [|split].
  - intros Hblank%trim_blank. now rewrite parseLine_blank.
  - unfold MessageParser.parseLine. now rewrite trim_idemp.
  - intros Hbad. now rewrite parseLine_malformed.
Qed.

End Parser.

(** C6 on a blank line, a padded line and a line cut short. *)
Lemma C6_parseLine_total_witness :
  MessageParser.parseLine JsonText.parse (String " " (String LF "")) [] = (Normal None, []) /\
  MessageParser.parseLine JsonText.parse (JsonText.quoted "  {'type':'result','result':'ok'} ") []
  = MessageParser.parseLine JsonText.parse (JsonText.quoted "{'type':'result','result':'ok'}") [] /\
  MessageParser.parseLine JsonText.parse (JsonText.quoted "{'type':'result','resu") []
  = (Normal None, []).
Proof.
  split; [|split].
  - apply (C6_parseLine_total JsonText.parse (String " " (String LF "")) []). reflexivity.
  - destruct (C6_parseLine_total JsonText.parse
                (JsonText.quoted "  {'type':'result','result':'ok'} ") [])
      as (_ & _ & Htrim & _).
    rewrite Htrim. reflexivity.
  - apply (C6_parseLine_total JsonText.parse
             (JsonText.quoted "{'type':'result','resu") []). reflexivity.
Defined.

(** ** Content blocks and the tool-call table *)
Section Blocks.

Import MessageParser.

Implicit Types (block raw : json) (tools : activeToolCalls)
  (acc : list Msg.ClaudeStreamMessage).

Lemma get_readable block k tools :
  Spec.readable block = true -> get block k tools = (Normal (own block k), tools).
Proof. destruct block; [discriminate|reflexivity..]. Qed.

Lemma for_of_app {S A B} (body : B -> A -> M S B) xs ys :
  forall (b : B) (s : S),
    for_of body b (xs ++ ys) s =
    bind (for_of body b xs) (fun b' => for_of body b' ys) s.
Proof.
  unfold bind. induction xs as [|x xs IH]; intros b s; cbn [for_of app].
  - reflexivity.
  - unfold bind. destruct (body b x s) as [[b'|e] s']; [|reflexivity].
    apply IH.
Qed.

(** A readable block of an [assistant] record adds events and at most
    one entry, under the block's id. *)
Lemma assistantBlock_step session_id baseMsg acc block tools :
  Spec.readable block = true ->
  exists evs tools',
    assistantBlock session_id baseMsg acc block tools = (Normal (acc ++ evs), tools') /\
    (tools' = tools \/
     exists i e, own block "id" = Some i /\ tools' = Map_set i e tools).
Proof.
  intros Hread. unfold assistantBlock, bind. rewrite (get_readable _ _ _ Hread).
  destruct (strict_eq_str (own block "type") "thinking" && _).
  { eexists _, _. split; [reflexivity|now left]. }
  destruct (strict_eq_str (own block "type") "text" && _).
  { eexists _, _. split; [reflexivity|now left]. }
  destruct (strict_eq_str (own block "type") "tool_use").
  2:{ exists [], tools. rewrite app_nil_r. split; [reflexivity|now left]. }
  unfold track.
  destruct (own block "id") as [i|]; [|eexists _, _; split; [reflexivity|now left]].
  destruct (own block "name") as [n|]; [|eexists _, _; split; [reflexivity|now left]].
  destruct (truthy (Some i) && truthy (Some n)).
  - eexists _, _. split; [reflexivity|]. right. eauto.
  - eexists _, _. split; [reflexivity|now left].
Qed.

(** A [tool_use] block with an id and a name. *)
Lemma assistantBlock_tool_use session_id baseMsg acc block tools i n :
  own block "type" = Some (JStr "tool_use") ->
  own block "id" = Some i -> truthy (Some i) = true ->
  own block "name" = Some n -> truthy (Some n) = true ->
  assistantBlock session_id baseMsg acc block tools =
  (Normal (acc ++ [Spec.tool_call_event session_id block]),
   Map_set i {| name := n; input := or_empty_object (own block "input") |} tools).
Proof.
  intros Hty Hid Hi Hname Hn.
  assert (Hread : Spec.readable block = true) by (destruct block; [discriminate|reflexivity..]).
  unfold assistantBlock, bind, Spec.tool_call_event.
  rewrite (get_readable _ _ _ Hread), Hty.
  cbn [strict_eq_str String.eqb Ascii.eqb Bool.eqb andb].
  unfold track. rewrite Hid, Hname, Hi, Hn. reflexivity.
Qed.

Lemma assistant_others session_id baseMsg k blocks :
  forallb Spec.readable blocks = true ->
  Forall (fun block => own block "id" <> Some k) blocks ->
  forall acc tools,
  exists evs tools',
    for_of (assistantBlock session_id baseMsg) acc blocks tools
    = (Normal (acc ++ evs), tools') /\
    Map_get k tools' = Map_get k tools.
Proof.
  induction blocks as [|block blocks IH]; intros Hread Hother acc tools.
  - exists [], tools. rewrite app_nil_r. split; reflexivity.
  - cbn [forallb] in Hread. apply andb_true_iff in Hread as [Hb Hbs].
    inversion Hother as [|? ? Hk Hrest]; subst.
    destruct (assistantBlock_step session_id baseMsg acc block tools Hb)
      as (evs & tools1 & Hstep & Htable).
    destruct (IH Hbs Hrest (acc ++ evs) tools1) as (evs' & tools2 & Hfor & Hget).
    exists (evs ++ evs'), tools2. cbn [for_of]. unfold bind. rewrite Hstep, Hfor.
    rewrite app_assoc. split; [reflexivity|]. rewrite Hget.
    destruct Htable as [->|(i & e & Hi & ->)]; [reflexivity|].
    apply Map_get_set_other. congruence.
Qed.

Lemma assistant_any session_id baseMsg blocks :
  forallb Spec.readable blocks = true ->
  forall acc tools,
  exists evs tools',
    for_of (assistantBlock session_id baseMsg) acc blocks tools
    = (Normal (acc ++ evs), tools').
Proof.
  induction blocks as [|block blocks IH]; intros Hread acc tools.
  - exists [], tools. now rewrite app_nil_r.
  - cbn [forallb] in Hread. apply andb_true_iff in Hread as [Hb Hbs].
    destruct (assistantBlock_step session_id baseMsg acc block tools Hb)
      as (evs & tools1 & Hstep & _).
    destruct (IH Hbs (acc ++ evs) tools1) as (evs' & tools2 & Hfor).
    exists (evs ++ evs'), tools2. cbn [for_of]. unfold bind.
    now rewrite Hstep, Hfor, app_assoc.
Qed.

(** A readable block of a [user] record either is passed over or is a
    [tool_result] with a call id: it then adds one event, filled from the
    table, and leaves no entry under that id. *)
Lemma userBlock_step raw acc block tools :
  Spec.readable block = true ->
  (Spec.is_tool_result block = false /\
   userBlock raw acc block tools = (Normal acc, tools)) \/
  (Spec.is_tool_result block = true /\
   exists tid, own block "tool_use_id" = Some tid /\
     userBlock raw acc block tools =
     (Normal (acc ++ [Spec.tool_result_event raw block (Map_get tid tools)]),
      Map_delete tid tools)).
Proof.
  intros Hread. unfold userBlock, bind, Spec.is_tool_result.
  rewrite (get_readable _ _ _ Hread).
  destruct (own block "tool_use_id") as [tid|] eqn:Htid.
  - destruct (strict_eq_str (own block "type") "tool_result" && truthy (Some tid)) eqn:E.
    + right. split; [reflexivity|]. exists tid. split; [reflexivity|].
      unfold Spec.tool_result_event. rewrite Htid. reflexivity.
    + left. split; reflexivity.
  - left. split; [apply andb_false_r|reflexivity].
Qed.

Lemma user_none raw blocks :
  forallb Spec.readable blocks = true ->
  forallb (fun block => negb (Spec.is_tool_result block)) blocks = true ->
  forall acc tools, for_of (userBlock raw) acc blocks tools = (Normal acc, tools).
Proof.
  induction blocks as [|block blocks IH]; intros Hread Hnone acc tools; [reflexivity|].
  cbn [forallb] in Hread, Hnone.
  apply andb_true_iff in Hread as [Hb Hbs].
  apply andb_true_iff in Hnone as [Hn Hns]. apply negb_true_iff in Hn.
  cbn [for_of]. unfold bind.
  destruct (userBlock_step raw acc block tools Hb) as [[_ ->]|[Hyes _]].
  - now apply IH.
  - congruence.
Qed.

Lemma user_others raw k blocks :
  forallb Spec.readable blocks = true ->
  Forall (fun block => own block "tool_use_id" <> Some k) blocks ->
  forall acc tools,
  exists evs tools',
    for_of (userBlock raw) acc blocks tools = (Normal (acc ++ evs), tools') /\
    Map_get k tools' = Map_get k tools /\
    Forall (fun ev => Msg.id ev <> Some k) evs.
Proof.
  induction blocks as [|block blocks IH]; intros Hread Hother acc tools.
  - exists [], tools. rewrite app_nil_r. repeat split. constructor.
  - cbn [forallb] in Hread. apply andb_true_iff in Hread as [Hb Hbs].
    inversion Hother as [|? ? Hk Hrest]; subst.
    cbn [for_of]. unfold bind.
    destruct (userBlock_step raw acc block tools Hb)
      as [[_ ->]|[_ (tid & Htid & ->)]].
    + apply IH; assumption.
    + destruct (IH Hbs Hrest
                  (acc ++ [Spec.tool_result_event raw block (Map_get tid tools)])
                  (Map_delete tid tools)) as (evs & tools' & Hfor & Hget & Hids).
      eexists (_ :: evs), tools'. rewrite Hfor, <- app_assoc.
      split; [reflexivity|]. split.
      * rewrite Hget. apply Map_get_delete_other. congruence.
      * constructor; [|exact Hids]. cbn [Spec.tool_result_event Msg.id]. exact Hk.
Qed.

End Blocks.

(** ** Records *)
Section Records.

Import MessageParser.

Variable JSON_parse : string -> option json.

Local Abbreviation parseLine := (parseLine JSON_parse).

Lemma own_readable raw k v : own raw k = Some v -> Spec.readable raw = true.
Proof. destruct raw; try discriminate. reflexivity. Qed.

Lemma content_blocks_inv raw blocks :
  Spec.content_blocks raw = Some blocks ->
  prop_opt (own raw "message") "content" = Some (JArr blocks) /\
  forallb Spec.readable blocks = true.
Proof.
  unfold Spec.content_blocks.
  destruct (prop_opt (own raw "message") "content") as [[| | | |items|]|];
    try discriminate.
  destruct (forallb Spec.readable items) eqn:E; [|discriminate].
  intros [= <-]. split; [reflexivity|exact E].
Qed.

(** A line that decodes to a record the parser normalizes. *)
Lemma parseLine_decoded line raw tools evs tools' :
  trim line <> "" ->
  JSON_parse (trim line) = Some raw ->
  normalizeMessage raw tools = (Normal evs, tools') ->
  parseLine line tools = (Normal (Some evs), tools').
Proof.
  intros Hne%truthy_str Hparse Hnorm.
  unfold MessageParser.parseLine. rewrite Hne. cbn [negb].
  unfold try_catch, bind, lift, ret. rewrite Hparse.
  destruct raw; try (cbn [get lift prop own]; rewrite Hnorm; reflexivity).
  discriminate Hnorm.
Qed.

Lemma normalize_assistant raw blocks tools evs tools' :
  own raw "type" = Some (JStr "assistant") ->
  prop_opt (own raw "message") "content" = Some (JArr blocks) ->
  for_of (assistantBlock (own raw "session_id")
            (Msg.bare (own raw "type") (own raw "session_id"))) [] blocks tools
  = (Normal evs, tools') ->
  evs <> [] ->
  normalizeMessage raw tools = (Normal evs, tools').
Proof.
  intros Hty Hcontent Hfor Hne.
  pose proof (own_readable _ _ _ Hty) as Hread.
  assert (Hs : strict_eq_str (own raw "type") "assistant" = true)
    by (rewrite Hty; reflexivity).
  unfold normalizeMessage, bind. rewrite !(get_readable _ _ _ Hread).
  rewrite Hcontent, Hs.
  cbn [andb truthy iterate lift].
  rewrite Hfor. destruct evs; [contradiction|reflexivity].
Qed.

Lemma normalize_user raw blocks tools evs tools' :
  own raw "type" = Some (JStr "user") ->
  prop_opt (own raw "message") "content" = Some (JArr blocks) ->
  for_of (userBlock raw) [] blocks tools = (Normal evs, tools') ->
  normalizeMessage raw tools =
  (Normal (match evs with
           | [] => [Msg.bare (Some (JStr "user")) (own raw "session_id")]
           | _ => evs
           end), tools').
Proof.
  intros Hty Hcontent Hfor.
  pose proof (own_readable _ _ _ Hty) as Hread.
  unfold normalizeMessage, bind. rewrite !(get_readable _ _ _ Hread).
  rewrite Hcontent, Hty.
  cbn [strict_eq_str String.eqb Ascii.eqb Bool.eqb andb truthy iterate lift].
  rewrite Hfor. destruct evs; reflexivity.
Qed.

(** C5, as the code has it.  A line that decodes to a [user] record whose
    content blocks hold no [tool_result] block with a call id yields
    exactly one event, the bare one: the discriminator [user] and the
    session id of the record; the table of tool calls is left as it was. *)
Theorem C5_user_without_match (line : string) (raw : json) (blocks : list json)
    (tools : activeToolCalls) :
  trim line <> "" ->
  JSON_parse (trim line) = Some raw ->
  own raw "type" = Some (JStr "user") ->
  Spec.content_blocks raw = Some blocks ->
  forallb (fun block => negb (Spec.is_tool_result block)) blocks = true ->
  parseLine line tools =
  (Normal (Some [Msg.bare (Some (JStr "user")) (own raw "session_id")]), tools).
Proof.
  intros Hne Hparse Hty [Hcontent Hread]%content_blocks_inv Hnone.
  apply (parseLine_decoded line raw); [assumption..|].
  rewrite (normalize_user raw blocks tools [] tools Hty Hcontent); [reflexivity|].
  now apply user_none.
Qed.

(** C2.  A line that decodes to an [assistant] record with a [tool_use]
    block carrying a call id and a name, the last block of the record under
    that id, yields the tool-call event of the block and leaves in the table,
    under the id, the name of the block and its input (the empty object when
    the block has none).  A line parsed after it, while the entry is still
    in the table, that decodes to a [user] record with one [tool_result]
    block for that id yields one tool-result event for it, carrying that
    name and that input, and leaves no entry under the id. *)
Theorem C2_tool_call_correlation
    (line1 line2 : string) (raw1 raw2 : json)
    (pre post pre2 post2 : list json) (block result : json)
    (id : string) (n : json) (tools : activeToolCalls) :
  trim line1 <> "" -> JSON_parse (trim line1) = Some raw1 ->
  own raw1 "type" = Some (JStr "assistant") ->
  Spec.content_blocks raw1 = Some (pre ++ block :: post) ->
  own block "type" = Some (JStr "tool_use") ->
  own block "id" = Some (JStr id) -> id <> "" ->
  own block "name" = Some n -> truthy (Some n) = true ->
  Forall (fun later => own later "id" <> Some (JStr id)) post ->
  trim line2 <> "" -> JSON_parse (trim line2) = Some raw2 ->
  own raw2 "type" = Some (JStr "user") ->
  Spec.content_blocks raw2 = Some (pre2 ++ result :: post2) ->
  own result "type" = Some (JStr "tool_result") ->
  own result "tool_use_id" = Some (JStr id) ->
  Forall (fun other => own other "tool_use_id" <> Some (JStr id)) (pre2 ++ post2) ->
  let entry := {| name := n; input := or_empty_object (own block "input") |} in
  exists events tools1,
    parseLine line1 tools = (Normal (Some events), tools1) /\
    In (Spec.tool_call_event (own raw1 "session_id") block) events /\
    Map_get (JStr id) tools1 = Some entry /\
    (forall fields, own block "input" = Some (JObj fields) -> input entry = JObj fields) /\
    forall later,
      Map_get (JStr id) later = Some entry ->
      exists before ev after tools2,
        parseLine line2 later = (Normal (Some (before ++ ev :: after)), tools2) /\
        ev = Spec.tool_result_event raw2 result (Some entry) /\
        Msg.type ev = Some (JStr "tool_result") /\
        Msg.id ev = Some (JStr id) /\
        Msg.name ev = Some (name entry) /\
        Msg.input ev = Some (input entry) /\
        Forall (fun other => Msg.id other <> Some (JStr id)) (before ++ after) /\
        Map_get (JStr id) tools2 = None.
Proof.
  intros Hne1 Hparse1 Hty1 [Hcontent1 Hread1]%content_blocks_inv
    Hbty Hbid Hid Hbname Hn Hpost
    Hne2 Hparse2 Hty2 [Hcontent2 Hread2]%content_blocks_inv
    Hrty Hrid Hothers entry.
  assert (Hi : truthy (Some (JStr id)) = true) by now apply truthy_str.
  (* the assistant record *)
  rewrite forallb_app in Hread1. apply andb_true_iff in Hread1 as [Hrpre Hrpost].
  cbn [forallb] in Hrpost. apply andb_true_iff in Hrpost as [_ Hrpost].
  set (sid := own raw1 "session_id") in *.
  set (base := Msg.bare (own raw1 "type") sid).
  destruct (assistant_any sid base pre Hrpre [] tools) as (evs0 & t0 & Hfor0).
  pose proof (assistantBlock_tool_use sid base ([] ++ evs0) block t0 (JStr id) n
                Hbty Hbid Hi Hbname Hn) as Hstep.
  destruct (assistant_others sid base (JStr id) post Hrpost Hpost
              (([] ++ evs0) ++ [Spec.tool_call_event sid block])
              (Map_set (JStr id) entry t0)) as (evs1 & tools1 & Hfor1 & Hget1).
  assert (Hfor : for_of (assistantBlock sid base) [] (pre ++ block :: post) tools
                 = (Normal ((([] ++ evs0) ++ [Spec.tool_call_event sid block]) ++ evs1),
                    tools1)).
  { rewrite for_of_app. unfold bind. rewrite Hfor0. cbn [for_of]. unfold bind.
    fold entry in Hstep. rewrite Hstep. exact Hfor1. }
  exists ((([] ++ evs0) ++ [Spec.tool_call_event sid block]) ++ evs1), tools1.
  split.
  { apply (parseLine_decoded line1 raw1); [assumption..|].
    apply (normalize_assistant raw1 (pre ++ block :: post)); [assumption..|].
    intros Hnil. apply app_eq_nil in Hnil as [Hnil _].
    apply app_eq_nil in Hnil as [_ Hnil]. discriminate Hnil. }
  split. { apply in_or_app. left. apply in_or_app. right. now left. }
  split. { rewrite Hget1. apply Map_get_set_same, sameValueZero_str. }
  split. { intros fields Hin. cbn [entry input]. rewrite Hin. reflexivity. }
  (* the user record *)
  intros later Hentry.
  rewrite forallb_app in Hread2. apply andb_true_iff in Hread2 as [Hrpre2 Hrpost2].
  cbn [forallb] in Hrpost2. apply andb_true_iff in Hrpost2 as [Hrres Hrpost2].
  apply Forall_app in Hothers as [Hpre2 Hpost2].
  destruct (user_others raw2 (JStr id) pre2 Hrpre2 Hpre2 [] later)
    as (before & t2 & Hforb & Hgetb & Hidsb).
  assert (Hres : userBlock raw2 ([] ++ before) result t2 =
                 (Normal (([] ++ before) ++ [Spec.tool_result_event raw2 result (Some entry)]),
                  Map_delete (JStr id) t2)).
  { destruct (userBlock_step raw2 ([] ++ before) result t2 Hrres)
      as [[Hno _]|[_ (tid & Htid & ->)]].
    - unfold Spec.is_tool_result in Hno. rewrite Hrty, Hrid, Hi in Hno. discriminate Hno.
    - rewrite Hrid in Htid. injection Htid as <-. rewrite Hgetb, Hentry. reflexivity. }
  destruct (user_others raw2 (JStr id) post2 Hrpost2 Hpost2
              (([] ++ before) ++ [Spec.tool_result_event raw2 result (Some entry)])
              (Map_delete (JStr id) t2)) as (after & tools2 & Hfora & Hgeta & Hidsa).
  assert (Hfor2 : for_of (userBlock raw2) [] (pre2 ++ result :: post2) later
                  = (Normal (before ++ Spec.tool_result_event raw2 result (Some entry) :: after),
                     tools2)).
  { rewrite for_of_app. unfold bind. rewrite Hforb. cbn [for_of]. unfold bind.
    rewrite Hres, Hfora. cbn [app]. rewrite <- app_assoc. reflexivity. }
  exists before, (Spec.tool_result_event raw2 result (Some entry)), after, tools2.
  split.
  { apply (parseLine_decoded line2 raw2); [assumption..|].
    rewrite (normalize_user raw2 (pre2 ++ result :: post2) later _ tools2 Hty2 Hcontent2 Hfor2).
    destruct before; reflexivity. }
  split; [reflexivity|]. split; [reflexivity|].
  split; [cbn [Spec.tool_result_event Msg.id]; exact Hrid|].
  split; [reflexivity|]. split; [reflexivity|].
  split; [apply Forall_app; split; assumption|].
  rewrite Hgeta. apply Map_get_delete_same.
Qed.

End Records.

(** C5 as stated fails: a [user] record that only echoes a text block
    has no [tool_result] block, and parsing it yields one event. *)
Lemma C5_counterexample :
  exists raw blocks,
    JsonText.parse Spec.line_user_echo = Some raw /\
    own raw "type" = Some (JStr "user") /\
    Spec.content_blocks raw = Some blocks /\
    forallb (fun block => negb (Spec.is_tool_result block)) blocks = true /\
    Spec.events (fst (MessageParser.parseLine JsonText.parse Spec.line_user_echo []))
    = [Msg.bare (Some (JStr "user")) (Some (JStr "s1"))].
Proof.
  exists (Spec.record_of "user" [Spec.block_echo]), [Spec.block_echo].
  repeat split; vm_compute; reflexivity.
Qed.

(** C5 on the echoed text block. *)
Lemma C5_user_without_match_witness :
  MessageParser.parseLine JsonText.parse Spec.line_user_echo []
  = (Normal (Some [Msg.bare (Some (JStr "user")) (Some (JStr "s1"))]), []).
Proof.
  apply (C5_user_without_match JsonText.parse Spec.line_user_echo
           (Spec.record_of "user" [Spec.block_echo]) [Spec.block_echo] []).
  - vm_compute. discriminate.
  - vm_compute. reflexivity.
  - reflexivity.
  - reflexivity.
  - reflexivity.
Defined.

(** C2 on the call [t1] of the tool [Read] and its result. *)
Lemma C2_tool_call_correlation_witness :
  exists events tools1 before ev after tools2,
    MessageParser.parseLine JsonText.parse Spec.line_tool_use []
    = (Normal (Some events), tools1) /\
    In (Spec.tool_call_event (Some (JStr "s1")) Spec.block_tool_use) events /\
    MessageParser.parseLine JsonText.parse Spec.line_tool_result tools1
    = (Normal (Some (before ++ ev :: after)), tools2) /\
    Msg.name ev = Some (JStr "Read") /\
    Msg.input ev = Some (JObj [("file_path", JStr "a.md")]) /\
    Msg.output ev = Some (JStr "contents") /\
    Map_get (JStr "t1") tools2 = None.
Proof.
  destruct (C2_tool_call_correlation JsonText.parse
              Spec.line_tool_use Spec.line_tool_result
              (Spec.record_of "assistant" [Spec.block_text; Spec.block_tool_use])
              (Spec.record_of "user" [Spec.block_tool_result])
              [Spec.block_text] [] [] [] Spec.block_tool_use Spec.block_tool_result
              "t1" (JStr "Read") [])
    as (events & tools1 & Hcall & Hin & Hentry & _ & Hlater).
  - vm_compute. discriminate.
  - vm_compute. reflexivity.
  - reflexivity.
  - reflexivity.
  - reflexivity.
  - reflexivity.
  - discriminate.
  - reflexivity.
  - reflexivity.
  - constructor.
  - vm_compute. discriminate.
  - vm_compute. reflexivity.
  - reflexivity.
  - reflexivity.
  - reflexivity.
  - reflexivity.
  - constructor.
  - destruct (Hlater tools1 Hentry)
      as (before & ev & after & tools2 &
          Hresult & Hev & _ & _ & Hname & Hinput & _ & Hgone).
    exists events, tools1, before, ev, after, tools2.
    split; [exact Hcall|]. split; [exact Hin|]. split; [exact Hresult|].
    split; [exact Hname|]. split; [exact Hinput|].
    split; [rewrite Hev; reflexivity|exact Hgone].
Defined.

(** ** The session id of a run *)
Section SessionId.

Import ClaudeCliService.

Variable JSON_parse : string -> option json.

Lemma last_session_id_snoc ms m :
  Spec.last_session_id (ms ++ [m]) =
  if truthy (Msg.session_id m) then Msg.session_id m else Spec.last_session_id ms.
Proof. unfold Spec.last_session_id. rewrite rev_app_distr. reflexivity. Qed.

Lemma onParsed_sessionId r parsed :
  sessionId (onParsed r parsed) =
  if truthy (Msg.session_id parsed) then Msg.session_id parsed else sessionId r.
Proof.
  unfold onParsed. rewrite !take_content_sessionId.
  destruct (truthy (Msg.session_id parsed)); reflexivity.
Qed.

Lemma onParsed_last r parsed :
  Spec.session_id_is_last r -> Spec.session_id_is_last (onParsed r parsed).
Proof.
  unfold Spec.session_id_is_last. intros Hr.
  rewrite onParsed_sessionId, onParsed_messages, last_session_id_snoc, Hr.
  reflexivity.
Qed.

Lemma fold_onParsed_last ms :
  forall r, Spec.session_id_is_last r ->
            Spec.session_id_is_last (fold_left onParsed ms r).
Proof.
  induction ms as [|m ms IH]; intros r Hr; [exact Hr|].
  cbn [fold_left]. apply IH, onParsed_last, Hr.
Qed.

Lemma onLine_last st line :
  Spec.session_id_is_last (snd st) ->
  Spec.session_id_is_last (snd (onLine JSON_parse st line)).
Proof.
  intros Hst. unfold onLine. destruct (negb _); [exact Hst|].
  destruct st as [s r]. rewrite parseWith_unfold. cbn [snd].
  apply fold_onParsed_last, Hst.
Qed.

Lemma fold_onLine_last lines :
  forall st, Spec.session_id_is_last (snd st) ->
             Spec.session_id_is_last (snd (fold_left (onLine JSON_parse) lines st)).
Proof.
  induction lines as [|line lines IH]; intros st Hst; [exact Hst|].
  cbn [fold_left]. apply IH, onLine_last, Hst.
Qed.

Lemma onLine_frame st line :
  Spec.same_frame (snd st) (snd (onLine JSON_parse st line)).
Proof.
  unfold onLine. destruct (negb _); [apply same_frame_refl|].
  destruct st as [s r]. rewrite parseWith_unfold. cbn [snd].
  apply fold_frame, onParsed_frame.
Qed.

Lemma fold_onLine_frame lines :
  forall st, Spec.same_frame (snd st) (snd (fold_left (onLine JSON_parse) lines st)).
Proof.
  induction lines as [|line lines IH]; intros st; [apply same_frame_refl|].
  cbn [fold_left]. eapply same_frame_trans; [apply onLine_frame|apply IH].
Qed.

(** While the process streams, the promise stays pending and the session
    id stays the last non-empty one. *)
Lemma step_streams st e :
  Spec.streams e = true ->
  settled (snd st) = None -> Spec.session_id_is_last (snd st) ->
  settled (snd (step JSON_parse st e)) = None /\
  Spec.session_id_is_last (snd (step JSON_parse st e)).
Proof.
  intros He Hpending Hlast. destruct st as [s r].
  destruct e as [data|data|code|err| |]; try discriminate He; cbn [step snd fst].
  - unfold onStdout. split.
    + destruct (fold_onLine_frame
                  (removelast (split_lines (buffer r +:+ data)))
                  (s, set_buffer (List.last (split_lines (buffer r +:+ data)) "") r))
        as (_ & _ & _ & Hs).
      rewrite Hs. exact Hpending.
    + apply fold_onLine_last. exact Hlast.
  - split; assumption.
  - unfold onTimeout. destruct (timeout r); split; assumption.
  - split; assumption.
Qed.

Lemma steps_streams es :
  forallb Spec.streams es = true ->
  forall st,
    settled (snd st) = None -> Spec.session_id_is_last (snd st) ->
    settled (snd (steps JSON_parse st es)) = None /\
    Spec.session_id_is_last (snd (steps JSON_parse st es)).
Proof.
  unfold steps. induction es as [|e es IH]; intros Hes st Hpending Hlast.
  - split; assumption.
  - cbn [forallb] in Hes. apply andb_true_iff in Hes as [He Hes].
    cbn [fold_left].
    destruct (step_streams st e He Hpending Hlast) as [Hp Hl]. now apply IH.
Qed.

Lemma flush_sessionId st :
  sessionId (snd (flush JSON_parse st)) = sessionId (snd st).
Proof.
  unfold flush. destruct st as [s r]. cbn [snd].
  destruct (truthy _); [|reflexivity].
  rewrite parseWith_unfold. cbn [snd].
  generalize (Spec.events (fst (MessageParser.parseLine JSON_parse (buffer r) (parser s)))).
  intros ms. revert r. induction ms as [|m ms IH]; intros r; [reflexivity|].
  cbn [fold_left]. rewrite IH. unfold onParsedLast.
  now rewrite take_content_sessionId.
Qed.

(** C3, as the code has it.  While the process streams, the session id of
    the run is the last non-empty session id carried by the events parsed
    so far, so a later event with another non-empty id replaces it.  When
    the process then closes, a successful outcome records that id (the
    events of the last buffer do not change it) and a failed outcome
    records none. *)
Theorem C3_session_id (child : ChildProcess) (s : Service)
    (es : list Event) (code : option Z) :
  forallb Spec.streams es = true ->
  let st := steps JSON_parse (execute child s) es in
  sessionId (snd st) = Spec.last_session_id (messages (snd st)) /\
  (forall parsed,
     truthy (Msg.session_id parsed) = true ->
     sessionId (onParsed (snd st) parsed) = Msg.session_id parsed) /\
  exists o,
    settled (snd (step JSON_parse st (Close code))) = Some (Resolved o) /\
    (ExecutionResult.success o = true ->
       ExecutionResult.sessionId o = Spec.last_session_id (messages (snd st))) /\
    (ExecutionResult.success o = false -> ExecutionResult.sessionId o = None).
Proof.
  intros Hes st.
  destruct (steps_streams es Hes (execute child s) eq_refl eq_refl) as [Hpending Hlast].
  fold st in Hpending, Hlast. split; [exact Hlast|]. split.
  { intros parsed Hsid. now rewrite onParsed_sessionId, Hsid. }
  destruct st as [s' r']. cbn [snd] in *. cbn [step].
  eexists. split; [apply onClose_settled, Hpending|].
  unfold result_of. destruct (_ || _); cbn [ExecutionResult.success ExecutionResult.sessionId].
  - split; [|discriminate]. intros _. rewrite flush_sessionId. exact Hlast.
  - split; [discriminate|reflexivity].
Qed.

End SessionId.

(** C3 as stated fails: of two events with the session ids [s1] and
    [s2], the outcome records the second. *)
Lemma C3_counterexample :
  match
    ClaudeCliService.settled
      (snd (ClaudeCliService.steps JsonText.parse
              (ClaudeCliService.execute Spec.a_child ClaudeCliService.new)
              [ClaudeCliService.StdoutData Spec.line_first_session;
               ClaudeCliService.StdoutData Spec.line_second_session;
               ClaudeCliService.Close (Some 0)]))
  with
  | Some (ClaudeCliService.Resolved o) =>
      Spec.first_session_id (ExecutionResult.messages o) = Some (JStr "s1") /\
      ExecutionResult.sessionId o = Some (JStr "s2")
  | _ => False
  end.
Proof. vm_compute. split; reflexivity. Qed.

(** C3 on the same two events. *)
Lemma C3_session_id_witness :
  exists o,
    ClaudeCliService.settled
      (snd (ClaudeCliService.step JsonText.parse
              (ClaudeCliService.steps JsonText.parse
                 (ClaudeCliService.execute Spec.a_child ClaudeCliService.new)
                 [ClaudeCliService.StdoutData Spec.line_first_session;
                  ClaudeCliService.StdoutData Spec.line_second_session])
              (ClaudeCliService.Close (Some 0))))
    = Some (ClaudeCliService.Resolved o) /\
    (ExecutionResult.success o = true ->
     ExecutionResult.sessionId o = Some (JStr "s2")).
Proof.
  destruct (C3_session_id JsonText.parse Spec.a_child ClaudeCliService.new
              [ClaudeCliService.StdoutData Spec.line_first_session;
               ClaudeCliService.StdoutData Spec.line_second_session]
              (Some 0) eq_refl) as (_ & _ & o & Ho & Hsuccess & _).
  exists o. split; [exact Ho|]. intros Hs. rewrite (Hsuccess Hs).
  vm_compute. reflexivity.
Defined.

(** ** Abort and timeout *)
Section Termination.

Import ClaudeCliService.

Variable JSON_parse : string -> option json.

(** The last parse only looks at the parser and at the run. *)
Lemma flush_service s1 s2 r :
  parser s1 = parser s2 ->
  snd (flush JSON_parse (s1, r)) = snd (flush JSON_parse (s2, r)).
Proof.
  intros Hparser. unfold flush. cbn [snd].
  destruct (truthy _); [|reflexivity].
  rewrite !parseWith_unfold. cbn [snd]. now rewrite Hparser.
Qed.

Lemma onClose_service code s1 s2 r :
  parser s1 = parser s2 ->
  snd (onClose JSON_parse code (s1, r)) = snd (onClose JSON_parse code (s2, r)).
Proof.
  intros Hparser. unfold onClose.
  pose proof (flush_service (set_activeProcess None s1) (set_activeProcess None s2)
                (clearTimeout r) Hparser) as Hflush.
  destruct (flush JSON_parse (set_activeProcess None s1, clearTimeout r)) as [s1' r1].
  destruct (flush JSON_parse (set_activeProcess None s2, clearTimeout r)) as [s2' r2].
  cbn [snd] in *. now subst.
Qed.

Lemma onClose_clearTimeout code s r :
  onClose JSON_parse code (s, clearTimeout r) = onClose JSON_parse code (s, r).
Proof. reflexivity. Qed.

Lemma abort_parser s : parser (abort s) = parser s.
Proof. unfold abort. destruct (activeProcess s); reflexivity. Qed.

(** A request to terminate leaves the parser and the variables of the
    run alone but for the timer, and the close that follows resolves as a
    close without the request would. *)
Lemma terminate_then_close kill code st :
  kill = AbortCalled \/ kill = TimerFired ->
  parser (fst (step JSON_parse st kill)) = parser (fst st) /\
  clearTimeout (snd (step JSON_parse st kill)) = clearTimeout (snd st) /\
  snd (step JSON_parse (step JSON_parse st kill) (Close code))
  = snd (step JSON_parse st (Close code)).
Proof.
  destruct st as [s r]. intros [-> | ->]; cbn [step fst snd].
  - split; [apply abort_parser|]. split; [reflexivity|].
    apply onClose_service, abort_parser.
  - unfold onTimeout. destruct (timeout r) eqn:Hr.
    + cbn [fst snd]. split; [destruct (activeProcess s); reflexivity|].
      split; [reflexivity|].
      rewrite onClose_clearTimeout. apply onClose_service.
      destruct (activeProcess s); reflexivity.
    + repeat split.
Qed.

Lemma flush_messages s r :
  messages (snd (flush JSON_parse (s, r))) =
  messages r ++
  (if truthy (Some (JStr (trim (buffer r))))
   then Spec.events (fst (MessageParser.parseLine JSON_parse (buffer r) (parser s)))
   else []).
Proof.
  unfold flush. cbn [snd]. destruct (truthy _); [|now rewrite app_nil_r].
  rewrite parseWith_unfold. cbn [snd].
  apply fold_messages, onParsedLast_messages.
Qed.

Lemma result_of_messages code r :
  ExecutionResult.messages (result_of code r) = messages r.
Proof. unfold result_of. destruct (_ || _); reflexivity. Qed.

(** The outcome of a close while the promise is pending. *)
Lemma close_resolves st code :
  settled (snd st) = None ->
  exists o,
    settled (snd (step JSON_parse st (Close code))) = Some (Resolved o) /\
    (ExecutionResult.success o = true <->
     code = Some 0 \/ finalContent (snd (step JSON_parse st (Close code))) <> "") /\
    ExecutionResult.messages o =
      messages (snd st) ++
      (if truthy (Some (JStr (trim (buffer (snd st)))))
       then Spec.events (fst (MessageParser.parseLine JSON_parse
                                (buffer (snd st)) (parser (fst st))))
       else []).
Proof.
  destruct st as [s r]. cbn [snd fst step]. intros Hpending.
  eexists. split; [apply onClose_settled, Hpending|].
  rewrite onClose_finalContent. split; [apply result_of_success|].
  rewrite result_of_messages, flush_messages. reflexivity.
Qed.

(** C4, as the code has it.  A call of [abort] or the expiry of the timer
    only signals the process: the line buffer, the messages and the final
    text stay as they are.  When the process then closes, what is left in
    the buffer is parsed one last time, as on any close, and its events
    join the outcome; the outcome is the one a close without the request
    gives, and it is a failure exactly when the exit code is not [0] and
    the final text is empty after that last parse. *)
Theorem C4_termination (st : Service * Run) (kill : Event) (code : option Z) :
  kill = AbortCalled \/ kill = TimerFired ->
  settled (snd st) = None ->
  let terminated := step JSON_parse st kill in
  let closed := step JSON_parse terminated (Close code) in
  buffer (snd terminated) = buffer (snd st) /\
  messages (snd terminated) = messages (snd st) /\
  finalContent (snd terminated) = finalContent (snd st) /\
  snd closed = snd (step JSON_parse st (Close code)) /\
  exists o,
    settled (snd closed) = Some (Resolved o) /\
    ExecutionResult.messages o =
      messages (snd st) ++
      (if truthy (Some (JStr (trim (buffer (snd st)))))
       then Spec.events (fst (MessageParser.parseLine JSON_parse
                                (buffer (snd st)) (parser (fst st))))
       else []) /\
    (ExecutionResult.success o = false <->
     code <> Some 0 /\ finalContent (snd closed) = "").
Proof.
  intros Hkill Hpending. cbv zeta.
  destruct (terminate_then_close kill code st Hkill) as (Hparser & Hrun & Hclosed).
  assert (Hbuffer : buffer (snd (step JSON_parse st kill)) = buffer (snd st))
    by exact (f_equal buffer Hrun).
  assert (Hmessages : messages (snd (step JSON_parse st kill)) = messages (snd st))
    by exact (f_equal messages Hrun).
  assert (Hfinal : finalContent (snd (step JSON_parse st kill)) = finalContent (snd st))
    by exact (f_equal finalContent Hrun).
  repeat (split; [assumption|]).
  destruct (close_resolves st code Hpending) as (o & Ho & Hsuccess & Hmsgs).
  exists o. rewrite Hclosed. split; [exact Ho|]. split; [exact Hmsgs|].
  rewrite <- not_true_iff_false, Hsuccess.
  split.
  - intros Hnot. split; [tauto|].
    destruct (string_dec (finalContent (snd (step JSON_parse st (Close code)))) "");
      tauto.
  - intros [Hcode Hempty] [Hzero|Hne]; [contradiction|]. apply Hne, Hempty.
Qed.

End Termination.

(** C4 as stated fails: a result record is in the line buffer, unparsed,
    when the run is aborted (or its timer expires) before any text was
    accumulated; at the close the buffer is parsed all the same and the run
    resolves as a success carrying the text. *)
Lemma C4_counterexample :
  let terminated kill :=
    ClaudeCliService.steps JsonText.parse
      (ClaudeCliService.execute Spec.a_child ClaudeCliService.new)
      [ClaudeCliService.StdoutData Spec.unterminated_result; kill] in
  let refuted kill :=
    ClaudeCliService.buffer (snd (terminated kill)) = Spec.unterminated_result /\
    ClaudeCliService.messages (snd (terminated kill)) = [] /\
    ClaudeCliService.finalContent (snd (terminated kill)) = "" /\
    ClaudeCliService.killed (fst (terminated kill)) = [Spec.a_child] /\
    match
      ClaudeCliService.settled
        (snd (ClaudeCliService.step JsonText.parse (terminated kill)
                (ClaudeCliService.Close None)))
    with
    | Some (ClaudeCliService.Resolved o) =>
        ExecutionResult.success o = true /\
        length (ExecutionResult.messages o) = 1%nat /\
        ExecutionResult.finalContent o = Some "done"
    | _ => False
    end in
  refuted ClaudeCliService.AbortCalled /\ refuted ClaudeCliService.TimerFired.
Proof. vm_compute. repeat split. Qed.

(** C4 on that run. *)
Lemma C4_termination_witness :
  exists o,
    ClaudeCliService.settled
      (snd (ClaudeCliService.step JsonText.parse
              (ClaudeCliService.step JsonText.parse
                 (ClaudeCliService.steps JsonText.parse
                    (ClaudeCliService.execute Spec.a_child ClaudeCliService.new)
                    [ClaudeCliService.StdoutData Spec.unterminated_result])
                 ClaudeCliService.AbortCalled)
              (ClaudeCliService.Close None)))
    = Some (ClaudeCliService.Resolved o) /\
    length (ExecutionResult.messages o) = 1%nat.
Proof.
  destruct (C4_termination JsonText.parse
              (ClaudeCliService.steps JsonText.parse
                 (ClaudeCliService.execute Spec.a_child ClaudeCliService.new)
                 [ClaudeCliService.StdoutData Spec.unterminated_result])
              ClaudeCliService.AbortCalled None (or_introl eq_refl) eq_refl)
    as (_ & _ & _ & _ & o & Ho & Hmsgs & _).
  exists o. split; [exact Ho|]. rewrite Hmsgs. vm_compute. reflexivity.
Defined.

(** ** Line buffering *)
Section LineBuffer.

Import ClaudeCliService.

Variable JSON_parse : string -> option json.

Lemma append_cons c (s t : string) : String c s +:+ t = String c (s +:+ t).
Proof. reflexivity. Qed.

Lemma append_empty (t : string) : "" +:+ t = t.
Proof. reflexivity. Qed.

Lemma string_app_assoc (a b c : string) : (a +:+ b) +:+ c = a +:+ (b +:+ c).
Proof.
  induction a as [|x a IH]; [reflexivity|].
  rewrite !append_cons. f_equal. exact IH.
Qed.











End LineBuffer.

(** The two bytes of [U+00E9] decode together; cut apart, the text of
    neither piece is a text of the two-byte character. *)
Example cut_inside_a_character :
  Utf8.toString (Chunks.e_acute_head ++ Chunks.e_acute_tail)
  = Some (String "c" (String "a" (String "f" (String (ascii_of_N 233) "")))) /\
  Utf8.toString Chunks.e_acute_head = None /\
  Utf8.toString Chunks.e_acute_tail = None.
Proof. repeat split. Qed.

(** ** What a run emits and keeps *)
Section Observed.

Import ClaudeCliService.

Variable JSON_parse : string -> option json.

Lemma emitted_messages_app es es' :
  Trace.emitted_messages (es ++ es') =
  Trace.emitted_messages es ++ Trace.emitted_messages es'.
Proof.
  induction es as [|[m|t] es IH]; cbn [app Trace.emitted_messages];
    [reflexivity|now rewrite IH|exact IH].
Qed.

Lemma emitted_partials_app es es' :
  Trace.emitted_partials (es ++ es') =
  Trace.emitted_partials es ++ Trace.emitted_partials es'.
Proof.
  induction es as [|[m|t] es IH]; cbn [app Trace.emitted_partials];
    [reflexivity|exact IH|now rewrite IH].
Qed.

Lemma last_partial_message es m :
  Trace.last_partial (es ++ [EmitMessage m]) = Trace.last_partial es.
Proof.
  unfold Trace.last_partial. rewrite emitted_partials_app. cbn. now rewrite app_nil_r.
Qed.

Lemma last_partial_partial es t :
  Trace.last_partial (es ++ [EmitPartial t]) = t.
Proof.
  unfold Trace.last_partial. rewrite emitted_partials_app. cbn.
  apply last_last.
Qed.


Lemma onParsed_emitted_messages r parsed :
  Trace.emitted_messages (emitted (onParsed r parsed)) =
  Trace.emitted_messages (emitted r) ++ [parsed].
Proof.
  destruct r. unfold onParsed, take_content. cbn.
  repeat match goal with |- context [if ?c then _ else _] => destruct c end;
    cbn; rewrite !emitted_messages_app; cbn; rewrite ?app_nil_r; reflexivity.
Qed.

Lemma onParsed_messages_emitted r parsed :
  Trace.messages_emitted r -> Trace.messages_emitted (onParsed r parsed).
Proof.
  unfold Trace.messages_emitted. intros Hr.
  now rewrite onParsed_emitted_messages, onParsed_messages, Hr.
Qed.

Lemma take_content_emitted_messages ty parsed r :
  Trace.emitted_messages (emitted (take_content ty parsed r)) =
  Trace.emitted_messages (emitted r).
Proof.
  unfold take_content. destruct (_ && _); [|reflexivity].
  cbn. rewrite emitted_messages_app. cbn. apply app_nil_r.
Qed.

Lemma take_content_final ty parsed r :
  Trace.final_is_last_partial r ->
  Trace.final_is_last_partial (take_content ty parsed r).
Proof.
  unfold take_content, Trace.final_is_last_partial.
  destruct (_ && _); [|auto]. intros _.
  unfold emit, set_finalContent. cbn [finalContent emitted].
  now rewrite last_partial_partial.
Qed.

Lemma onParsed_final r parsed :
  Trace.final_is_last_partial r -> Trace.final_is_last_partial (onParsed r parsed).
Proof.
  intros Hr. unfold onParsed. do 2 apply take_content_final.
  unfold Trace.final_is_last_partial in *.
  destruct (truthy (Msg.session_id parsed));
    unfold emit, set_sessionId, push_message; cbn [finalContent emitted];
    now rewrite last_partial_message.
Qed.

Lemma onParsedLast_final r parsed :
  Trace.final_is_last_partial r -> Trace.final_is_last_partial (onParsedLast r parsed).
Proof. intros Hr. unfold onParsedLast. apply take_content_final. exact Hr. Qed.

Lemma fold_invariant (P : Run -> Prop) (body : Run -> Msg.ClaudeStreamMessage -> Run) ms :
  (forall r m, P r -> P (body r m)) ->
  forall r, P r -> P (fold_left body ms r).
Proof.
  intros Hbody. induction ms as [|m ms IH]; intros r Hr; [exact Hr|].
  cbn [fold_left]. apply IH, Hbody, Hr.
Qed.

(** An invariant of the loop over parsed messages that does not look at
    the buffer is an invariant of the stdout handler. *)
Lemma onStdout_invariant (P : Run -> Prop) data st :
  (forall r m, P r -> P (onParsed r m)) ->
  (forall b r, P r -> P (set_buffer b r)) ->
  P (snd st) -> P (snd (onStdout JSON_parse data st)).
Proof.
  intros Hbody Hbuffer Hst. destruct st as [s r]. unfold onStdout.
  generalize (removelast (split_lines (buffer r +:+ data))).
  generalize (List.last (split_lines (buffer r +:+ data)) "").
  intros b lines.
  assert (Hstart : P (snd (s, set_buffer b r))) by (apply Hbuffer, Hst).
  revert Hstart. generalize (s, set_buffer b r). clear Hst.
  induction lines as [|line lines IH]; intros st Hst; [exact Hst|].
  cbn [fold_left]. apply IH. unfold onLine. destruct (negb _); [exact Hst|].
  destruct st as [s' r']. rewrite parseWith_unfold. cbn [snd].
  apply fold_invariant; assumption.
Qed.

Lemma flush_invariant (P : Run -> Prop) st :
  (forall r m, P r -> P (onParsedLast r m)) ->
  P (snd st) -> P (snd (flush JSON_parse st)).
Proof.
  intros Hbody Hst. unfold flush. destruct (truthy _); [|exact Hst].
  destruct st as [s r]. rewrite parseWith_unfold. cbn [snd].
  apply fold_invariant; assumption.
Qed.

Lemma settle_final o r :
  Trace.final_is_last_partial r -> Trace.final_is_last_partial (settle o r).
Proof. unfold settle. destruct (settled r); auto. Qed.

Lemma step_final st e :
  Trace.final_is_last_partial (snd st) ->
  Trace.final_is_last_partial (snd (step JSON_parse st e)).
Proof.
  intros Hst. destruct e as [data|data|code|err| |]; cbn [step].
  - apply onStdout_invariant; auto using onParsed_final.
  - destruct st as [s r]. exact Hst.
  - destruct st as [s r]. unfold onClose.
    pose proof (flush_invariant Trace.final_is_last_partial
                  (set_activeProcess None s, clearTimeout r) onParsedLast_final Hst) as Hf.
    destruct (flush JSON_parse (set_activeProcess None s, clearTimeout r)) as [s' r'].
    cbn [snd] in *. apply settle_final, Hf.
  - destruct st as [s r]. cbn [onError snd]. apply settle_final. exact Hst.
  - destruct st as [s r]. unfold onTimeout. destruct (timeout r); exact Hst.
  - exact Hst.
Qed.

(** X3.  Whatever happens during a run, the final text it holds is the
    text of the latest ['partial'] notification it emitted (and is empty
    when it emitted none): a listener of ['partial'] always has the text
    the outcome will carry. *)
Theorem X3_final_text_is_last_partial (child : ChildProcess) (s : Service)
    (es : list Event) :
  let r := snd (steps JSON_parse (execute child s) es) in
  finalContent r = Trace.last_partial (emitted r).
Proof.
  cbv zeta. unfold steps.
  assert (Hstart : Trace.final_is_last_partial (snd (execute child s))) by reflexivity.
  revert Hstart. generalize (execute child s).
  induction es as [|e es IH]; intros st Hst; [exact Hst|].
  cbn [fold_left]. apply IH, step_final, Hst.
Qed.

(** X2.  While the process streams, the messages accumulated for the
    outcome are exactly the messages handed to the ['message'] listeners,
    in the same order.  The close handler emits no ['message']: the events
    it parses from the last buffer join the outcome without having been
    handed to the listeners. *)
Theorem X2_messages_are_emitted (child : ChildProcess) (s : Service)
    (es : list Event) (code : option Z) :
  forallb Spec.streams es = true ->
  let st := steps JSON_parse (execute child s) es in
  let closed := step JSON_parse st (Close code) in
  Trace.emitted_messages (emitted (snd st)) = messages (snd st) /\
  Trace.emitted_messages (emitted (snd closed)) = messages (snd st) /\
  messages (snd closed) =
    messages (snd st) ++
    (if truthy (Some (JStr (trim (buffer (snd st)))))
     then Spec.events (fst (MessageParser.parseLine JSON_parse
                              (buffer (snd st)) (parser (fst st))))
     else []).
Proof.
  intros Hes. cbv zeta.
  assert (Hinv : Trace.messages_emitted (snd (steps JSON_parse (execute child s) es))).
  { unfold steps.
    assert (Hstart : Trace.messages_emitted (snd (execute child s))) by reflexivity.
    revert Hes Hstart. generalize (execute child s).
    induction es as [|e es IH]; intros st Hes Hst; [exact Hst|].
    cbn [forallb] in Hes. apply andb_true_iff in Hes as [He Hes].
    cbn [fold_left]. apply IH; [exact Hes|].
    destruct e as [data|data|c|err| |]; try discriminate He; cbn [step].
    - apply onStdout_invariant; auto using onParsed_messages_emitted.
    - destruct st as [s' r']. exact Hst.
    - destruct st as [s' r']. unfold onTimeout. destruct (timeout r'); exact Hst.
    - exact Hst. }
  destruct (steps JSON_parse (execute child s) es) as [s' r'].
  cbn [fst snd] in *. split; [exact Hinv|].
  cbn [step]. unfold onClose.
  pose proof (flush_invariant
                (fun r => Trace.emitted_messages (emitted r)
                          = Trace.emitted_messages (emitted r'))
                (set_activeProcess None s', clearTimeout r')) as Hemit.
  pose proof (flush_messages JSON_parse (set_activeProcess None s') (clearTimeout r'))
    as Hmsgs.
  destruct (flush JSON_parse (set_activeProcess None s', clearTimeout r')) as [s2 r2].
  cbn [snd] in *. split.
  - assert (Hsettle : emitted (settle (Resolved (result_of code r2)) r2) = emitted r2).
    { unfold settle. destruct (settled r2); reflexivity. }
    rewrite Hsettle, Hemit; [exact Hinv| |reflexivity].
    intros r m Hr. unfold onParsedLast.
    rewrite take_content_emitted_messages. exact Hr.
  - assert (Hsettle : messages (settle (Resolved (result_of code r2)) r2) = messages r2).
    { unfold settle. destruct (settled r2); reflexivity. }
    rewrite Hsettle, Hmsgs. reflexivity.
Qed.

End Observed.

(** ** Settling, signals and the end of a run *)
Section Settling.

Import ClaudeCliService.

Variable JSON_parse : string -> option json.

Lemma settle_settled o o' r : settled r = Some o -> settled (settle o' r) = Some o.
Proof. intros H. unfold settle. now rewrite H. Qed.

Lemma step_settled st e o :
  settled (snd st) = Some o -> settled (snd (step JSON_parse st e)) = Some o.
Proof.
  intros Hst. destruct e as [data|data|code|err| |]; cbn [step].
  - apply (onStdout_invariant JSON_parse (fun r => settled r = Some o)); auto.
    intros r m Hr. destruct (onParsed_frame r m) as (_ & _ & _ & Hs). congruence.
  - destruct st as [s r]. exact Hst.
  - destruct st as [s r]. unfold onClose.
    pose proof (flush_frame JSON_parse (set_activeProcess None s, clearTimeout r))
      as (_ & _ & _ & Hs).
    destruct (flush JSON_parse (set_activeProcess None s, clearTimeout r)) as [s' r'].
    cbn [snd] in *. apply settle_settled. rewrite Hs. exact Hst.
  - destruct st as [s r]. cbn [onError snd]. apply settle_settled. exact Hst.
  - destruct st as [s r]. unfold onTimeout. destruct (timeout r); exact Hst.
  - exact Hst.
Qed.

(** A settled promise stays as it is. *)
Lemma steps_settled (st : Service * Run) (es : list Event) (o : Settlement) :
  settled (snd st) = Some o ->
  settled (snd (steps JSON_parse st es)) = Some o.
Proof.
  unfold steps. revert st. induction es as [|e es IH]; intros st Hst; [exact Hst|].
  cbn [fold_left]. apply IH, step_settled, Hst.
Qed.

(** X5.  Abort and timer expiry differ in what they leave behind.  After
    [abort] the service reports no run at once and refuses queued input,
    and a second [abort] or the timer sends no further signal.  After the
    timer expired the service still reports a run in progress and accepts
    queued input, a second expiry sends nothing, and an [abort] signals the
    process a second time. *)
Theorem X5_abort_and_timer (s : Service) (r : Run) (p : ChildProcess) (input : string) :
  activeProcess s = Some p ->
  timeout r = true ->
  let after es := fst (steps JSON_parse (s, r) es) in
  killed (after [AbortCalled]) = killed s ++ [p] /\
  isRunning (after [AbortCalled]) = false /\
  fst (queueInput input (after [AbortCalled])) = false /\
  killed (after [AbortCalled; AbortCalled]) = killed s ++ [p] /\
  killed (after [AbortCalled; TimerFired]) = killed s ++ [p] /\
  killed (after [TimerFired]) = killed s ++ [p] /\
  isRunning (after [TimerFired]) = true /\
  fst (queueInput input (after [TimerFired])) = true /\
  killed (after [TimerFired; TimerFired]) = killed s ++ [p] /\
  killed (after [TimerFired; AbortCalled]) = killed s ++ [p; p].
Proof.
  intros Hp Hr. cbv zeta. unfold steps, queueInput, isRunning.
  cbn [fold_left step fst snd]. unfold onTimeout, abort. rewrite Hr, Hp.
  cbn [fst snd activeProcess set_activeProcess kill killed clearTimeout timeout].
  rewrite Hp. cbn [activeProcess set_activeProcess kill killed fst].
  rewrite <- app_assoc. repeat split.
Qed.

Lemma parseWith_activeProcess body text s r :
  activeProcess (fst (parseWith JSON_parse body text (s, r))) = activeProcess s.
Proof. now rewrite parseWith_unfold. Qed.

Lemma flush_activeProcess s r :
  activeProcess (fst (flush JSON_parse (s, r))) = activeProcess s.
Proof.
  unfold flush. cbn [snd]. destruct (truthy _); [|reflexivity].
  apply parseWith_activeProcess.
Qed.

Lemma settle_timeout o r : timeout (settle o r) = timeout r.
Proof. unfold settle. destruct (settled r); reflexivity. Qed.

(** After the ['close'] or the ['error'] handler ran, no process is
    active and the timer is cleared. *)
Lemma ended_idle st e :
  (exists code, e = Close code) \/ (exists err, e = ProcessError err) ->
  activeProcess (fst (step JSON_parse st e)) = None /\
  timeout (snd (step JSON_parse st e)) = false.
Proof.
  destruct st as [s r]. intros [[code ->]|[err ->]]; cbn [step].
  - unfold onClose.
    pose proof (flush_activeProcess (set_activeProcess None s) (clearTimeout r)) as Ha.
    pose proof (flush_frame JSON_parse (set_activeProcess None s, clearTimeout r))
      as (_ & _ & Ht & _).
    destruct (flush JSON_parse (set_activeProcess None s, clearTimeout r)) as [s' r'].
    cbn [fst snd] in *. split; [exact Ha|]. now rewrite settle_timeout, Ht.
  - cbn [onError fst snd]. split; [reflexivity|]. now rewrite settle_timeout.
Qed.

(** X6.  Once the process has closed, or failed to start, the service
    reports no run, and neither a late timer expiry nor an [abort] does
    anything: no signal is sent and nothing changes. *)
Theorem X6_idle_after_end (st : Service * Run) (e : Event) :
  (exists code, e = Close code) \/ (exists err, e = ProcessError err) ->
  let ended := step JSON_parse st e in
  isRunning (fst ended) = false /\
  step JSON_parse ended TimerFired = ended /\
  step JSON_parse ended AbortCalled = ended.
Proof.
  intros He. cbv zeta. destruct (ended_idle st e He) as [Ha Ht].
  destruct (step JSON_parse st e) as [s' r']. cbn [fst snd] in *.
  unfold isRunning. rewrite Ha. split; [reflexivity|]. split.
  - cbn [step]. unfold onTimeout. now rewrite Ht.
  - cbn [step fst snd]. unfold abort. now rewrite Ha.
Qed.

End Settling.

(** ** More on the stream parser *)
Section ParserShapes.

Import MessageParser.

Variable JSON_parse : string -> option json.

Local Abbreviation parseLine := (parseLine JSON_parse).

Lemma normalizeMessage_nonempty raw tools evs tools' :
  normalizeMessage raw tools = (Normal evs, tools') -> evs <> [].
Proof.
  unfold normalizeMessage, bind, ret.
  destruct (get raw "type" tools) as [[ty|e] t1]; [|discriminate].
  destruct (get raw "session_id" t1) as [[sid|e] t2]; [|discriminate].
  destruct (strict_eq_str ty "assistant" && _).
  - destruct (lift (iterate _) t2) as [[blocks|e] t3]; [|discriminate].
    destruct (for_of _ [] blocks t3) as [[[|m ms]|e] t4];
      intros [= <- <-]; discriminate.
  - match goal with |- context [match ?c t2 with _ => _ end] =>
      destruct (c t2) as [[[|m ms]|e] t3] end;
      intros [= <- <-]; discriminate.
Qed.

(** X7.  [parseLine] never returns an empty list: its result is [null]
    or holds at least one event, so every record that decodes and is
    normalized is seen by the caller. *)
Theorem X7_parseLine_null_or_event (line : string) (tools : activeToolCalls) :
  fst (parseLine line tools) = Normal None \/
  exists ev evs, fst (parseLine line tools) = Normal (Some (ev :: evs)).
Proof.
  unfold MessageParser.parseLine.
  destruct (negb _); [left; reflexivity|].
  unfold try_catch, bind, lift, ret.
  destruct (JSON_parse (trim line)) as [raw|]; [|left; reflexivity].
  destruct (get raw "type" tools) as [[ty|e] t1]; [|left; reflexivity].
  destruct (get raw "subtype" t1) as [[st|e] t2]; [|left; reflexivity].
  destruct (normalizeMessage raw t2) as [[evs|e] t3] eqn:Hnorm; [|left; reflexivity].
  pose proof (normalizeMessage_nonempty _ _ _ _ Hnorm) as Hne.
  destruct evs as [|ev evs]; [contradiction|]. right. eauto.
Qed.

(** A record that can be read and takes neither the [assistant] nor the
    [user] branch yields its one generic event and leaves the table. *)
Lemma normalize_generic raw tools :
  Spec.readable raw = true ->
  Parsed.has_content "assistant" raw = false ->
  Parsed.has_content "user" raw = false ->
  normalizeMessage raw tools = (Normal [Parsed.generic_event raw], tools).
Proof.
  intros Hread Ha Hu. unfold Parsed.has_content in Ha, Hu.
  unfold normalizeMessage, bind, ret. rewrite !(get_readable _ _ _ Hread).
  rewrite Ha, Hu. reflexivity.
Qed.

Lemma parseLine_generic line raw tools :
  trim line <> "" ->
  JSON_parse (trim line) = Some raw ->
  Spec.readable raw = true ->
  Parsed.has_content "assistant" raw = false ->
  Parsed.has_content "user" raw = false ->
  parseLine line tools = (Normal (Some [Parsed.generic_event raw]), tools).
Proof.
  intros Hne Hparse Hread Ha Hu.
  apply (parseLine_decoded JSON_parse line raw); [assumption..|].
  now apply normalize_generic.
Qed.

(** X8.  A line that decodes to a record other than an [assistant] or
    [user] record with content yields exactly one event carrying the
    discriminator and the session id of the record, and leaves the table of
    tool calls alone.  The event carries the result text of a [result]
    record that has one, the subtype [init] of a [system] record with that
    subtype, and the name (else the tool name) and input of a standalone
    [tool_use] record; for any other discriminator it carries nothing
    else. *)
Theorem X8_other_records (line : string) (raw : json) (tools : activeToolCalls) :
  trim line <> "" ->
  JSON_parse (trim line) = Some raw ->
  Spec.readable raw = true ->
  Parsed.has_content "assistant" raw = false ->
  Parsed.has_content "user" raw = false ->
  exists ev,
    parseLine line tools = (Normal (Some [ev]), tools) /\
    Msg.type ev = own raw "type" /\
    Msg.session_id ev = own raw "session_id" /\
    (forall text, own raw "type" = Some (JStr "result") ->
       own raw "result" = Some (JStr text) -> text <> "" ->
       ev = Msg.with_content (Msg.bare (own raw "type") (own raw "session_id"))
              (Some (JStr text))) /\
    (own raw "type" = Some (JStr "result") -> truthy (own raw "result") = false ->
       ev = Msg.bare (own raw "type") (own raw "session_id")) /\
    (own raw "type" = Some (JStr "system") -> own raw "subtype" = Some (JStr "init") ->
       ev = Msg.with_subtype (Msg.bare (own raw "type") (own raw "session_id"))
              (Some (JStr "init"))) /\
    (own raw "type" = Some (JStr "tool_use") ->
       Msg.input ev = own raw "input" /\
       Msg.name ev = if truthy (own raw "name") then own raw "name"
                     else own raw "tool_name") /\
    (strict_eq_str (own raw "type") "result" = false ->
     strict_eq_str (own raw "type") "system" = false ->
     strict_eq_str (own raw "type") "tool_use" = false ->
       ev = Msg.bare (own raw "type") (own raw "session_id")).
Proof.
  intros Hne Hparse Hread Ha Hu.
  exists (Parsed.generic_event raw).
  split; [now apply parseLine_generic|].
  unfold Parsed.generic_event.
  split.
  { repeat match goal with |- context [if ?c then _ else _] => destruct c end;
      reflexivity. }
  split.
  { repeat match goal with |- context [if ?c then _ else _] => destruct c end;
      reflexivity. }
  split.
  { intros text Hty Hres Htext. rewrite Hty, Hres.
    apply truthy_str in Htext. cbn [strict_eq_str String.eqb Ascii.eqb Bool.eqb andb].
    rewrite Htext. reflexivity. }
  split.
  { intros Hty Hres. rewrite Hty, Hres. reflexivity. }
  split.
  { intros Hty Hsub. rewrite Hty, Hsub. reflexivity. }
  split.
  { intros Hty. rewrite Hty.
    cbn [strict_eq_str String.eqb Ascii.eqb Bool.eqb andb].
    split; reflexivity. }
  intros Hr Hs Ht. rewrite Hr, Hs, Ht. reflexivity.
Qed.

End ParserShapes.

(** ** Results without a call, and the life of a table entry *)
Section TableEntries.

Import MessageParser.

Variable JSON_parse : string -> option json.

Local Abbreviation parseLine := (parseLine JSON_parse).

(** A [user] record with one [tool_result] block for [id]: its event is
    filled with whatever the table holds under [id], and nothing is left
    there. *)
Lemma user_result_line line raw pre post result id tools :
  trim line <> "" -> JSON_parse (trim line) = Some raw ->
  own raw "type" = Some (JStr "user") ->
  Spec.content_blocks raw = Some (pre ++ result :: post) ->
  own result "type" = Some (JStr "tool_result") ->
  own result "tool_use_id" = Some (JStr id) -> id <> "" ->
  Forall (fun other => own other "tool_use_id" <> Some (JStr id)) (pre ++ post) ->
  exists before after tools',
    parseLine line tools =
    (Normal (Some (before ++
       Spec.tool_result_event raw result (Map_get (JStr id) tools) :: after)), tools') /\
    Forall (fun other => Msg.id other <> Some (JStr id)) (before ++ after) /\
    Map_get (JStr id) tools' = None.
Proof.
  intros Hne Hparse Hty [Hcontent Hread]%content_blocks_inv Hrty Hrid Hid Hothers.
  assert (Hi : truthy (Some (JStr id)) = true) by now apply truthy_str.
  rewrite forallb_app in Hread. apply andb_true_iff in Hread as [Hrpre Hrpost].
  cbn [forallb] in Hrpost. apply andb_true_iff in Hrpost as [Hrres Hrpost].
  apply Forall_app in Hothers as [Hpre Hpost].
  destruct (user_others raw (JStr id) pre Hrpre Hpre [] tools)
    as (before & t1 & Hforb & Hgetb & Hidsb).
  assert (Hres : userBlock raw ([] ++ before) result t1 =
                 (Normal (([] ++ before) ++
                    [Spec.tool_result_event raw result (Map_get (JStr id) tools)]),
                  Map_delete (JStr id) t1)).
  { destruct (userBlock_step raw ([] ++ before) result t1 Hrres)
      as [[Hno _]|[_ (tid & Htid & ->)]].
    - unfold Spec.is_tool_result in Hno. rewrite Hrty, Hrid, Hi in Hno. discriminate Hno.
    - rewrite Hrid in Htid. injection Htid as <-. now rewrite Hgetb. }
  destruct (user_others raw (JStr id) post Hrpost Hpost
              (([] ++ before) ++
                 [Spec.tool_result_event raw result (Map_get (JStr id) tools)])
              (Map_delete (JStr id) t1)) as (after & tools' & Hfora & Hgeta & Hidsa).
  exists before, after, tools'. split; [|split].
  - apply (parseLine_decoded JSON_parse line raw); [assumption..|].
    rewrite (normalize_user raw (pre ++ result :: post) tools
               (before ++ Spec.tool_result_event raw result (Map_get (JStr id) tools) :: after)
               tools' Hty Hcontent).
    + destruct before; reflexivity.
    + rewrite for_of_app. unfold bind. rewrite Hforb. cbn [for_of]. unfold bind.
      rewrite Hres, Hfora. cbn [app]. rewrite <- app_assoc. reflexivity.
  - apply Forall_app. split; assumption.
  - rewrite Hgeta. apply Map_get_delete_same.
Qed.

(** X9.  A tool result is enriched at most once, and a result without a
    call is tolerated.  Parsing a [user] record with one [tool_result]
    block for an id yields the event filled from the table and consumes the
    entry; parsing the same line again, or parsing it when the table holds
    nothing under the id, still yields the event for that id, with the
    delivered output and without name and input. *)
Theorem X9_result_consumed_once
    (line : string) (raw : json) (pre post : list json) (result : json)
    (id : string) (tools : activeToolCalls) :
  trim line <> "" -> JSON_parse (trim line) = Some raw ->
  own raw "type" = Some (JStr "user") ->
  Spec.content_blocks raw = Some (pre ++ result :: post) ->
  own result "type" = Some (JStr "tool_result") ->
  own result "tool_use_id" = Some (JStr id) -> id <> "" ->
  Forall (fun other => own other "tool_use_id" <> Some (JStr id)) (pre ++ post) ->
  exists before after tools1 before' ev after' tools2,
    parseLine line tools =
    (Normal (Some (before ++
       Spec.tool_result_event raw result (Map_get (JStr id) tools) :: after)), tools1) /\
    Map_get (JStr id) tools1 = None /\
    parseLine line tools1 = (Normal (Some (before' ++ ev :: after')), tools2) /\
    Msg.type ev = Some (JStr "tool_result") /\
    Msg.id ev = Some (JStr id) /\
    Msg.name ev = None /\
    Msg.input ev = None /\
    Msg.output ev = own result "content" /\
    Map_get (JStr id) tools2 = None.
Proof.
  intros Hne Hparse Hty Hcontent Hrty Hrid Hid Hothers.
  destruct (user_result_line line raw pre post result id tools)
    as (before & after & tools1 & Hfirst & _ & Hgone); try assumption.
  destruct (user_result_line line raw pre post result id tools1)
    as (before' & after' & tools2 & Hsecond & _ & Hgone'); try assumption.
  rewrite Hgone in Hsecond.
  exists before, after, tools1, before',
    (Spec.tool_result_event raw result None), after', tools2.
  repeat split; assumption.
Qed.

Lemma get_state block k tools c t : get block k tools = (c, t) -> t = tools.
Proof. unfold get, lift. now intros [= _ <-]. Qed.

Lemma get_normal block k tools v t :
  get block k tools = (Normal v, t) -> v = own block k.
Proof. unfold get, lift. destruct block; cbn; now intros [= <- _]. Qed.

(** What one block does to the table. *)
Lemma userBlock_table raw acc block tools :
  snd (userBlock raw acc block tools) = tools \/
  exists tid, snd (userBlock raw acc block tools) = Map_delete tid tools.
Proof.
  unfold userBlock, bind.
  destruct (get block "type" tools) as [[ty|e] t] eqn:Hget.
  - apply get_state in Hget as ->.
    destruct (own block "tool_use_id") as [tid|]; [|now left].
    destruct (_ && _); [|now left]. right. now exists tid.
  - left. now apply get_state in Hget.
Qed.

Lemma assistantBlock_table sid base acc block tools :
  snd (assistantBlock sid base acc block tools) = tools \/
  exists i e, snd (assistantBlock sid base acc block tools) = Map_set i e tools.
Proof.
  unfold assistantBlock, bind.
  destruct (get block "type" tools) as [[ty|e] t] eqn:Hget.
  - apply get_state in Hget as ->.
    destruct (_ && _); [now left|]. destruct (_ && _); [now left|].
    destruct (strict_eq_str ty "tool_use"); [|now left].
    unfold track.
    destruct (own block "id") as [i|]; [|now left].
    destruct (own block "name") as [n|]; [|now left].
    destruct (_ && _); [|now left]. right. eauto.
  - left. now apply get_state in Hget.
Qed.

Lemma Map_get_delete_inv {V} (k k' : json) (m : Map V) v :
  Map_get k (Map_delete k' m) = Some v -> Map_get k m = Some v.
Proof.
  induction m as [|[k0 v0] m IH]; cbn [Map_delete Map_get]; [auto|].
  destruct (sameValueZero k0 k') eqn:E'.
  - intros H. destruct (sameValueZero k0 k) eqn:E; [|auto].
    apply sameValueZero_eq in E, E'. subst.
    rewrite Map_get_delete_same in H. discriminate H.
  - cbn [Map_get]. destruct (sameValueZero k0 k); auto.
Qed.

Lemma Map_has_set {V} (k i : json) (e : V) (m : Map V) :
  Map_has k m = true -> Map_has k (Map_set i e m) = true.
Proof.
  unfold Map_has. induction m as [|[k0 v0] m IH]; cbn [Map_set Map_get]; [discriminate|].
  destruct (sameValueZero k0 i); cbn [Map_get]; destruct (sameValueZero k0 k); auto.
Qed.

Lemma for_of_user_table raw k v blocks :
  forall acc tools,
    Map_get k (snd (for_of (userBlock raw) acc blocks tools)) = Some v ->
    Map_get k tools = Some v.
Proof.
  induction blocks as [|block blocks IH]; intros acc tools; cbn [for_of]; [auto|].
  unfold bind.
  pose proof (userBlock_table raw acc block tools) as Htable.
  destruct (userBlock raw acc block tools) as [[acc'|e] t]; cbn [snd] in *.
  - intros H%IH. destruct Htable as [->|[tid ->]]; [exact H|].
    now apply Map_get_delete_inv in H.
  - intros H. destruct Htable as [->|[tid ->]]; [exact H|].
    now apply Map_get_delete_inv in H.
Qed.

Lemma for_of_assistant_table sid base k blocks :
  forall acc tools,
    Map_has k tools = true ->
    Map_has k (snd (for_of (assistantBlock sid base) acc blocks tools)) = true.
Proof.
  induction blocks as [|block blocks IH]; intros acc tools Hk; cbn [for_of]; [exact Hk|].
  unfold bind.
  pose proof (assistantBlock_table sid base acc block tools) as Htable.
  destruct (assistantBlock sid base acc block tools) as [[acc'|e] t]; cbn [snd] in *.
  - apply IH. destruct Htable as [->|(i & entry & ->)]; [exact Hk|].
    now apply Map_has_set.
  - destruct Htable as [->|(i & entry & ->)]; [exact Hk|]. now apply Map_has_set.
Qed.

Lemma normalize_no_additions raw tools k v :
  strict_eq_str (own raw "type") "assistant" = false ->
  Map_get k (snd (normalizeMessage raw tools)) = Some v ->
  Map_get k tools = Some v.
Proof.
  intros Hty. unfold normalizeMessage, bind, ret.
  destruct (get raw "type" tools) as [[ty|e] t] eqn:Hget.
  2:{ apply get_state in Hget as ->. auto. }
  pose proof (get_normal _ _ _ _ _ Hget) as ->. apply get_state in Hget as ->.
  destruct (get raw "session_id" tools) as [[sid|e] t] eqn:Hget'.
  2:{ apply get_state in Hget' as ->. auto. }
  apply get_state in Hget' as ->.
  rewrite Hty. cbn [andb].
  destruct (strict_eq_str (own raw "type") "user" && _).
  - unfold bind, lift.
    destruct (iterate _) as [blocks|e]; [|auto].
    pose proof (for_of_user_table raw k v blocks [] tools) as Hfor.
    destruct (for_of (userBlock raw) [] blocks tools) as [[[|m ms]|e] t];
      cbn [snd] in *; exact Hfor.
  - auto.
Qed.

Lemma normalize_no_removals raw tools k :
  strict_eq_str (own raw "type") "user" = false ->
  Map_has k tools = true ->
  Map_has k (snd (normalizeMessage raw tools)) = true.
Proof.
  intros Hty Hk. unfold normalizeMessage, bind, ret.
  destruct (get raw "type" tools) as [[ty|e] t] eqn:Hget.
  2:{ apply get_state in Hget as ->. auto. }
  pose proof (get_normal _ _ _ _ _ Hget) as ->. apply get_state in Hget as ->.
  destruct (get raw "session_id" tools) as [[sid|e] t] eqn:Hget'.
  2:{ apply get_state in Hget' as ->. auto. }
  apply get_state in Hget' as ->.
  rewrite Hty. cbn [andb].
  destruct (strict_eq_str (own raw "type") "assistant" && _).
  - unfold lift. destruct (iterate _) as [blocks|e]; [|exact Hk].
    pose proof (for_of_assistant_table sid (Msg.bare (own raw "type") sid)
                  k blocks [] tools Hk) as Hfor.
    destruct (for_of (assistantBlock sid (Msg.bare (own raw "type") sid)) [] blocks tools)
      as [[[|m ms]|e] t]; cbn [snd] in *; exact Hfor.
  - exact Hk.
Qed.

(** The table after [parseLine] is the table after normalizing the
    decoded record, or the table of before. *)
Lemma parseLine_table line raw tools :
  JSON_parse (trim line) = Some raw ->
  snd (parseLine line tools) = snd (normalizeMessage raw tools) \/
  snd (parseLine line tools) = tools.
Proof.
  intros Hparse. unfold MessageParser.parseLine.
  destruct (negb _); [now right|].
  unfold try_catch, bind, lift, ret. rewrite Hparse.
  destruct (get raw "type" tools) as [[ty|e] t] eqn:Hget.
  2:{ right. now apply get_state in Hget. }
  apply get_state in Hget as ->.
  destruct (get raw "subtype" tools) as [[st|e] t] eqn:Hget'.
  2:{ right. now apply get_state in Hget'. }
  apply get_state in Hget' as ->.
  left. destruct (normalizeMessage raw tools) as [[evs|e] t]; reflexivity.
Qed.

(** X10.  Only [assistant] records add or change entries of the table of
    tool calls, and only [user] records remove entries: after parsing a
    line that decodes to a record of another type, every entry found in the
    table was there before with the same name and input, respectively every
    id that was in the table still is.  This holds also when normalizing
    the record throws half-way. *)
Theorem X10_table_frame (line : string) (raw : json) (tools : activeToolCalls) :
  JSON_parse (trim line) = Some raw ->
  (strict_eq_str (own raw "type") "assistant" = false ->
   forall k v, Map_get k (snd (parseLine line tools)) = Some v ->
               Map_get k tools = Some v) /\
  (strict_eq_str (own raw "type") "user" = false ->
   forall k, Map_has k tools = true ->
             Map_has k (snd (parseLine line tools)) = true).
Proof.
  intros Hparse. destruct (parseLine_table line raw tools Hparse) as [-> | ->].
  - split.
    + intros Hty k v. now apply normalize_no_additions.
    + intros Hty k. now apply normalize_no_removals.
  - split; auto.
Qed.

End TableEntries.

(** ** A result line, from the chunk to the outcome *)
Section ResultLine.

Import ClaudeCliService.

Variable JSON_parse : string -> option json.

Lemma split_lines_one line :
  Trace.has_line_feed line = false ->
  split_lines (line +:+ String LF "") = [line; ""].
Proof.
  unfold Trace.has_line_feed. induction line as [|c line IH]; [reflexivity|].
  cbn [list_ascii_of_string existsb]. intros [Hc Hrest]%orb_false_iff.
  rewrite append_cons. cbn [split_lines]. rewrite (IH Hrest).
  rewrite Ascii.eqb_sym, Hc. reflexivity.
Qed.

(** The stdout handler on one complete line, with nothing buffered. *)
Lemma onStdout_one_line line s r :
  buffer r = "" ->
  Trace.has_line_feed line = false ->
  trim line <> "" ->
  onStdout JSON_parse (line +:+ String LF "") (s, r) =
  (set_parser (snd (MessageParser.parseLine JSON_parse line (parser s))) s,
   fold_left onParsed
     (Spec.events (fst (MessageParser.parseLine JSON_parse line (parser s))))
     (set_buffer "" r)).
Proof.
  intros Hbuf Hlf Hne%truthy_str. unfold onStdout.
  rewrite Hbuf, append_empty, (split_lines_one line Hlf).
  cbn [List.last removelast fold_left]. unfold onLine. rewrite Hne. cbn [negb].
  apply parseWith_unfold.
Qed.

(** X11.  A complete line that decodes to a [result] record with a
    non-empty result text, streamed while nothing is buffered and the
    promise is pending, adds the record's event to the messages and makes
    its text the final text; if the process closes next, the run resolves
    as a success carrying that text, whatever the exit code. *)
Theorem X11_result_line (st : Service * Run) (line : string) (raw : json) (text : string) :
  buffer (snd st) = "" ->
  settled (snd st) = None ->
  Trace.has_line_feed line = false ->
  trim line <> "" ->
  JSON_parse (trim line) = Some raw ->
  own raw "type" = Some (JStr "result") ->
  own raw "result" = Some (JStr text) ->
  text <> "" ->
  let ev := Msg.with_content (Msg.bare (Some (JStr "result")) (own raw "session_id"))
              (Some (JStr text)) in
  let streamed := step JSON_parse st (StdoutData (line +:+ String LF "")) in
  messages (snd streamed) = messages (snd st) ++ [ev] /\
  finalContent (snd streamed) = text /\
  buffer (snd streamed) = "" /\
  parser (fst streamed) = parser (fst st) /\
  forall code, exists o,
    settled (snd (step JSON_parse streamed (Close code))) = Some (Resolved o) /\
    ExecutionResult.success o = true /\
    ExecutionResult.finalContent o = Some text /\
    ExecutionResult.messages o = messages (snd st) ++ [ev].
Proof.
  intros Hbuf Hpending Hlf Hne Hparse Hty Hres Htext.
  destruct st as [s r]. cbn [fst snd] in *. cbv zeta. cbn [step].
  assert (Hline : MessageParser.parseLine JSON_parse line (parser s) =
                  (Normal (Some [Msg.with_content
                                   (Msg.bare (Some (JStr "result")) (own raw "session_id"))
                                   (Some (JStr text))]), parser s)).
  { rewrite (parseLine_generic JSON_parse line raw); try assumption.
    - unfold Parsed.generic_event. rewrite Hty, Hres.
      pose proof Htext as Ht%truthy_str.
      cbn [strict_eq_str String.eqb Ascii.eqb Bool.eqb andb]. rewrite Ht. reflexivity.
    - exact (own_readable _ _ _ Hty).
    - unfold Parsed.has_content. rewrite Hty. reflexivity.
    - unfold Parsed.has_content. rewrite Hty. reflexivity. }
  rewrite (onStdout_one_line line s r Hbuf Hlf Hne), Hline.
  cbn [fst snd Spec.events fold_left].
  set (ev := Msg.with_content (Msg.bare (Some (JStr "result")) (own raw "session_id"))
               (Some (JStr text))).
  set (r1 := onParsed (set_buffer "" r) ev).
  assert (Hmsgs : messages r1 = messages r ++ [ev])
    by exact (onParsed_messages (set_buffer "" r) ev).
  assert (Hfinal : finalContent r1 = text).
  { unfold r1, onParsed, take_content, ev.
    cbn [Msg.type Msg.content Msg.with_content Msg.bare strict_eq_str
         String.eqb Ascii.eqb Bool.eqb andb].
    pose proof Htext as Ht%truthy_str. rewrite Ht. reflexivity. }
  destruct (onParsed_frame (set_buffer "" r) ev) as (Hb & _ & _ & Hs). fold r1 in Hb, Hs.
  cbn [buffer set_buffer settled] in Hb, Hs.
  split; [exact Hmsgs|]. split; [exact Hfinal|]. split; [exact Hb|].
  split; [destruct s; reflexivity|].
  intros code.
  assert (Hflush : flush JSON_parse
                     (set_activeProcess None (set_parser (parser s) s), clearTimeout r1)
                   = (set_activeProcess None (set_parser (parser s) s), clearTimeout r1)).
  { unfold flush. cbn [snd]. change (buffer (clearTimeout r1)) with (buffer r1).
    rewrite Hb. reflexivity. }
  eexists. split.
  { apply onClose_settled. now rewrite Hs. }
  rewrite Hflush. cbn [snd]. unfold result_of.
  change (finalContent (clearTimeout r1)) with (finalContent r1).
  change (messages (clearTimeout r1)) with (messages r1).
  rewrite Hfinal, Hmsgs.
  pose proof Htext as Ht%truthy_str. rewrite Ht, orb_true_r. repeat split.
Qed.

End ResultLine.

(** ** The argument list *)
Section Arguments.

Import CliArgs.

Variable settings : PluginSettings.ClaudeCodePluginSettings.

Lemma push_dirs_app prefix args dirs :
  push_dirs (prefix ++ args) dirs = prefix ++ push_dirs args dirs.
Proof.
  unfold push_dirs. revert args. induction dirs as [|dir dirs IH]; intros args; [reflexivity|].
  cbn [fold_left]. rewrite <- app_assoc. apply IH.
Qed.

(** The arguments are the five fixed ones, then the tool flag with the
    tools when there are any, then arguments that do not depend on the
    prompt or the tools. *)
Lemma buildArgs_tail (dirs : option (list string)) (id : option string)
    (turns : option Z) (sys app : option string) :
  exists tail, forall prompt tools,
    buildArgs settings (CliOptions.mk prompt tools dirs id turns sys app)
    = ["-p"; prompt; "--output-format"; "stream-json"; "--verbose"] ++
      (let chosen := match tools with
                     | Some t => t
                     | None => PluginSettings.defaultAllowedTools settings
                     end in
       if (0 <? length chosen)%nat
       then ["--allowedTools"; String.concat "," chosen] else []) ++
      tail.
Proof.
  unfold buildArgs. cbn [CliOptions.prompt CliOptions.allowedTools CliOptions.addDirs
    CliOptions.sessionId CliOptions.maxTurns CliOptions.systemPrompt
    CliOptions.appendSystemPrompt].
  set (turns' := match turns with
                 | Some n => if truthy (Some (JNum n)) then n
                             else PluginSettings.maxTurns settings
                 | None => PluginSettings.maxTurns settings
                 end).
  set (d := match dirs with
            | Some ds => if (0 <? length ds)%nat then push_dirs [] ds else []
            | None => []
            end).
  set (r := match id with
            | Some i => if truthy (Some (JStr i)) then ["--resume"; i] else []
            | None => []
            end).
  set (sp := match sys with
             | Some x => if truthy (Some (JStr x)) then ["--system-prompt"; x] else []
             | None => []
             end).
  set (p := match app with
            | Some x => if truthy (Some (JStr x)) then ["--append-system-prompt"; x] else sp
            | None => sp
            end).
  exists (d ++ r ++ ["--max-turns"; pretty turns'] ++ p).
  intros prompt tools. cbv zeta.
  set (chosen := match tools with
                 | Some t => t
                 | None => PluginSettings.defaultAllowedTools settings
                 end).
  set (t := if (0 <? length chosen)%nat
            then ["--allowedTools"; String.concat "," chosen] else []).
  set (base := ["-p"; prompt; "--output-format"; "stream-json"; "--verbose"]).
  assert (Ht : (if (0 <? length chosen)%nat
                then base ++ ["--allowedTools"; String.concat "," chosen] else base)
               = base ++ t).
  { unfold t. destruct (0 <? length chosen)%nat; [reflexivity|now rewrite app_nil_r]. }
  rewrite Ht.
  assert (Hd : match dirs with
               | Some ds => if (0 <? length ds)%nat then push_dirs (base ++ t) ds
                            else base ++ t
               | None => base ++ t
               end = (base ++ t) ++ d).
  { unfold d. destruct dirs as [ds|]; [|now rewrite app_nil_r].
    destruct (0 <? length ds)%nat; [|now rewrite app_nil_r].
    rewrite <- (app_nil_r (base ++ t)) at 1. apply push_dirs_app. }
  rewrite Hd.
  assert (Hr : match id with
               | Some i => if truthy (Some (JStr i)) then ((base ++ t) ++ d) ++ ["--resume"; i]
                           else (base ++ t) ++ d
               | None => (base ++ t) ++ d
               end = ((base ++ t) ++ d) ++ r).
  { unfold r. destruct id as [i|]; [|now rewrite app_nil_r].
    destruct (truthy (Some (JStr i))); [reflexivity|now rewrite app_nil_r]. }
  rewrite Hr.
  set (args := (((base ++ t) ++ d) ++ r) ++ ["--max-turns"; pretty turns']).
  assert (Hsp : match sys with
                | Some x => if truthy (Some (JStr x)) then args ++ ["--system-prompt"; x]
                            else args
                | None => args
                end = args ++ sp).
  { unfold sp. destruct sys as [x|]; [|now rewrite app_nil_r].
    destruct (truthy (Some (JStr x))); [reflexivity|now rewrite app_nil_r]. }
  assert (Hp : match app with
               | Some x =>
                   if truthy (Some (JStr x)) then args ++ ["--append-system-prompt"; x]
                   else match sys with
                        | Some x' => if truthy (Some (JStr x'))
                                     then args ++ ["--system-prompt"; x'] else args
                        | None => args
                        end
               | None =>
                   match sys with
                   | Some x' => if truthy (Some (JStr x'))
                                then args ++ ["--system-prompt"; x'] else args
                   | None => args
                   end
               end = args ++ p).
  { unfold p. destruct app as [x|]; [|exact Hsp].
    destruct (truthy (Some (JStr x))); [reflexivity|exact Hsp]. }
  rewrite Hp. unfold args. rewrite <- !app_assoc. reflexivity.
Qed.

(** X12.  In the argument list, an option given with a falsy value
    counts as not given: an empty resume id, a turn limit of [0], an empty
    list of directories and an empty system prompt or appended prompt give
    the arguments of the options without them.  An appended system prompt
    that is not empty wins over a system prompt: the latter is not passed.
    An empty tool list is different: it is used as it is, the flag is left
    out, and the default tools of the settings are not passed.  A list of
    tools that is not empty, given or taken from the settings when none is
    given, puts the flag [--allowedTools] and the tools, joined by commas,
    right after [--verbose], before the arguments that the empty list
    gives.  With an empty tool list and no other option the arguments are
    the five fixed ones and the turn limit of the settings. *)
Theorem X12_falsy_options
    (prompt : string) (tools dirs : option (list string)) (id : option string)
    (turns : option Z) (sys app : option string) (text : string) :
  buildArgs settings (CliOptions.mk prompt tools dirs (Some "") turns sys app)
  = buildArgs settings (CliOptions.mk prompt tools dirs None turns sys app) /\
  buildArgs settings (CliOptions.mk prompt tools dirs id (Some 0) sys app)
  = buildArgs settings (CliOptions.mk prompt tools dirs id None sys app) /\
  buildArgs settings (CliOptions.mk prompt tools (Some []) id turns sys app)
  = buildArgs settings (CliOptions.mk prompt tools None id turns sys app) /\
  buildArgs settings (CliOptions.mk prompt tools dirs id turns (Some "") app)
  = buildArgs settings (CliOptions.mk prompt tools dirs id turns None app) /\
  buildArgs settings (CliOptions.mk prompt tools dirs id turns sys (Some ""))
  = buildArgs settings (CliOptions.mk prompt tools dirs id turns sys None) /\
  (text <> "" ->
   buildArgs settings (CliOptions.mk prompt tools dirs id turns sys (Some text))
   = buildArgs settings (CliOptions.mk prompt tools dirs id turns None (Some text))) /\
  buildArgs settings (CliOptions.mk prompt (Some []) dirs id turns sys app)
  = buildArgs {| PluginSettings.defaultAllowedTools := [];
                 PluginSettings.maxTurns := PluginSettings.maxTurns settings |}
      (CliOptions.mk prompt None dirs id turns sys app) /\
  buildArgs settings (CliOptions.mk prompt None dirs id turns sys app)
  = buildArgs settings
      (CliOptions.mk prompt (Some (PluginSettings.defaultAllowedTools settings))
         dirs id turns sys app) /\
  (exists rest,
     buildArgs settings (CliOptions.mk prompt (Some []) dirs id turns sys app)
     = "-p" :: prompt :: "--output-format" :: "stream-json" :: "--verbose" :: rest /\
     forall tool others,
       buildArgs settings (CliOptions.mk prompt (Some (tool :: others)) dirs id turns sys app)
       = "-p" :: prompt :: "--output-format" :: "stream-json" :: "--verbose"
         :: "--allowedTools" :: String.concat "," (tool :: others) :: rest) /\
  buildArgs settings (CliOptions.mk prompt (Some []) None None None None None)
  = ["-p"; prompt; "--output-format"; "stream-json"; "--verbose";
     "--max-turns"; pretty (PluginSettings.maxTurns settings)] /\
  (text <> "" ->
   buildArgs settings (CliOptions.mk prompt (Some []) None None None sys (Some text))
   = ["-p"; prompt; "--output-format"; "stream-json"; "--verbose";
      "--max-turns"; pretty (PluginSettings.maxTurns settings);
      "--append-system-prompt"; text]).
Proof.
  destruct (buildArgs_tail dirs id turns sys app) as [tail Htail].
  split; [reflexivity|]. split; [reflexivity|]. split; [reflexivity|].
  split.
  { unfold buildArgs. cbn [CliOptions.appendSystemPrompt CliOptions.systemPrompt].
    destruct app as [a|]; [destruct (truthy (Some (JStr a)))|]; reflexivity. }
  split; [reflexivity|].
  split.
  { intros Htext%truthy_str. unfold buildArgs.
    cbn [CliOptions.appendSystemPrompt CliOptions.systemPrompt]. now rewrite Htext. }
  split; [reflexivity|]. split; [reflexivity|].
  split.
  { exists tail. split; [apply Htail|]. intros tool others. apply Htail. }
  split; [reflexivity|].
  intros Htext%truthy_str. unfold buildArgs.
  cbn [CliOptions.prompt CliOptions.allowedTools CliOptions.addDirs
    CliOptions.sessionId CliOptions.maxTurns CliOptions.systemPrompt
    CliOptions.appendSystemPrompt length Nat.ltb Nat.leb].
  now rewrite Htext.
Qed.

(** X13.  The prompt is passed as one argument, the second, right after
    [-p], whatever it holds; the arguments after it do not depend on it. *)
Theorem X13_prompt_is_one_argument
    (tools dirs : option (list string)) (id : option string)
    (turns : option Z) (sys app : option string) :
  exists rest, forall prompt,
    buildArgs settings (CliOptions.mk prompt tools dirs id turns sys app)
    = "-p" :: prompt :: "--output-format" :: "stream-json" :: "--verbose" :: rest.
Proof.
  destruct (buildArgs_tail dirs id turns sys app) as [tail Htail].
  eexists. intros prompt. rewrite Htail. reflexivity.
Qed.

End Arguments.

(** ** Fields of an object *)
Section Fields.

Import SessionOps.

Lemma lookup_field_app k (a b : list (string * json)) :
  lookup_field k (a ++ b) =
  match lookup_field k b with
  | Some w => Some w
  | None => lookup_field k a
  end.
Proof.
  induction a as [|[k0 v0] a IH]; cbn [app lookup_field].
  - destruct (lookup_field k b); reflexivity.
  - rewrite IH. destruct (lookup_field k b); reflexivity.
Qed.

Lemma lookup_field_absent k fields :
  has_field k fields = false -> lookup_field k fields = None.
Proof.
  unfold has_field. induction fields as [|[k0 v0] fields IH]; [reflexivity|].
  cbn [existsb fst lookup_field]. intros [Hk Hrest]%orb_false_iff.
  now rewrite (IH Hrest), Hk.
Qed.

Lemma has_field_replaced k v fields :
  has_field k (map (fun f => if String.eqb (fst f) k then (fst f, v) else f) fields)
  = has_field k fields.
Proof.
  unfold has_field. induction fields as [|[k0 v0] fields IH]; [reflexivity|].
  cbn [map existsb fst]. rewrite IH.
  destruct (String.eqb k0 k) eqn:E; cbn [fst]; now rewrite E.
Qed.

Lemma lookup_field_replaced k v fields :
  has_field k fields = true ->
  lookup_field k
    (map (fun f => if String.eqb (fst f) k then (fst f, v) else f) fields) = Some v.
Proof.
  unfold has_field. induction fields as [|[k0 v0] fields IH]; [discriminate|].
  cbn [existsb fst map].
  destruct (existsb (fun f => String.eqb (fst f) k) fields) eqn:Hrest.
  - intros _. destruct (String.eqb k0 k); cbn [lookup_field]; now rewrite (IH eq_refl).
  - rewrite orb_false_r. intros Hk. rewrite Hk. cbn [lookup_field].
    assert (Hnone : lookup_field k
              (map (fun f => if String.eqb (fst f) k then (fst f, v) else f) fields) = None).
    { apply lookup_field_absent. rewrite has_field_replaced. exact Hrest. }
    now rewrite Hnone, Hk.
Qed.

Lemma lookup_field_kept k k' v fields :
  k' <> k ->
  lookup_field k'
    (map (fun f => if String.eqb (fst f) k then (fst f, v) else f) fields)
  = lookup_field k' fields.
Proof.
  intros Hne. induction fields as [|[k0 v0] fields IH]; [reflexivity|].
  cbn [map fst lookup_field]. destruct (String.eqb k0 k) eqn:E.
  - apply String.eqb_eq in E. subst k0. cbn [lookup_field]. rewrite IH.
    assert (String.eqb k k' = false) as -> by (apply String.eqb_neq; congruence).
    reflexivity.
  - cbn [lookup_field]. now rewrite IH.
Qed.

(** Reading a field after an assignment. *)
Lemma lookup_assign_same k v fields : lookup_field k (assign k v fields) = Some v.
Proof.
  unfold assign. destruct (has_field k fields) eqn:E.
  - now apply lookup_field_replaced.
  - rewrite lookup_field_app. cbn [lookup_field]. now rewrite String.eqb_refl.
Qed.

Lemma lookup_assign_other k k' v fields :
  k' <> k -> lookup_field k' (assign k v fields) = lookup_field k' fields.
Proof.
  intros Hne. unfold assign. destruct (has_field k fields).
  - now apply lookup_field_kept.
  - rewrite lookup_field_app. cbn [lookup_field].
    assert (String.eqb k k' = false) as -> by (apply String.eqb_neq; congruence).
    reflexivity.
Qed.

End Fields.

(** ** What the store keeps *)
Section Keeping.

Import SessionManager Obsidian SessionOps.

Variable JSON_parse : string -> option json.
Variable JSON_stringify : json -> string.
Context {V : Type} (vault : Vault V).
Variable settings : Settings.

Lemma well_kept_insert id session m active :
  isValidSession session = true ->
  own session "id" = Some (JStr id) ->
  Kept.well_kept m ->
  Kept.well_kept (mkManager (<[id := session]> (sessions m)) active).
Proof.
  intros Hvalid Hid Hm k s. cbn [sessions].
  destruct (decide (id = k)) as [->|Hne].
  - rewrite lookup_insert_eq. intros [= <-]. split; assumption.
  - rewrite lookup_insert_ne by exact Hne. apply Hm.
Qed.

Lemma well_kept_store parsed m :
  isValidSession parsed = true -> Kept.well_kept m -> Kept.well_kept (store parsed m).
Proof.
  intros Hvalid Hm. destruct (store_valid parsed m Hvalid) as (id & Hid & ->).
  now apply well_kept_insert.
Qed.

Lemma loadFile_kept m path v :
  Kept.well_kept m ->
  exists m' v', loadFile JSON_parse vault m path v = (Normal m', v') /\ Kept.well_kept m'.
Proof.
  intros Hm. unfold loadFile, try_catch, bind, lift, ret.
  destruct (endsWith path ".json"); [|eauto].
  destruct (adapter_read vault path v) as [[content|e] v1]; [|eauto].
  destruct (JSON_parse content) as [parsed|]; [|eauto].
  destruct (isValidSession parsed) eqn:Hvalid; cbn [negb]; [|eauto].
  eexists _, _. split; [reflexivity|]. now apply well_kept_store.
Qed.

Lemma for_of_loadFile_kept paths :
  forall m v,
    Kept.well_kept m ->
    exists m' v',
      for_of (loadFile JSON_parse vault) m paths v = (Normal m', v') /\ Kept.well_kept m'.
Proof.
  induction paths as [|path paths IH]; intros m v Hm; cbn [for_of].
  - unfold ret. eauto.
  - unfold bind. destruct (loadFile_kept m path v Hm) as (m1 & v1 & -> & Hm1).
    now apply IH.
Qed.

Lemma loadSessions_kept m v :
  Kept.well_kept m ->
  exists m' v',
    loadSessions JSON_parse vault settings m v = (Normal m', v') /\ Kept.well_kept m'.
Proof.
  intros Hm. unfold loadSessions, try_catch, bind, ret.
  destruct (adapter_exists vault _ v) as [[[|]|e] v1]; cbn [negb]; [|eauto|eauto].
  destruct (adapter_list_files vault _ v1) as [[paths|e] v2]; [|eauto].
  destruct (for_of_loadFile_kept paths m v2 Hm) as (m' & v' & -> & Hm'). eauto.
Qed.

Lemma deleteSession_result id m v :
  fst (deleteSession vault settings id m v) =
  Normal (mkManager (base.delete id (sessions m)) (activeSessionId m)).
Proof.
  unfold deleteSession, try_catch, bind, ret.
  destruct (getAbstractFileByPath vault _ v) as [[[[p|p]|]|e] v1]; try reflexivity.
  destruct (Obsidian.delete vault (TFile p) v1) as [[[]|e] v2]; reflexivity.
Qed.

Lemma well_kept_delete id m :
  Kept.well_kept m ->
  Kept.well_kept (mkManager (base.delete id (sessions m)) (activeSessionId m)).
Proof.
  intros Hm k s. cbn [sessions]. intros Hk. apply Hm.
  apply lookup_delete_Some in Hk as [_ Hk]. exact Hk.
Qed.

(** The session [createSession] builds, and where it files it. *)
Lemma createSession_built toLocaleDateString name w m :
  exists id title created updated,
    let session :=
      JObj [("id", JStr id); ("name", JStr title); ("messages", JArr []);
            ("context", JArr []); ("createdAt", JNum created);
            ("updatedAt", JNum updated)] in
    truthy (Some (JStr id)) = true /\
    fst (fst (createSession toLocaleDateString name w m)) = session /\
    snd (createSession toLocaleDateString name w m)
    = mkManager (<[id := session]> (sessions m)) (Some id).
Proof.
  unfold createSession.
  pose proof (generateId_truthy w) as Htruthy.
  destruct (generateId w) as [id w1]. cbn [fst] in Htruthy.
  destruct name as [n|]; [destruct (truthy (Some (JStr n)))|];
    cbn -[truthy lookup insert]; eexists id, _, _, _; repeat split; exact Htruthy.
Qed.

Lemma well_kept_create toLocaleDateString name w m :
  Kept.well_kept m ->
  Kept.well_kept (snd (createSession toLocaleDateString name w m)).
Proof.
  intros Hm.
  destruct (createSession_built toLocaleDateString name w m)
    as (id & title & created & updated & Htruthy & _ & ->).
  apply well_kept_insert; [|reflexivity|exact Hm].
  unfold isValidSession. cbn [own lookup_field String.eqb Ascii.eqb Bool.eqb].
  cbn [truthy typeof negb orb String.eqb Ascii.eqb Bool.eqb isArray forallb] in *.
  now rewrite Htruthy.
Qed.

(** The validity of a session after a message was appended and the time
    of update set. *)
Lemma appended_valid fields msgs message now :
  isValidSession (JObj fields) = true ->
  lookup_field "messages" fields = Some (JArr msgs) ->
  isValidSession
    (JObj (assign "updatedAt" (JNum now)
             (assign "messages" (JArr (msgs ++ [message])) fields)))
  = message_ok message.
Proof.
  unfold isValidSession. cbn [own]. intros Hvalid Hmsgs.
  rewrite Hmsgs in Hvalid.
  rewrite lookup_assign_same.
  rewrite !(lookup_assign_other "updatedAt") by discriminate.
  rewrite lookup_assign_same.
  rewrite !(lookup_assign_other "messages") by discriminate.
  cbn [truthy typeof negb orb String.eqb Ascii.eqb Bool.eqb isArray] in *.
  destruct (negb (String.eqb (typeof (lookup_field "id" fields)) "string")
            || negb (truthy (lookup_field "id" fields))); [discriminate|].
  destruct (negb (String.eqb (typeof (lookup_field "createdAt" fields)) "number"));
    [discriminate|].
  destruct (negb (String.eqb (typeof (lookup_field "updatedAt" fields)) "number"));
    [discriminate|].
  rewrite forallb_app, Hvalid. cbn [forallb andb]. apply andb_true_r.
Qed.

Lemma valid_has_messages session :
  isValidSession session = true ->
  exists fields msgs,
    session = JObj fields /\ lookup_field "messages" fields = Some (JArr msgs).
Proof.
  unfold isValidSession.
  destruct session as [|b|n|s|items|fields];
    try (cbn; rewrite ?orb_true_r; discriminate).
  cbn [own]. destruct (_ || _); [discriminate|]. destruct (_ || _); [discriminate|].
  destruct (lookup_field "messages" fields) as [[| | | |msgs|]|] eqn:Hmsgs;
    cbn [isArray negb]; try discriminate.
  intros _. eauto.
Qed.

(** X14.  The store keeps an invariant: every session it holds passed
    the validator and is filed under its own id.  The empty store has it,
    and loading a folder, creating a session, deleting one and appending a
    message that the validator accepts all preserve it (and none of them
    throws on a store that has it). *)
Theorem X14_sessions_valid_and_filed :
  Kept.well_kept SessionManager.new /\
  (forall m v, Kept.well_kept m ->
     exists m' v',
       loadSessions JSON_parse vault settings m v = (Normal m', v') /\
       Kept.well_kept m') /\
  (forall toLocaleDateString name w m, Kept.well_kept m ->
     Kept.well_kept (snd (createSession toLocaleDateString name w m))) /\
  (forall id m v, Kept.well_kept m ->
     exists m',
       fst (deleteSession vault settings id m v) = Normal m' /\ Kept.well_kept m') /\
  (forall id message w m, Kept.well_kept m -> message_ok message = true ->
     exists m' w' save,
       addMessage JSON_stringify settings id message w m = Normal (m', w', save) /\
       Kept.well_kept m').
Proof.
  split. { intros k s. cbn [sessions SessionManager.new]. now rewrite lookup_empty. }
  split. { intros m v. apply loadSessions_kept. }
  split. { intros toLocale name w m. apply well_kept_create. }
  split.
  { intros id m v Hm. eexists. split; [apply deleteSession_result|].
    now apply well_kept_delete. }
  intros id message w m Hm Hok. unfold addMessage.
  destruct (sessions m !! id) as [session|] eqn:Hfound; [|eauto].
  destruct (Hm id session Hfound) as [Hvalid Hid].
  destruct (valid_has_messages session Hvalid) as (fields & msgs & -> & Hmsgs).
  cbn [truthy negb own]. rewrite Hmsgs. cbn [Date_now].
  eexists _, _, _. split; [reflexivity|].
  apply well_kept_insert; [| |exact Hm].
  - now rewrite (appended_valid fields msgs message _ Hvalid Hmsgs).
  - cbn [own] in *. now rewrite !lookup_assign_other by discriminate.
Qed.

End Keeping.

(** ** Appending, deleting the active session, saving and reloading *)
Section Appending.

Import SessionManager Obsidian SessionOps.

Variable JSON_parse : string -> option json.
Variable JSON_stringify : json -> string.
Context {V : Type} (vault : Vault V) (writer : VaultWriter V).
Variable settings : Settings.

Local Abbreviation addMessage := (addMessage JSON_stringify settings).

(** X15.  [addMessage] on an id the store does not hold changes nothing,
    reads no clock and starts no save.  On a session with a message list it
    appends the message at the end of the list, sets the time of update to
    the reading of the clock, leaves every other field of the session and
    every other session alone, and starts a save of the updated session
    exactly when auto-save is on; the updated session passes the validator
    exactly when the session did and the message does.  On a session
    without a message list it throws. *)
Theorem X15_addMessage (id : string) (message : json) (w : World) (m : Manager) :
  (sessions m !! id = None -> addMessage id message w m = Normal (m, w, None)) /\
  (forall fields msgs,
     sessions m !! id = Some (JObj fields) ->
     lookup_field "messages" fields = Some (JArr msgs) ->
     exists session',
       addMessage id message w m =
       Normal (mkManager (<[id := session']> (sessions m)) (activeSessionId m),
               snd (Date_now w),
               if autoSaveSessions settings
               then Some (save_request JSON_stringify settings session') else None) /\
       own session' "messages" = Some (JArr (msgs ++ [message])) /\
       own session' "updatedAt" = Some (JNum (clock w 0%nat)) /\
       (forall k, k <> "messages" -> k <> "updatedAt" ->
                  own session' k = lookup_field k fields) /\
       (isValidSession (JObj fields) = true ->
        isValidSession session' = message_ok message)) /\
  (forall session,
     sessions m !! id = Some session ->
     truthy (Some session) = true ->
     isArray (own session "messages") = false ->
     addMessage id message w m = Throw TypeError).
Proof.
  unfold SessionOps.addMessage. split; [|split].
  - intros ->. reflexivity.
  - intros fields msgs -> Hmsgs. cbn [truthy negb own]. rewrite Hmsgs. cbn [Date_now snd].
    eexists. split; [reflexivity|]. cbn [own]. split; [|split; [|split]].
    + rewrite lookup_assign_other by discriminate. apply lookup_assign_same.
    + apply lookup_assign_same.
    + intros k Hk Hk'. now rewrite !lookup_assign_other by congruence.
    + intros Hvalid. now apply appended_valid.
  - intros session -> Htruthy Harray. rewrite Htruthy. cbn [negb].
    destruct session as [| | | | |fields]; try reflexivity.
    cbn [own] in *. destruct (lookup_field "messages" fields) as [[| | | |msgs|]|];
      try reflexivity. discriminate Harray.
Qed.

(** X16.  Deleting the active session leaves the pointer on the deleted
    id, so that [getActiveSession] answers [null] until another session is
    made active; deleting any other session does not change what
    [getActiveSession] answers. *)
Theorem X16_delete_active (id : string) (m : Manager) (v : V) :
  exists m',
    fst (deleteSession vault settings id m v) = Normal m' /\
    activeSessionId m' = activeSessionId m /\
    (activeSessionId m = Some id -> getActiveSession m' = None) /\
    (activeSessionId m <> Some id -> getActiveSession m' = getActiveSession m).
Proof.
  eexists. split; [apply deleteSession_result|]. split; [reflexivity|].
  unfold getActiveSession. cbn [activeSessionId sessions]. split.
  - intros ->. destruct (negb _); [reflexivity|]. now rewrite lookup_delete_eq.
  - intros Hne. destruct (activeSessionId m) as [active|]; [|reflexivity].
    destruct (negb _); [reflexivity|].
    rewrite lookup_delete_ne by congruence. reflexivity.
Qed.

Lemma length_append (s t : string) :
  String.length (s +:+ t) = (String.length s + String.length t)%nat.
Proof.
  induction s as [|c s IH]; [reflexivity|].
  rewrite append_cons. cbn [String.length Nat.add]. now rewrite IH.
Qed.

Lemma substring_all t : substring 0 (String.length t) t = t.
Proof. induction t as [|c t IH]; [reflexivity|]. cbn. now rewrite IH. Qed.

Lemma substring_suffix s t :
  substring (String.length s) (String.length t) (s +:+ t) = t.
Proof.
  induction s as [|c s IH]; [apply substring_all|].
  rewrite append_cons. cbn [String.length substring]. exact IH.
Qed.

Lemma endsWith_append s t : endsWith (s +:+ t) t = true.
Proof.
  unfold endsWith. rewrite length_append.
  replace (String.length s + String.length t - String.length t)%nat
    with (String.length s) by lia.
  rewrite substring_suffix, String.eqb_refl, andb_true_r.
  apply Nat.leb_le. lia.
Qed.

(** The path [saveSession] writes ends in [.json]. *)
Lemma save_request_json session :
  endsWith (filePath (save_request JSON_stringify settings session)) ".json" = true.
Proof.
  unfold save_request. cbn [filePath].
  rewrite <- !string_app_assoc. apply endsWith_append.
Qed.

(** X17.  What [saveSession] writes, [loadSessions] reads back: when the
    vault stores the text written under the path, the folder then lists
    that one file, and decoding undoes printing on the session, saving a
    session that passes the validator and loading the folder into an empty
    store gives the store holding that session, under its id. *)
Theorem X17_save_then_load
    (session : json) (id : string) (v v0 v1 : V) (present : bool) :
  isValidSession session = true ->
  own session "id" = Some (JStr id) ->
  JSON_parse (JSON_stringify session) = Some session ->
  let path := sessionStoragePath settings +:+ "/" +:+ id +:+ ".json" in
  let text := JSON_stringify session in
  adapter_exists vault path v = (Normal present, v0) ->
  (if present then adapter_write writer path text v0
   else create writer path text v0) = (Normal tt, v1) ->
  adapter_exists vault (sessionStoragePath settings) v1 = (Normal true, v1) ->
  adapter_list_files vault (sessionStoragePath settings) v1 = (Normal [path], v1) ->
  adapter_read vault path v1 = (Normal text, v1) ->
  saveSession JSON_stringify vault writer settings session v = (Normal tt, v1) /\
  loadSessions JSON_parse vault settings SessionManager.new v1
  = (Normal (mkManager {[ id := session ]} None), v1).
Proof.
  intros Hvalid Hid Hround path text Hexists Hwrite Hfolder Hlist Hread.
  assert (Hrequest : save_request JSON_stringify settings session
                     = {| filePath := path; content := text |}).
  { unfold save_request. rewrite Hid. reflexivity. }
  split.
  - unfold saveSession, try_catch, bind. rewrite Hrequest. cbn [filePath content].
    rewrite Hexists. destruct present; now rewrite Hwrite.
  - unfold loadSessions, try_catch, bind, ret. rewrite Hfolder. cbn [negb].
    rewrite Hlist. cbn [for_of]. unfold bind, ret.
    rewrite (loadFile_decoded JSON_parse vault SessionManager.new path v1 text v1 session);
      [|pose proof (save_request_json session) as Hjson;
        now rewrite Hrequest in Hjson|exact Hread|exact Hround].
    rewrite Hvalid. unfold store. rewrite Hid. reflexivity.
Qed.

(** X18.  A record holding a message whose role is neither [user] nor
    [assistant] (the role [system] of [ChatMessage], for one) is refused by
    the validator, and a [.json] file that decodes to it is skipped by the
    loader, which leaves the store as it was. *)
Theorem X18_other_roles_are_refused
    (obj : json) (msgs : list json) (msg : json) :
  own obj "messages" = Some (JArr msgs) ->
  In msg msgs ->
  strict_eq_str (own msg "role") "user" = false ->
  strict_eq_str (own msg "role") "assistant" = false ->
  isValidSession obj = false /\
  forall m path v text v1,
    endsWith path ".json" = true ->
    adapter_read vault path v = (Normal text, v1) ->
    JSON_parse text = Some obj ->
    loadFile JSON_parse vault m path v = (Normal m, v1).
Proof.
  intros Hmsgs Hin Huser Hassistant.
  assert (Hmsg : message_ok msg = false).
  { unfold message_ok. rewrite Huser, Hassistant.
    destruct (_ || _); [reflexivity|]. destruct (negb _); reflexivity. }
  assert (Hall : forallb message_ok msgs = false).
  { destruct (forallb message_ok msgs) eqn:E; [|reflexivity].
    rewrite forallb_forall in E. specialize (E msg Hin). congruence. }
  assert (Hobj : isValidSession obj = false).
  { unfold isValidSession. rewrite Hmsgs, Hall.
    repeat match goal with
           | |- (if ?c then false else _) = false => destruct c; [reflexivity|]
           end.
    reflexivity. }
  split; [exact Hobj|]. intros m path v text v1 Hjson Hread Hparse.
  rewrite (loadFile_decoded JSON_parse vault m path v text v1 obj Hjson Hread Hparse).
  now rewrite Hobj.
Qed.

End Appending.

(** ** The properties on sample runs, lines and folders *)


(** X2 on a run that is closed with a result record still in its buffer:
    the record joins the messages and no ['message'] was emitted. *)
Lemma X2_messages_are_emitted_witness :
  let closed :=
    ClaudeCliService.step JsonText.parse
      (ClaudeCliService.steps JsonText.parse
         (ClaudeCliService.execute Spec.a_child ClaudeCliService.new)
         [ClaudeCliService.StdoutData Spec.unterminated_result])
      (ClaudeCliService.Close None) in
  Trace.emitted_messages (ClaudeCliService.emitted (snd closed)) = [] /\
  length (ClaudeCliService.messages (snd closed)) = 1%nat.
Proof.
  cbv zeta.
  destruct (X2_messages_are_emitted JsonText.parse Spec.a_child ClaudeCliService.new
              [ClaudeCliService.StdoutData Spec.unterminated_result] None eq_refl)
    as (_ & Hemitted & Hmessages).
  rewrite Hemitted, Hmessages. split; vm_compute; reflexivity.
Defined.

(** X5 on a run that just started. *)
Lemma X5_abort_and_timer_witness :
  let started := ClaudeCliService.execute Spec.a_child ClaudeCliService.new in
  ClaudeCliService.killed
    (fst (ClaudeCliService.steps JsonText.parse started
            [ClaudeCliService.TimerFired; ClaudeCliService.AbortCalled]))
  = [Spec.a_child; Spec.a_child] /\
  ClaudeCliService.killed
    (fst (ClaudeCliService.steps JsonText.parse started
            [ClaudeCliService.AbortCalled; ClaudeCliService.TimerFired]))
  = [Spec.a_child].
Proof.
  cbv zeta.
  destruct (X5_abort_and_timer JsonText.parse
              (fst (ClaudeCliService.execute Spec.a_child ClaudeCliService.new))
              (snd (ClaudeCliService.execute Spec.a_child ClaudeCliService.new))
              Spec.a_child "next" eq_refl eq_refl)
    as (_ & _ & _ & _ & Habort_timer & _ & _ & _ & _ & Htimer_abort).
  split; [exact Htimer_abort|exact Habort_timer].
Defined.

(** X6 on a run whose process was killed. *)
Lemma X6_idle_after_end_witness :
  let ended :=
    ClaudeCliService.step JsonText.parse
      (ClaudeCliService.execute Spec.a_child ClaudeCliService.new)
      (ClaudeCliService.Close None) in
  ClaudeCliService.isRunning (fst ended) = false /\
  ClaudeCliService.step JsonText.parse ended ClaudeCliService.TimerFired = ended /\
  ClaudeCliService.step JsonText.parse ended ClaudeCliService.AbortCalled = ended.
Proof.
  exact (X6_idle_after_end JsonText.parse
           (ClaudeCliService.execute Spec.a_child ClaudeCliService.new)
           (ClaudeCliService.Close None) (or_introl (ex_intro _ None eq_refl))).
Defined.

(** X8 on the record that opens a session. *)
Lemma X8_other_records_witness :
  exists ev,
    MessageParser.parseLine JsonText.parse Samples.line_system_init Samples.earlier_call
    = (Normal (Some [ev]), Samples.earlier_call) /\
    ev = Msg.with_subtype (Msg.bare (Some (JStr "system")) (Some (JStr "s1")))
           (Some (JStr "init")).
Proof.
  destruct (X8_other_records JsonText.parse Samples.line_system_init
              Samples.record_system_init Samples.earlier_call)
    as (ev & Hline & _ & _ & _ & _ & Hinit & _).
  - vm_compute. discriminate.
  - vm_compute. reflexivity.
  - reflexivity.
  - reflexivity.
  - reflexivity.
  - exists ev. split; [exact Hline|]. apply Hinit; reflexivity.
Defined.

(** X9 on the result of the call [t1], parsed while the table holds
    another call only. *)
Lemma X9_result_consumed_once_witness :
  exists before after tools1,
    MessageParser.parseLine JsonText.parse Spec.line_tool_result Samples.earlier_call
    = (Normal (Some (before ++
         Spec.tool_result_event (Spec.record_of "user" [Spec.block_tool_result])
           Spec.block_tool_result None :: after)), tools1) /\
    Map_get (JStr "t1") tools1 = None.
Proof.
  destruct (X9_result_consumed_once JsonText.parse Spec.line_tool_result
              (Spec.record_of "user" [Spec.block_tool_result]) [] []
              Spec.block_tool_result "t1" Samples.earlier_call)
    as (before & after & tools1 & _ & _ & _ & _ & Hfirst & Hgone & _).
  - vm_compute. discriminate.
  - vm_compute. reflexivity.
  - reflexivity.
  - reflexivity.
  - reflexivity.
  - reflexivity.
  - discriminate.
  - constructor.
  - exists before, after, tools1. split; [exact Hfirst|exact Hgone].
Defined.

(** X10 on an [assistant] record parsed while the table holds an earlier
    call: the earlier call stays. *)
Lemma X10_table_frame_witness :
  Map_has (JStr "t0")
    (snd (MessageParser.parseLine JsonText.parse Spec.line_tool_use Samples.earlier_call))
  = true.
Proof.
  destruct (X10_table_frame JsonText.parse Spec.line_tool_use
              (Spec.record_of "assistant" [Spec.block_text; Spec.block_tool_use])
              Samples.earlier_call) as [_ Hkept].
  - vm_compute. reflexivity.
  - apply Hkept; reflexivity.
Defined.

(** X11 on a result line and the exit status 1. *)
Lemma X11_result_line_witness :
  exists o,
    ClaudeCliService.settled
      (snd (ClaudeCliService.step JsonText.parse
              (ClaudeCliService.step JsonText.parse
                 (ClaudeCliService.execute Spec.a_child ClaudeCliService.new)
                 (ClaudeCliService.StdoutData (Samples.line_result +:+ String LF "")))
              (ClaudeCliService.Close (Some 1))))
    = Some (ClaudeCliService.Resolved o) /\
    ExecutionResult.success o = true /\
    ExecutionResult.finalContent o = Some "done".
Proof.
  destruct (X11_result_line JsonText.parse
              (ClaudeCliService.execute Spec.a_child ClaudeCliService.new)
              Samples.line_result Samples.record_result "done")
    as (_ & _ & _ & _ & Hclose).
  - reflexivity.
  - reflexivity.
  - vm_compute. reflexivity.
  - vm_compute. discriminate.
  - vm_compute. reflexivity.
  - reflexivity.
  - reflexivity.
  - discriminate.
  - destruct (Hclose (Some 1)) as (o & Ho & Hsuccess & Hfinal & _).
    exists o. repeat split; assumption.
Defined.

(** X17 on an empty folder. *)
Lemma X17_save_then_load_witness :
  SessionOps.saveSession JsonPrint.stringify Spec.memory_vault JsonPrint.memory_writer
    Spec.default_settings Samples.a_session (Spec.folder [])
  = (Normal tt,
     Spec.folder [(Samples.a_session_path, JsonPrint.stringify Samples.a_session)]) /\
  SessionManager.loadSessions JsonText.parse Spec.memory_vault Spec.default_settings
    SessionManager.new
    (Spec.folder [(Samples.a_session_path, JsonPrint.stringify Samples.a_session)])
  = (Normal (SessionManager.mkManager {[ "session-1" := Samples.a_session ]} None),
     Spec.folder [(Samples.a_session_path, JsonPrint.stringify Samples.a_session)]).
Proof.
  apply (X17_save_then_load JsonText.parse JsonPrint.stringify Spec.memory_vault
           JsonPrint.memory_writer Spec.default_settings Samples.a_session "session-1"
           (Spec.folder []) (Spec.folder [])
           (Spec.folder [(Samples.a_session_path, JsonPrint.stringify Samples.a_session)])
           true).
  - reflexivity.
  - reflexivity.
  - vm_compute. reflexivity.
  - vm_compute. reflexivity.
  - vm_compute. reflexivity.
  - reflexivity.
  - vm_compute. reflexivity.
  - vm_compute. reflexivity.
Defined.

(** X18 on a session that holds a system message. *)
Lemma X18_other_roles_are_refused_witness :
  SessionManager.isValidSession
    (Samples.session_of "session-3" [Samples.message_user; Samples.message_system])
  = false.
Proof.
  apply (X18_other_roles_are_refused JsonText.parse Spec.memory_vault
           (Samples.session_of "session-3" [Samples.message_user; Samples.message_system])
           [Samples.message_user; Samples.message_system] Samples.message_system).
  - reflexivity.
  - right. left. reflexivity.
  - reflexivity.
  - reflexivity.
Defined.

(** ** The listeners *)
Section Registered.

Import Listeners.

Context {D : Type}.
Implicit Types (ls : gmap string (list nat)) (cb : nat) (data : D).

Lemma emit_on_same event cb data ls :
  emit event data (on event cb ls) = emit event data ls ++ [(cb, data)].
Proof.
  unfold emit, on. destruct (ls !! event) as [cbs|] eqn:E;
    rewrite lookup_insert_eq; [apply map_app|reflexivity].
Qed.

Lemma emit_on_other event event' cb data ls :
  event' <> event -> emit event' data (on event cb ls) = emit event' data ls.
Proof.
  intros Hne. unfold emit, on.
  destruct (ls !! event); now rewrite lookup_insert_ne by congruence.
Qed.

Lemma splice_first_calls cb data cbs :
  calls cb (map (fun c => (c, data)) (splice_first cb cbs))
  = pred (calls cb (map (fun c => (c, data)) cbs)).
Proof.
  unfold calls. induction cbs as [|c cbs IH]; [reflexivity|].
  cbn [splice_first]. destruct (Nat.eqb c cb) eqn:E.
  - cbn [map List.filter fst]. now rewrite E.
  - cbn [map List.filter fst]. rewrite E. exact IH.
Qed.

Lemma splice_first_others cb data cbs :
  calls_to_others cb (map (fun c => (c, data)) (splice_first cb cbs))
  = calls_to_others cb (map (fun c => (c, data)) cbs).
Proof.
  unfold calls_to_others. induction cbs as [|c cbs IH]; [reflexivity|].
  cbn [splice_first]. destruct (Nat.eqb c cb) eqn:E.
  - cbn [map List.filter fst]. now rewrite E.
  - cbn [map List.filter fst]. rewrite E. cbn [negb]. now rewrite IH.
Qed.

Lemma splice_first_absent cb cbs :
  ~ In cb cbs -> splice_first cb (cbs ++ [cb]) = cbs.
Proof.
  induction cbs as [|c cbs IH]; intros Hin; cbn [app splice_first].
  - now rewrite Nat.eqb_refl.
  - destruct (Nat.eqb c cb) eqn:E.
    + apply Nat.eqb_eq in E. subst. exfalso. apply Hin. now left.
    + rewrite IH; [reflexivity|]. intros H. apply Hin. now right.
Qed.

Lemma splice_first_earliest cb pre post :
  ~ In cb pre -> splice_first cb (pre ++ cb :: post) = pre ++ post.
Proof.
  induction pre as [|c pre IH]; intros Hin; cbn [app splice_first].
  - now rewrite Nat.eqb_refl.
  - destruct (Nat.eqb c cb) eqn:E.
    + apply Nat.eqb_eq in E. subst. exfalso. apply Hin. now left.
    + rewrite IH; [reflexivity|]. intros H. apply Hin. now right.
Qed.

(** X19.  The listeners of an event are called in the order they were
    registered, and registering touches no other event.  [off] with a
    callback removes one registration of it, the earliest: the listeners
    registered before it and after it, later registrations of the same
    callback among them, are called as before, in order.  So the callback
    is called once less and the calls to the others stay as they are; a
    callback that was not registered before is gone again after [on] and
    [off].  [off] without a callback and [removeAllListeners] leave the
    event without calls. *)
Theorem X19_listeners (event : string) (cb : EventCallback) (data : D) (ls : Registry) :
  emit event data (on event cb ls) = emit event data ls ++ [(cb, data)] /\
  (forall event', event' <> event ->
     emit event' data (on event cb ls) = emit event' data ls /\
     emit event' data (off event (Some cb) ls) = emit event' data ls /\
     emit event' data (off event None ls) = emit event' data ls) /\
  calls cb (emit event data (off event (Some cb) ls))
  = pred (calls cb (emit event data ls)) /\
  calls_to_others cb (emit event data (off event (Some cb) ls))
  = calls_to_others cb (emit event data ls) /\
  (forall pre post,
     emit event data ls = map (fun c => (c, data)) (pre ++ cb :: post) ->
     ~ In cb pre ->
     emit event data (off event (Some cb) ls) = map (fun c => (c, data)) (pre ++ post)) /\
  (calls cb (emit event data ls) = 0%nat ->
   emit event data (off event (Some cb) (on event cb ls)) = emit event data ls) /\
  emit event data (off event None ls) = [] /\
  emit event data (removeAllListeners ls) = [].
Proof.
  split; [apply emit_on_same|]. split.
  { intros event' Hne. split; [now apply emit_on_other|]. unfold emit, off. split.
    - destruct (ls !! event); now rewrite ?lookup_insert_ne by congruence.
    - now rewrite lookup_delete_ne by congruence. }
  split.
  { unfold emit, off. destruct (ls !! event) as [cbs|] eqn:E; [|now rewrite E].
    rewrite lookup_insert_eq. apply splice_first_calls. }
  split.
  { unfold emit, off. destruct (ls !! event) as [cbs|] eqn:E; [|now rewrite E].
    rewrite lookup_insert_eq. apply splice_first_others. }
  split.
  { intros pre post Hcalls Hin. unfold emit, off in *.
    destruct (ls !! event) as [cbs|] eqn:E.
    - rewrite lookup_insert_eq. f_equal.
      apply (f_equal (map fst)) in Hcalls. rewrite !map_map in Hcalls.
      cbn [fst] in Hcalls. rewrite !map_id in Hcalls. subst cbs.
      now apply splice_first_earliest.
    - destruct pre; discriminate Hcalls. }
  split.
  { intros Hnone. unfold emit, off, on.
    destruct (ls !! event) as [cbs|] eqn:E.
    - rewrite lookup_insert_eq, insert_insert_eq, lookup_insert_eq.
      rewrite splice_first_absent; [reflexivity|].
      unfold emit, calls in Hnone. rewrite E in Hnone.
      intros Hin. apply (in_map (fun c => (c, data))) in Hin.
      assert (Hf : In (cb, data)
                (List.filter (fun call => Nat.eqb (fst call) cb)
                   (map (fun c => (c, data)) cbs))).
      { apply filter_In. split; [exact Hin|]. apply Nat.eqb_refl. }
      destruct (List.filter _ _); [contradiction|discriminate].
    - rewrite lookup_insert_eq, insert_insert_eq, lookup_insert_eq.
      cbn [splice_first]. now rewrite Nat.eqb_refl. }
  split.
  { unfold emit, off. now rewrite lookup_delete_eq. }
  unfold emit, removeAllListeners. now rewrite lookup_empty.
Qed.

End Registered.

(** ** The error text of a failed run *)
Section ErrorText.

Import ClaudeCliService.

Variable JSON_parse : string -> option json.

Lemma step_stderr st e :
  stderrData (snd (step JSON_parse st e)) =
  stderrData (snd st) +:+ Trace.stderr_text [e].
Proof.
  assert (Hnil : forall x : string, x +:+ "" = x).
  { intros x. induction x as [|c x IH]; [reflexivity|]. rewrite append_cons. now rewrite IH. }
  destruct e as [data|data|code|err| |]; cbn [step Trace.stderr_text]; rewrite ?Hnil.
  - apply (onStdout_invariant JSON_parse
             (fun r => stderrData r = stderrData (snd st))); auto.
    intros r m Hr. destruct (onParsed_frame r m) as (_ & He & _ & _). congruence.
  - destruct st as [s r]. reflexivity.
  - destruct st as [s r]. unfold onClose.
    pose proof (flush_frame JSON_parse (set_activeProcess None s, clearTimeout r))
      as (_ & He & _ & _).
    destruct (flush JSON_parse (set_activeProcess None s, clearTimeout r)) as [s' r'].
    cbn [snd] in *. unfold settle. destruct (settled r'); exact He.
  - destruct st as [s r]. cbn [onError snd]. unfold settle.
    destruct (settled (clearTimeout r)); reflexivity.
  - destruct st as [s r]. unfold onTimeout. destruct (timeout r); reflexivity.
  - reflexivity.
Qed.

Lemma steps_stderr es :
  forall st,
    stderrData (snd (steps JSON_parse st es)) =
    stderrData (snd st) +:+ Trace.stderr_text es.
Proof.
  assert (Hnil : forall x : string, x +:+ "" = x).
  { intros x. induction x as [|c x IH]; [reflexivity|]. rewrite append_cons. now rewrite IH. }
  unfold steps. induction es as [|e es IH]; intros st; cbn [fold_left].
  - cbn [Trace.stderr_text]. now rewrite Hnil.
  - rewrite IH, step_stderr, string_app_assoc. f_equal.
    destruct e; cbn [Trace.stderr_text]; rewrite ?Hnil; reflexivity.
Qed.

(** While the process streams, the promise stays as it is. *)
Lemma steps_pending es :
  forallb Spec.streams es = true ->
  forall st, settled (snd (steps JSON_parse st es)) = settled (snd st).
Proof.
  unfold steps. induction es as [|e es IH]; intros Hes st; [reflexivity|].
  cbn [forallb] in Hes. apply andb_true_iff in Hes as [He Hes].
  cbn [fold_left]. rewrite (IH Hes).
  destruct e as [data|data|code|err| |]; try discriminate He; cbn [step snd].
  - apply (onStdout_invariant JSON_parse (fun r => settled r = settled (snd st))); auto.
    intros r m Hr. destruct (onParsed_frame r m) as (_ & _ & _ & Hs). congruence.
  - destruct st as [s r]. reflexivity.
  - destruct st as [s r]. unfold onTimeout. destruct (timeout r); reflexivity.
  - reflexivity.
Qed.

(** X4.  The promise of a run is settled by the ['close'] and the
    ['error'] handler only, and by the first of them.  While the process
    only writes, the timer fires or [abort] is called, the promise stays
    pending: a run whose process never closes never settles, aborted or
    not.  The first close resolves it with the outcome of that moment, the
    first error rejects it with that error, and nothing that happens later
    changes the settlement. *)
Theorem X4_settles_at_first_end (child : ChildProcess) (s : Service)
    (es later : list Event) :
  forallb Spec.streams es = true ->
  let st := steps JSON_parse (execute child s) es in
  settled (snd st) = None /\
  (forall code,
     settled (snd (steps JSON_parse st (Close code :: later)))
     = Some (Resolved (result_of code
         (snd (flush JSON_parse
                 (set_activeProcess None (fst st), clearTimeout (snd st))))))) /\
  (forall err,
     settled (snd (steps JSON_parse st (ProcessError err :: later)))
     = Some (Rejected err)).
Proof.
  intros Hes. cbv zeta.
  pose proof (steps_pending es Hes (execute child s)) as Hpending.
  cbn [execute snd settled] in Hpending.
  destruct (steps JSON_parse (execute child s) es) as [s' r']. cbn [fst snd] in *.
  split; [exact Hpending|]. split.
  - intros code. unfold steps. cbn [fold_left step].
    apply (steps_settled JSON_parse). apply onClose_settled, Hpending.
  - intros err. unfold steps. cbn [fold_left step].
    apply (steps_settled JSON_parse). cbn [onError snd]. unfold settle.
    change (settled (clearTimeout r')) with (settled r'). now rewrite Hpending.
Qed.

(** C1.  When the process closes after streaming, while the promise is
    pending, the promise resolves with an outcome whose [success] is [true]
    exactly when the exit code is [0] or the final text accumulated by then
    is not empty.  In particular a non-empty final text gives a successful
    outcome carrying that text whatever the exit code.  A failed outcome
    carries the text captured from stderr, which is what the process wrote
    there, chunk after chunk; when nothing was captured it carries the
    message [Process exited with code] followed by the exit code, or by
    [null] for a process ended by a signal.  The error text of a failed
    outcome is never empty. *)
Theorem C1_run_outcome (st : Service * Run) (es : list Event) (code : option Z) :
  settled (snd st) = None ->
  forallb Spec.streams es = true ->
  let streamed := steps JSON_parse st es in
  let final := finalContent (snd (onClose JSON_parse code streamed)) in
  let captured := stderrData (snd st) +:+ Trace.stderr_text es in
  exists o,
    settled (snd (onClose JSON_parse code streamed)) = Some (Resolved o) /\
    (ExecutionResult.success o = true <-> code = Some 0 \/ final <> "") /\
    (final <> "" ->
       ExecutionResult.success o = true /\
       ExecutionResult.finalContent o = Some final) /\
    (ExecutionResult.success o = false ->
       ExecutionResult.error o =
       Some (if String.eqb captured ""
             then "Process exited with code " +:+
                  match code with
                  | Some n => pretty n
                  | None => "null"
                  end
             else captured) /\
       ExecutionResult.error o <> Some "").
Proof.
  intros Hpending Hes. cbv zeta.
  pose proof (steps_stderr es st) as Herr.
  pose proof (steps_pending es Hes st) as Hstill. rewrite Hpending in Hstill.
  destruct (steps JSON_parse st es) as [s r]. cbn [snd] in Herr, Hstill.
  eexists. split; [apply onClose_settled, Hstill|].
  rewrite onClose_finalContent.
  pose proof (flush_frame JSON_parse (set_activeProcess None s, clearTimeout r)) as Hf.
  set (r' := snd (flush JSON_parse (set_activeProcess None s, clearTimeout r))) in *.
  destruct Hf as (_ & Hkept & _ & _). cbn [snd] in Hkept.
  change (stderrData (clearTimeout r)) with (stderrData r) in Hkept.
  split; [apply result_of_success|]. split.
  - intros Hfinal. unfold result_of.
    apply truthy_str in Hfinal. rewrite Hfinal, orb_true_r. split; reflexivity.
  - unfold result_of.
    destruct (_ || _); cbn [ExecutionResult.success ExecutionResult.error];
      [discriminate|]. intros _.
    rewrite Hkept, Herr. cbn [truthy].
    destruct (String.eqb (stderrData (snd st) +:+ Trace.stderr_text es) "") eqn:E;
      cbn [negb].
    + split; [reflexivity|]. discriminate.
    + split; [reflexivity|]. intros [= Hempty]. rewrite Hempty in E. discriminate E.
Qed.

(** X20.  The text kept from stderr is what the process wrote there, all
    chunks in order.  When the process closes after streaming, a failed
    outcome carries that text, or the exit-status message when the process
    wrote nothing, and so never an empty error text; a successful outcome
    carries no error. *)
Theorem X20_error_text (child : ChildProcess) (s : Service)
    (es : list Event) (code : option Z) :
  forallb Spec.streams es = true ->
  let st := steps JSON_parse (execute child s) es in
  stderrData (snd st) = Trace.stderr_text es /\
  exists o,
    settled (snd (step JSON_parse st (Close code))) = Some (Resolved o) /\
    (ExecutionResult.success o = false ->
       ExecutionResult.error o =
         Some (if String.eqb (Trace.stderr_text es) "" then exit_message code
               else Trace.stderr_text es) /\
       ExecutionResult.error o <> Some "") /\
    (ExecutionResult.success o = true -> ExecutionResult.error o = None).
Proof.
  intros Hes. cbv zeta.
  pose proof (steps_stderr es (execute child s)) as Herr.
  cbn [execute snd stderrData] in Herr. rewrite append_empty in Herr.
  destruct (steps_streams JSON_parse es Hes (execute child s) eq_refl eq_refl)
    as [Hpending _].
  split; [exact Herr|].
  destruct (steps JSON_parse (execute child s) es) as [s' r']. cbn [snd] in *.
  cbn [step]. eexists. split; [apply onClose_settled, Hpending|].
  pose proof (flush_frame JSON_parse (set_activeProcess None s', clearTimeout r'))
    as (_ & He & _ & _).
  cbn [snd] in He. change (stderrData (clearTimeout r')) with (stderrData r') in He.
  unfold result_of. destruct (_ || _); cbn [ExecutionResult.success ExecutionResult.error].
  - split; [discriminate|reflexivity].
  - split; [|discriminate]. intros _. rewrite He, Herr.
    cbn [truthy]. destruct (String.eqb (Trace.stderr_text es) "") eqn:E; cbn [negb].
    + split; [reflexivity|]. unfold exit_message. discriminate.
    + split; [reflexivity|]. intros [= Hempty]. rewrite Hempty in E. discriminate E.
Qed.

End ErrorText.

(** C1 on three runs that exit with status 1: one that streamed an
    assistant text succeeds with the text, one that wrote to stderr in two
    chunks fails with what it wrote, and one that wrote nothing fails with
    the exit-status message. *)
Lemma C1_run_outcome_witness :
  let started := ClaudeCliService.execute Spec.a_child ClaudeCliService.new in
  let closed es :=
    ClaudeCliService.settled
      (snd (ClaudeCliService.onClose JsonText.parse (Some 1)
              (ClaudeCliService.steps JsonText.parse started es))) in
  (exists o,
     closed [ClaudeCliService.StdoutData (JsonText.line
       "{'type':'assistant','message':{'content':[{'type':'text','text':'hi'}]}}")]
     = Some (ClaudeCliService.Resolved o) /\
     ExecutionResult.success o = true /\
     ExecutionResult.finalContent o = Some "hi") /\
  (exists o,
     closed [ClaudeCliService.StderrData "bo"; ClaudeCliService.StderrData "om"]
     = Some (ClaudeCliService.Resolved o) /\
     ExecutionResult.success o = false /\
     ExecutionResult.error o = Some "boom") /\
  (exists o,
     closed [] = Some (ClaudeCliService.Resolved o) /\
     ExecutionResult.success o = false /\
     ExecutionResult.error o = Some "Process exited with code 1").
Proof.
  cbv zeta. split; [|split].
  - destruct (C1_run_outcome JsonText.parse
                (ClaudeCliService.execute Spec.a_child ClaudeCliService.new)
                [ClaudeCliService.StdoutData (JsonText.line
                   "{'type':'assistant','message':{'content':[{'type':'text','text':'hi'}]}}")]
                (Some 1) eq_refl eq_refl)
      as (o & Ho & _ & Hfinal & _).
    exists o. split; [exact Ho|].
    assert (Hne : ClaudeCliService.finalContent
              (snd (ClaudeCliService.onClose JsonText.parse (Some 1)
                 (ClaudeCliService.steps JsonText.parse
                    (ClaudeCliService.execute Spec.a_child ClaudeCliService.new)
                    [ClaudeCliService.StdoutData (JsonText.line
                       "{'type':'assistant','message':{'content':[{'type':'text','text':'hi'}]}}")])))
              = "hi") by (vm_compute; reflexivity).
    rewrite Hne in Hfinal. apply Hfinal. discriminate.
  - destruct (C1_run_outcome JsonText.parse
                (ClaudeCliService.execute Spec.a_child ClaudeCliService.new)
                [ClaudeCliService.StderrData "bo"; ClaudeCliService.StderrData "om"]
                (Some 1) eq_refl eq_refl)
      as (o & Ho & Hiff & _ & Hfail).
    exists o. split; [exact Ho|].
    assert (Hs : ExecutionResult.success o = false).
    { destruct (ExecutionResult.success o); [|reflexivity].
      destruct (proj1 Hiff eq_refl) as [Hcode|Hfinal]; [discriminate Hcode|].
      exfalso. apply Hfinal. vm_compute. reflexivity. }
    split; [exact Hs|]. exact (proj1 (Hfail Hs)).
  - destruct (C1_run_outcome JsonText.parse
                (ClaudeCliService.execute Spec.a_child ClaudeCliService.new)
                [] (Some 1) eq_refl eq_refl)
      as (o & Ho & Hiff & _ & Hfail).
    exists o. split; [exact Ho|].
    assert (Hs : ExecutionResult.success o = false).
    { destruct (ExecutionResult.success o); [|reflexivity].
      destruct (proj1 Hiff eq_refl) as [Hcode|Hfinal]; [discriminate Hcode|].
      exfalso. apply Hfinal. vm_compute. reflexivity. }
    split; [exact Hs|]. exact (proj1 (Hfail Hs)).
Defined.

(** X4 on a run that is aborted and whose timer fires: it is pending
    until the process fails, and a close after that leaves the rejection. *)
Lemma X4_settles_at_first_end_witness :
  let st :=
    ClaudeCliService.steps JsonText.parse
      (ClaudeCliService.execute Spec.a_child ClaudeCliService.new)
      [ClaudeCliService.AbortCalled; ClaudeCliService.TimerFired] in
  ClaudeCliService.settled (snd st) = None /\
  ClaudeCliService.settled
    (snd (ClaudeCliService.steps JsonText.parse st
            [ClaudeCliService.ProcessError "spawn claude ENOENT";
             ClaudeCliService.Close (Some 0)]))
  = Some (ClaudeCliService.Rejected "spawn claude ENOENT").
Proof.
  cbv zeta.
  destruct (X4_settles_at_first_end JsonText.parse Spec.a_child ClaudeCliService.new
              [ClaudeCliService.AbortCalled; ClaudeCliService.TimerFired]
              [ClaudeCliService.Close (Some 0)] eq_refl)
    as (Hpending & _ & Herror).
  split; [exact Hpending|]. exact (Herror "spawn claude ENOENT").
Defined.

(** X20 on a run that is killed at the deadline without any output. *)
Lemma X20_error_text_witness :
  exists o,
    ClaudeCliService.settled
      (snd (ClaudeCliService.step JsonText.parse
              (ClaudeCliService.steps JsonText.parse
                 (ClaudeCliService.execute Spec.a_child ClaudeCliService.new)
                 [ClaudeCliService.TimerFired])
              (ClaudeCliService.Close None)))
    = Some (ClaudeCliService.Resolved o) /\
    ExecutionResult.success o = false /\
    ExecutionResult.error o = Some "Process exited with code null".
Proof.
  destruct (X20_error_text JsonText.parse Spec.a_child ClaudeCliService.new
              [ClaudeCliService.TimerFired] None eq_refl)
    as (_ & o & Ho & Hfail & _).
  exists o. split; [exact Ho|].
  assert (Hs : ExecutionResult.success o = false).
  { vm_compute in Ho. injection Ho as <-. reflexivity. }
  split; [exact Hs|]. destruct (Hfail Hs) as [Herror _]. exact Herror.
Defined.

(** X12 on a request that gives an empty tool list, a system prompt and
    an appended one. *)
Lemma X12_falsy_options_witness :
  CliArgs.buildArgs
    {| PluginSettings.defaultAllowedTools := ["Read"]; PluginSettings.maxTurns := 10 |}
    (CliOptions.mk "hello" (Some []) None None None (Some "be kind") (Some "be brief"))
  = ["-p"; "hello"; "--output-format"; "stream-json"; "--verbose";
     "--max-turns"; "10"; "--append-system-prompt"; "be brief"].
Proof.
  apply (X12_falsy_options
           {| PluginSettings.defaultAllowedTools := ["Read"]; PluginSettings.maxTurns := 10 |}
           "hello" None None None None (Some "be kind") None "be brief").
  discriminate.
Defined.

(** X14 on the store that holds one session just created: appending a user
    message keeps the invariant. *)
Lemma X14_sessions_valid_and_filed_witness :
  let m := snd (SessionManager.createSession (fun _ => "1/1/2026") None
                  (Spec.ticking 1767225600000) SessionManager.new) in
  Kept.well_kept m /\
  exists m' w' save,
    SessionOps.addMessage JsonPrint.stringify Spec.default_settings
      "session-1767225600000-k3j9x0q2z" Samples.message_user
      (Spec.ticking 1767225600005) m
    = Normal (m', w', save) /\
    Kept.well_kept m'.
Proof.
  destruct (X14_sessions_valid_and_filed JsonText.parse JsonPrint.stringify
              Spec.memory_vault Spec.default_settings)
    as (Hnew & _ & Hcreate & _ & Hadd).
  cbv zeta.
  pose proof (Hcreate (fun _ => "1/1/2026") None (Spec.ticking 1767225600000)
                SessionManager.new Hnew) as Hm.
  split; [exact Hm|].
  exact (Hadd "session-1767225600000-k3j9x0q2z" Samples.message_user
           (Spec.ticking 1767225600005) _ Hm eq_refl).
Defined.

(** X15 on a store that holds one session with one message. *)
Lemma X15_addMessage_witness :
  exists session',
    SessionOps.addMessage JsonPrint.stringify Spec.default_settings
      "session-1" Samples.message_user (Spec.ticking 1767225600005)
      (SessionManager.mkManager {[ "session-1" := Samples.a_session ]} None)
    = Normal (SessionManager.mkManager
                (<[ "session-1" := session' ]> {[ "session-1" := Samples.a_session ]}) None,
              snd (Obsidian.Date_now (Spec.ticking 1767225600005)),
              Some (SessionOps.save_request JsonPrint.stringify Spec.default_settings
                      session')) /\
    own session' "messages" = Some (JArr [Samples.message_user; Samples.message_user]) /\
    own session' "updatedAt" = Some (JNum 1767225600005) /\
    SessionManager.isValidSession session' = true.
Proof.
  destruct (X15_addMessage JsonPrint.stringify Spec.default_settings
              "session-1" Samples.message_user (Spec.ticking 1767225600005)
              (SessionManager.mkManager {[ "session-1" := Samples.a_session ]} None))
    as (_ & Hheld & _).
  destruct (Hheld _ [Samples.message_user] (lookup_singleton_eq _ _) eq_refl)
    as (session' & Hrun & Hmsgs & Htime & _ & Hvalid).
  exists session'. split; [exact Hrun|]. split; [exact Hmsgs|].
  split; [exact Htime|]. exact (Hvalid eq_refl).
Defined.

(** X16 on a store whose only session is the active one. *)
Lemma X16_delete_active_witness :
  exists m',
    fst (SessionManager.deleteSession Spec.memory_vault Spec.default_settings
           "session-1"
           (SessionManager.mkManager {[ "session-1" := Samples.a_session ]}
              (Some "session-1"))
           (Spec.folder []))
    = Normal m' /\
    SessionManager.activeSessionId m' = Some "session-1" /\
    SessionManager.getActiveSession m' = None.
Proof.
  destruct (X16_delete_active Spec.memory_vault Spec.default_settings "session-1"
              (SessionManager.mkManager {[ "session-1" := Samples.a_session ]}
                 (Some "session-1"))
              (Spec.folder []))
    as (m' & Hrun & Hactive & Hgone & _).
  exists m'. split; [exact Hrun|]. split; [exact Hactive|]. exact (Hgone eq_refl).
Defined.

(** X19 on a listener registered twice, around another one: [off]
    removes the first registration, and the other listener is now called
    first. *)
Lemma X19_listeners_witness :
  Listeners.emit "message" tt
    (Listeners.off "message" (Some 1%nat)
       (Listeners.on "message" 1%nat
          (Listeners.on "message" 2%nat (Listeners.on "message" 1%nat ∅))))
  = [(2%nat, tt); (1%nat, tt)].
Proof.
  apply (proj1 (proj2 (proj2 (proj2 (proj2
           (X19_listeners "message" 1%nat tt
              (Listeners.on "message" 1%nat
                 (Listeners.on "message" 2%nat (Listeners.on "message" 1%nat ∅))))))))
           [] [2%nat; 1%nat]).
  - vm_compute. reflexivity.
  - intros [].
Defined.
